(** * Ceph-CSI CephFS controller: identifier codec, lock registry and
      controller operations

    A shallow embedding of the CephFS controller server
    ([ControllerServer] in package [cephfs]), of its clone helpers
    ([createCloneFromSubvolume] and [checkCloneFromSubvolumeExists],
    internal/cephfs/clone.go) and of the helpers of package [util] for rados
    connections, pools and omaps.

    - Go functions whose body is part of the sources are embedded as Rocq
      definitions that keep their Go name.
    - Go functions that are called but defined elsewhere (journal helpers,
      backing-object primitives, credential handling, request validation,
      library calls) are constructors of [Call]; they are answered by an
      arbitrary environment [handle], and every call is recorded, with its
      answer, in the trace of the run.
    - [defer] statements are written out: the deferred action runs after the
      body, reading the variables the Go closure reads.
    - Logging ([klog]) has no effect on state or results and is left out. *)

From Stdlib Require Import ZArith List String Ascii Bool Lia.
From stdpp Require Import base gmap strings list.
Import ListNotations.

Local Open Scope string_scope.
Local Open Scope Z_scope.
Local Open Scope list_scope.

(** ** Errors *)

(** gRPC status codes ([google.golang.org/grpc/codes]). *)
Inductive codes :=
| OK | Canceled | Unknown | InvalidArgument | DeadlineExceeded | NotFound
| AlreadyExists | PermissionDenied | ResourceExhausted | FailedPrecondition
| Aborted | OutOfRange | Unimplemented | Internal | Unavailable | DataLoss
| Unauthenticated.

(** Dynamic type of an error value returned by the helpers of packages
    [util] and [cephfs]; [errorString] stands for every untyped error
    ([errors.New], [fmt.Errorf]). An error value is modelled by its own
    dynamic type and text; chains of wrapped errors are not modelled, so
    [errors.As] is a test on that type. *)
Inductive errType :=
| ErrPoolNotFound | ErrKeyNotFound | ErrVolumeNotFound | ErrSnapNotFound
| ErrInvalidVolID | ErrCloneInProgress | InvalidCommand | CacheEntryNotFound
| errorString.

Record cephError := { errorType : errType; errorText : string }.

(** The Go [error] values the controller returns: a helper's error passed on
    unchanged, or a gRPC status error built with [status.Error] /
    [status.Errorf]. The message of a status error is kept symbolically:
    [Error e] is the text [e.Error()], [Errorf fmt a] the formatted text,
    [Text s] a literal. *)
Inductive error :=
| ceph (e : cephError)
| status (c : codes) (m : message)
with message :=
| Error (e : error)
| Errorf (fmt : string) (arg : string)
| Text (s : string).

Coercion ceph : cephError >-> error.

Definition errType_eqb (a b : errType) : bool :=
  match a, b with
  | ErrPoolNotFound, ErrPoolNotFound | ErrKeyNotFound, ErrKeyNotFound
  | ErrVolumeNotFound, ErrVolumeNotFound | ErrSnapNotFound, ErrSnapNotFound
  | ErrInvalidVolID, ErrInvalidVolID | ErrCloneInProgress, ErrCloneInProgress
  | InvalidCommand, InvalidCommand | CacheEntryNotFound, CacheEntryNotFound
  | errorString, errorString => true
  | _, _ => false
  end.

(** [errors.As(err, &target)] for a target of dynamic type [t]: a status
    error is none of the typed errors. *)
Definition errors_As (err : error) (t : errType) : bool :=
  match err with
  | ceph e => errType_eqb (errorType e) t
  | status _ _ => false
  end.

Definition status_Error (c : codes) (m : message) : error := status c m.
Definition status_Errorf (c : codes) (fmt arg : string) : error :=
  status c (Errorf fmt arg).

Definition VolumeOperationAlreadyExistsFmt : string :=
  "an operation with the given Volume ID %s already exists".
Definition SnapshotOperationAlreadyExistsFmt : string :=
  "an operation with the given Snapshot ID %s already exists".

(** Result of a controller operation: Go's [(response, error)] pair, of which
    exactly one is non-nil. *)
Inductive Result (A : Type) :=
| Ok (resp : A)
| Err (err : error).
Arguments Ok {A} resp.
Arguments Err {A} err.

(** ** Data model *)

Definition volumeID := string.

Record volumeOptions := {
  RequestName : string;
  Size : Z;
  Topology : option (gmap string string);
  SubvolumeGroup : string;
  Pool : string;
  Monitors : string;
  ProvisionVolume : bool
}.

Definition with_Size (sz : Z) (o : volumeOptions) : volumeOptions :=
  {| RequestName := RequestName o; Size := sz; Topology := Topology o;
     SubvolumeGroup := SubvolumeGroup o; Pool := Pool o;
     Monitors := Monitors o; ProvisionVolume := ProvisionVolume o |}.

Definition with_RequestName (n : string) (o : volumeOptions) : volumeOptions :=
  {| RequestName := n; Size := Size o; Topology := Topology o;
     SubvolumeGroup := SubvolumeGroup o; Pool := Pool o;
     Monitors := Monitors o; ProvisionVolume := ProvisionVolume o |}.

Definition with_Monitors (m : string) (o : volumeOptions) : volumeOptions :=
  {| RequestName := RequestName o; Size := Size o; Topology := Topology o;
     SubvolumeGroup := SubvolumeGroup o; Pool := Pool o;
     Monitors := m; ProvisionVolume := ProvisionVolume o |}.

(** [&volumeOptions{}] with the two fields clone.go copies. *)
Definition cloneVolOptions (group pool : string) : volumeOptions :=
  {| RequestName := ""; Size := 0; Topology := None;
     SubvolumeGroup := group; Pool := pool;
     Monitors := ""; ProvisionVolume := false |}.

Record volumeIdentifier := { FsSubvolName : string; VolumeID : string }.

Record snapshotIdentifier := {
  FsSnapshotName : string;
  FsSubVolumeName : string;
  SnapshotID : string
}.

Record Timestamp := { Seconds : Z; Nanos : Z }.

Record snapshotInfo := {
  snapID : string;              (* snapInfo.SnapshotID *)
  CreatedAt : string;
  CreationTime : option Timestamp
}.

Definition with_CreationTime (t : option Timestamp) (s : snapshotInfo) :=
  {| snapID := snapID s; CreatedAt := CreatedAt s; CreationTime := t |}.

(** [snapshotInfo{}] *)
Definition snapshotInfo_zero : snapshotInfo :=
  {| snapID := ""; CreatedAt := ""; CreationTime := None |}.

Record CloneState := { State : string }.
Record CloneStatus := { Status : CloneState }.

(** Result of [getSubVolumeInfo]; [BytesQuota] is a Go [int], 64 bits wide on
    every platform the driver is built for, so [int64(info.BytesQuota)]
    keeps the value. *)
Record Subvolume := { BytesQuota : Z }.
Definition int64 (x : Z) : Z := x.

Record Credentials := { ID : string; KeyFile : string }.

Record controllerCacheEntry := { VolOptions : volumeOptions; cacheVolumeID : volumeID }.

(** *** CSI messages *)

Record CapacityRange := { RequiredBytes : Z; LimitBytes : Z }.

(** [cap.GetBlock() != nil] holds for [BlockAccess]. *)
Inductive AccessType := BlockAccess | MountAccess | NoAccessType.
Record VolumeCapability := { access_type : AccessType; access_mode : nat }.

Inductive VolumeContentSource_Type :=
| VolumeContentSource_Snapshot (SnapshotId : string)
| VolumeContentSource_Volume (VolumeId : string)
| VolumeContentSource_unset.
Record VolumeContentSource := { Type_ : VolumeContentSource_Type }.

Record CreateVolumeRequest := {
  Name : string;
  capacity_range : option CapacityRange;
  volume_capabilities : list VolumeCapability;
  Parameters : gmap string string;
  Secrets : gmap string string;
  volume_content_source : option VolumeContentSource
}.

(** Nil-safe getter chain [req.GetCapacityRange().GetRequiredBytes()]. *)
Definition GetRequiredBytes (c : option CapacityRange) : Z :=
  match c with Some r => RequiredBytes r | None => 0 end.

Record Topology_ := { Segments : gmap string string }.

Record Volume := {
  VolumeId : string;
  CapacityBytes : Z;
  ContentSource : option VolumeContentSource;
  VolumeContext : gmap string string;
  AccessibleTopology : list Topology_
}.
Record CreateVolumeResponse := { Volume_ : Volume }.

Record DeleteVolumeRequest := { dv_VolumeId : string; dv_Secrets : gmap string string }.
Record DeleteVolumeResponse := { }.

Record ValidateVolumeCapabilitiesRequest := {
  vc_VolumeId : string;
  VolumeCapabilities : list VolumeCapability
}.
Record ValidateVolumeCapabilitiesResponse := {
  Confirmed : option (list VolumeCapability);
  Message : string
}.

Record ControllerExpandVolumeRequest := {
  ev_VolumeId : string;
  ev_CapacityRange : option CapacityRange;
  ev_Secrets : gmap string string
}.
Record ControllerExpandVolumeResponse := {
  ev_CapacityBytes : Z;
  NodeExpansionRequired : bool
}.

Record CreateSnapshotRequest := {
  SourceVolumeId : string;
  cs_Name : string;
  cs_Secrets : gmap string string
}.
Record Snapshot := {
  SizeBytes : Z;
  SnapshotId : string;
  snap_SourceVolumeId : string;
  snap_CreationTime : option Timestamp;
  ReadyToUse : bool
}.
Record CreateSnapshotResponse := { Snapshot_ : Snapshot }.

Record DeleteSnapshotRequest := { ds_SnapshotId : string; ds_Secrets : gmap string string }.
Record DeleteSnapshotResponse := { }.

Inductive RPC_Type := RPC_CREATE_DELETE_VOLUME | RPC_CREATE_DELETE_SNAPSHOT | RPC_EXPAND_VOLUME.

(** ** Calls that leave the embedded sources *)

(** One constructor per Go function that the controller calls and whose body
    is not part of the embedded sources. The [context.Context] argument is
    dropped everywhere, and so is the [volOpt] argument of
    [newVolumeOptionsFromVolID], which is [nil] at every call site. *)
Inductive Call :=
(* request validation (csi-common driver) *)
| validateCreateVolumeRequest (req : CreateVolumeRequest)
| validateDeleteVolumeRequest
| validateExpandVolumeRequest (req : ControllerExpandVolumeRequest)
| ValidateControllerServiceRequest (c : RPC_Type)
(* credentials *)
| NewAdminCredentials (secrets : gmap string string)
| DeleteCredentials (cr : Credentials)
(* reservation journal *)
| newVolumeOptions (requestName : string) (req : CreateVolumeRequest) (secret : gmap string string)
| newVolumeOptionsFromVolID (volID : string) (secrets : gmap string string)
| newSnapshotOptionsFromID (snapshotID : string) (cr : Credentials)
| checkVolExists (volOptions : volumeOptions) (req : CreateVolumeRequest) (secret : gmap string string)
| checkSnapExists (volOptions : volumeOptions) (subvolName : string) (secret : gmap string string)
| reserveVol (volOptions : volumeOptions) (secret : gmap string string)
| undoVolReservation (volOptions : volumeOptions) (vID : volumeIdentifier) (secret : gmap string string)
| reserveSnap (volOptions : volumeOptions) (subvolName : string) (secret : gmap string string)
| undoSnapReservation (volOptions : volumeOptions) (sID : snapshotIdentifier) (secret : gmap string string)
(* backing objects *)
| createVolume (volOptions : volumeOptions) (cr : Credentials) (volID : volumeID) (bytesQuota : Z)
| purgeVolume (volID : volumeID) (cr : Credentials) (volOptions : volumeOptions)
| resizeVolume (volOptions : volumeOptions) (cr : Credentials) (volID : volumeID) (bytesQuota : Z)
| getSubVolumeInfo (volOptions : volumeOptions) (cr : Credentials) (volID : volumeID)
| cloneSnapshot (parentVolOptions : volumeOptions) (cr : Credentials)
    (volID snapID cloneID : volumeID) (cloneVolOptions : volumeOptions)
| getcloneInfo (volOptions : volumeOptions) (cr : Credentials) (volID : volumeID)
| createSnapshot (volOptions : volumeOptions) (cr : Credentials) (snapID volID : volumeID)
| deleteSnapshot (volOptions : volumeOptions) (cr : Credentials) (snapID volID : volumeID)
| protectSnapshot (volOptions : volumeOptions) (cr : Credentials) (snapID volID : volumeID)
| unprotectSnapshot (volOptions : volumeOptions) (cr : Credentials) (snapID volID : volumeID)
| getSnapshotInfo (volOptions : volumeOptions) (cr : Credentials) (snapID volID : volumeID)
(* volumes of plugin version 1.0.0 *)
| MetadataStore_Get (identifier : string)
| MetadataStore_Delete (identifier : string)
| GetMonValFromSecret (secrets : gmap string string)
| purgeVolumeDeprecated (volID : volumeID) (cr : Credentials) (volOptions : volumeOptions)
| deleteCephUserDeprecated (volOptions : volumeOptions) (cr : Credentials) (volID : volumeID)
(* library *)
| time_Parse (layout value : string)
| ptypes_TimestampProto (tm : Z).

(** What each call returns. A Go pair [(value, err)] is a pair whose second
    component is [None] for [err == nil]; a returned pointer is an [option]
    only where the caller tests it against [nil]. Helpers return their own
    error values ([cephError]); the validation functions return the gRPC
    status error that the operation passes on as it is. *)
Definition Ret (c : Call) : Type :=
  match c with
  | validateCreateVolumeRequest _ | validateDeleteVolumeRequest
  | validateExpandVolumeRequest _ | ValidateControllerServiceRequest _ =>
      option error
  | NewAdminCredentials _ => Credentials * option cephError
  | DeleteCredentials _ => unit
  | newVolumeOptions _ _ _ => volumeOptions * option cephError
  | newVolumeOptionsFromVolID _ _ =>
      volumeOptions * volumeIdentifier * option cephError
  | newSnapshotOptionsFromID _ _ =>
      volumeOptions * snapshotIdentifier * option cephError
  | checkVolExists _ _ _ => option volumeIdentifier * option cephError
  | checkSnapExists _ _ _ => option snapshotInfo * option cephError
  | reserveVol _ _ => volumeIdentifier * option cephError
  | reserveSnap _ _ _ => snapshotIdentifier * option cephError
  | getSubVolumeInfo _ _ _ => Subvolume * option cephError
  | getcloneInfo _ _ _ => CloneStatus * option cephError
  | getSnapshotInfo _ _ _ _ => snapshotInfo * option cephError
  | MetadataStore_Get _ => controllerCacheEntry * option cephError
  | GetMonValFromSecret _ => string * option cephError
  | time_Parse _ _ => Z * option cephError
  | ptypes_TimestampProto _ => option Timestamp * option cephError
  | undoVolReservation _ _ _ | undoSnapReservation _ _ _
  | createVolume _ _ _ _ | purgeVolume _ _ _ | resizeVolume _ _ _ _
  | cloneSnapshot _ _ _ _ _ _
  | createSnapshot _ _ _ _ | deleteSnapshot _ _ _ _
  | protectSnapshot _ _ _ _ | unprotectSnapshot _ _ _ _
  | MetadataStore_Delete _
  | purgeVolumeDeprecated _ _ _ | deleteCephUserDeprecated _ _ _ =>
      option cephError
  end.

(** A recorded call together with its answer. *)
Definition Event : Type := { c : Call & Ret c }.
Definition Ev (c : Call) (r : Ret c) : Event := existT c r.

(** *** Observers on events *)

Definition is_call (p : Call -> bool) (ev : Event) : bool := p (projT1 ev).

(** Journal calls that write: taking or dropping a reservation. *)
Definition journal_write (c : Call) : bool :=
  match c with
  | reserveVol _ _ | undoVolReservation _ _ _
  | reserveSnap _ _ _ | undoSnapReservation _ _ _ => true
  | _ => false
  end.

Definition is_reserve (c : Call) : bool :=
  match c with reserveVol _ _ | reserveSnap _ _ _ => true | _ => false end.

Definition is_unreserve (c : Call) : bool :=
  match c with undoVolReservation _ _ _ | undoSnapReservation _ _ _ => true | _ => false end.

(** Calls on backing objects (subvolumes, clones and snapshots). *)
Definition backing_call (c : Call) : bool :=
  match c with
  | createVolume _ _ _ _ | purgeVolume _ _ _ | resizeVolume _ _ _ _
  | getSubVolumeInfo _ _ _ | cloneSnapshot _ _ _ _ _ _ | getcloneInfo _ _ _
  | createSnapshot _ _ _ _ | deleteSnapshot _ _ _ _
  | protectSnapshot _ _ _ _ | unprotectSnapshot _ _ _ _
  | getSnapshotInfo _ _ _ _
  | purgeVolumeDeprecated _ _ _ | deleteCephUserDeprecated _ _ _ => true
  | _ => false
  end.

(** Journal lookups by identifier. *)
Definition is_identifier_lookup (c : Call) : bool :=
  match c with
  | newVolumeOptionsFromVolID _ _ | newSnapshotOptionsFromID _ _ => true
  | _ => false
  end.


(** The identifier lookup of a volume and its answer, if [ev] is one. *)
Definition volume_lookup_of (ev : Event)
  : option (string * (volumeOptions * volumeIdentifier * option cephError)) :=
  match ev with
  | existT c r =>
      match c return Ret c -> option (string * (volumeOptions * volumeIdentifier * option cephError)) with
      | newVolumeOptionsFromVolID volID _ => fun r => Some (volID, r)
      | _ => fun _ => None
      end r
  end.

(** The identifier lookup of a snapshot and its answer, if [ev] is one. *)
Definition snapshot_lookup_of (ev : Event)
  : option (string * (volumeOptions * snapshotIdentifier * option cephError)) :=
  match ev with
  | existT c r =>
      match c return Ret c -> option (string * (volumeOptions * snapshotIdentifier * option cephError)) with
      | newSnapshotOptionsFromID snapshotID _ => fun r => Some (snapshotID, r)
      | _ => fun _ => None
      end r
  end.

(** A resize of a backing object: which one, to what size, and the answer. *)
Definition resizeVolume_of (ev : Event) : option (volumeID * Z * option cephError) :=
  match ev with
  | existT c r =>
      match c return Ret c -> option (volumeID * Z * option cephError) with
      | resizeVolume _ _ volID bytesQuota => fun r => Some (volID, bytesQuota, r)
      | _ => fun _ => None
      end r
  end.

(** The answer of the journal lookup by request name ([checkVolExists]). *)
Definition checkVolExists_of (ev : Event)
  : option (option volumeIdentifier * option cephError) :=
  match ev with
  | existT c r =>
      match c return Ret c -> option (option volumeIdentifier * option cephError) with
      | checkVolExists _ _ _ => fun r => Some r
      | _ => fun _ => None
      end r
  end.

Definition checkSnapExists_of (ev : Event)
  : option (option snapshotInfo * option cephError) :=
  match ev with
  | existT c r =>
      match c return Ret c -> option (option snapshotInfo * option cephError) with
      | checkSnapExists _ _ _ => fun r => Some r
      | _ => fun _ => None
      end r
  end.

Definition reserveVol_of (ev : Event) : option (volumeOptions * (volumeIdentifier * option cephError)) :=
  match ev with
  | existT c r =>
      match c return Ret c -> option (volumeOptions * (volumeIdentifier * option cephError)) with
      | reserveVol vo _ => fun r => Some (vo, r)
      | _ => fun _ => None
      end r
  end.


(** The answer of [cloneSnapshot], if [ev] is such a call. *)
Definition cloneSnapshot_of (ev : Event) : option (option cephError) :=
  match ev with
  | existT c r =>
      match c return Ret c -> option (option cephError) with
      | cloneSnapshot _ _ _ _ _ _ => fun r => Some r
      | _ => fun _ => None
      end r
  end.

(** The calls that undo a protected snapshot and a clone. *)
Definition unprotect_or_purge (c : Call) : bool :=
  match c with
  | unprotectSnapshot _ _ _ _ | purgeVolume _ _ _ => true
  | _ => false
  end.

(** The answer of an [Unreserve] call on the journal, if [ev] is one. *)
Definition unreserve_of (ev : Event) : option (option cephError) :=
  match ev with
  | existT c r =>
      match c return Ret c -> option (option cephError) with
      | undoVolReservation _ _ _ => fun r => Some r
      | undoSnapReservation _ _ _ => fun r => Some r
      | _ => fun _ => None
      end r
  end.

(** What an operation returns after its [Unreserve] call answered [r]. *)
Definition after_unreserve {A} (ok : A) (r : option cephError) : Result A :=
  match r with
  | None => Ok ok
  | Some e => Err (status Internal (Error (ceph e)))
  end.

(** The calls of a trace, answers dropped. *)
Definition calls_of (tr : list Event) : list Call := map (@projT1 Call Ret) tr.

(** No call of the trace satisfies [p]. *)
Definition no_call (p : Call -> bool) (tr : list Event) : Prop :=
  Forall (fun ev => is_call p ev = false) tr.

(** An event of the trace is observed by [obs] as [v]. *)
Definition observed {A} (obs : Event -> option A) (tr : list Event) (v : A) : Prop :=
  exists ev, In ev tr /\ obs ev = Some v.

(** Calls that [CreateVolume] makes itself, and journal writes: the helpers
    that create the backing volume make none of them. *)
Definition not_by_createBackingVolume (c : Call) : bool :=
  match c with
  | validateCreateVolumeRequest _ | newVolumeOptions _ _ _
  | checkVolExists _ _ _ => true
  | _ => journal_write c
  end.

(** ** Lock registry *)

(** Modelled from the spec: the lock registry ([util.VolumeLocks]) is used by
    the controller but its body is not part of the embedded sources. Spec
    4.2: [TryAcquire(key) -> bool] is non-blocking and answers [false] if the
    key is already held; [Release(key)] is an idempotent no-op if the key is
    not held. The registry is the set of held keys. *)
Definition TryAcquire (locks : gset string) (key : string) : bool * gset string :=
  if decide (key ∈ locks) then (false, locks) else (true, {[key]} ∪ locks).

Definition Release (locks : gset string) (key : string) : gset string :=
  locks ∖ {[key]}.

(** ** The controller server and the monad of its operations *)

Inductive CachePersister := cachePersister.

(** [p != nil] *)
Definition not_nil {A} (p : option A) : bool :=
  match p with Some _ => true | None => false end.

Record ControllerServer := {
  MetadataStore : option CachePersister;
  VolumeLocks : gset string;
  SnapshotLocks : gset string
}.

Definition with_VolumeLocks (l : gset string) (cs : ControllerServer) :=
  {| MetadataStore := MetadataStore cs; VolumeLocks := l;
     SnapshotLocks := SnapshotLocks cs |}.

Definition with_SnapshotLocks (l : gset string) (cs : ControllerServer) :=
  {| MetadataStore := MetadataStore cs; VolumeLocks := VolumeLocks cs;
     SnapshotLocks := l |}.

(** Both lock registries of [cs'] hold what they hold in [cs]. *)
Definition locks_restored (cs cs' : ControllerServer) : Prop :=
  VolumeLocks cs' = VolumeLocks cs /\ SnapshotLocks cs' = SnapshotLocks cs.

(** A run starts from the server (its lock registries) and the state [B] of
    everything outside the controller; it yields a value, the new server and
    outside state, and the calls made, oldest first. *)
Definition M (B A : Type) : Type :=
  ControllerServer -> B -> A * ControllerServer * B * list Event.

Definition ret {B A} (a : A) : M B A := fun cs b => (a, cs, b, []).

Definition bind {B A A'} (m : M B A) (k : A -> M B A') : M B A' :=
  fun cs b =>
    let '(a, cs1, b1, t1) := m cs b in
    let '(a', cs2, b2, t2) := k a cs1 b1 in
    (a', cs2, b2, t1 ++ t2).

Declare Scope go_scope.
Delimit Scope go_scope with go.
Notation "x <- m ;; k" := (bind m (fun x => k))
  (at level 100, m at next level, right associativity) : go_scope.
Notation "m ;;; k" := (bind m (fun _ => k))
  (at level 100, right associativity) : go_scope.

Definition the_server {B} : M B ControllerServer := fun cs b => (cs, cs, b, []).

Definition VolumeLocks_TryAcquire {B} (key : string) : M B bool :=
  fun cs b =>
    let '(acquired, l) := TryAcquire (VolumeLocks cs) key in
    (acquired, with_VolumeLocks l cs, b, []).

Definition VolumeLocks_Release {B} (key : string) : M B unit :=
  fun cs b => (tt, with_VolumeLocks (Release (VolumeLocks cs) key) cs, b, []).

Definition SnapshotLocks_TryAcquire {B} (key : string) : M B bool :=
  fun cs b =>
    let '(acquired, l) := TryAcquire (SnapshotLocks cs) key in
    (acquired, with_SnapshotLocks l cs, b, []).

Definition SnapshotLocks_Release {B} (key : string) : M B unit :=
  fun cs b => (tt, with_SnapshotLocks (Release (SnapshotLocks cs) key) cs, b, []).

(** [defer cleanup] registered at this point of a function: [cleanup] runs
    when the rest of the function, [body], has produced its return value. *)
Definition defer {B A} (cleanup : M B unit) (body : M B A) : M B A :=
  (r <- body ;; cleanup ;;; ret r)%go.

(** Projections of a finished run. *)
Definition result_of {A B} (r : A * ControllerServer * B * list Event) : A :=
  fst (fst (fst r)).
Definition server_of {A B} (r : A * ControllerServer * B * list Event) : ControllerServer :=
  snd (fst (fst r)).
Definition trace_of {A B} (r : A * ControllerServer * B * list Event) : list Event :=
  snd r.

(** ** ValidateVolumeCapabilities (pure) *)

Definition GetBlock_not_nil (cap : VolumeCapability) : bool :=
  match access_type cap with BlockAccess => true | _ => false end.

(** The [for ... range] loop returns at the first block capability. *)
Fixpoint has_block (caps : list VolumeCapability) : bool :=
  match caps with
  | [] => false
  | cap :: rest => if GetBlock_not_nil cap then true else has_block rest
  end.

Definition ValidateVolumeCapabilities (req : ValidateVolumeCapabilitiesRequest)
  : Result ValidateVolumeCapabilitiesResponse :=
  if has_block (VolumeCapabilities req)
  then Ok {| Confirmed := None; Message := "" |}
  else Ok {| Confirmed := Some (VolumeCapabilities req); Message := "" |}.

(** ** The embedded operations *)

Section Controller.

Context {B : Type}.

(** The environment: how everything outside the controller answers a call,
    as a function of its own state. *)
Variable handle : forall c : Call, B -> Ret c * B.

(** [util.RoundOffBytes], an arithmetic helper defined outside the embedded
    sources. *)
Variable RoundOffBytes : Z -> Z.

Definition call (c : Call) : M B (Ret c) :=
  fun cs b => let (r, b') := handle c b in (r, cs, b', [Ev c r]).

Local Open Scope go_scope.

(** *** clone.go *)

Definition ErrCloneInProgress_for (id : volumeID) : cephError :=
  {| errorType := ErrCloneInProgress;
     errorText := "clone is in progress for " ++ id |}.

(** The body below the [defer] yields the returned error together with the
    final values of [protectErr] and [cloneErr], which the deferred closure
    reads. [err] keeps the value [createSnapshot] gave it. *)
Definition createCloneFromSubvolume (volID cloneID : volumeID)
    (volOpt : volumeOptions) (cr : Credentials) : M B (option cephError) :=
  let snapshotID := cloneID in
  err <- call (createSnapshot volOpt cr snapshotID volID) ;;
  match err with
  | Some _ => ret err
  | None =>
    out <- (
      protectErr <- call (protectSnapshot volOpt cr snapshotID volID) ;;
      match protectErr with
      | Some _ => ret (protectErr, protectErr, None)
      | None =>
        let cloneVolOpt := cloneVolOptions (SubvolumeGroup volOpt) (Pool volOpt) in
        protectErr <- call (cloneSnapshot volOpt cr volID snapshotID cloneID cloneVolOpt) ;;
        match protectErr with
        | Some _ => ret (protectErr, protectErr, None)
        | None =>
          r <- call (getcloneInfo volOpt cr cloneID) ;;
          let '(clone, cloneErr) := r in
          match err with
          | Some _ => ret (err, protectErr, cloneErr)
          | None =>
            if negb (String.eqb (State (Status clone)) "complete")
            then ret (Some (ErrCloneInProgress_for cloneID), protectErr, cloneErr)
            else
              cloneErr <- call (resizeVolume volOpt cr cloneID (Size volOpt)) ;;
              match cloneErr with
              | Some _ => ret (cloneErr, protectErr, cloneErr)
              | None =>
                cloneErr <- call (unprotectSnapshot volOpt cr snapshotID volID) ;;
                match cloneErr with
                | Some _ => ret (cloneErr, protectErr, cloneErr)
                | None =>
                  cloneErr <- call (deleteSnapshot volOpt cr snapshotID volID) ;;
                  match cloneErr with
                  | Some _ => ret (cloneErr, protectErr, cloneErr)
                  | None => ret (None, protectErr, cloneErr)
                  end
                end
              end
          end
        end
      end) ;;
    let '(returned, protectErr, cloneErr) := out in
    (* the deferred closure *)
    (match protectErr with
     | Some _ => call (deleteSnapshot volOpt cr snapshotID volID) ;;; ret tt
     | None => ret tt
     end) ;;;
    (match cloneErr with
     | Some _ =>
         call (unprotectSnapshot volOpt cr snapshotID volID) ;;;
         call (deleteSnapshot volOpt cr snapshotID volID) ;;;
         call (purgeVolume cloneID cr volOpt) ;;;
         ret tt
     | None => ret tt
     end) ;;;
    ret returned
  end.

(** *** createBackingVolume *)

Definition createBackingVolume (req : CreateVolumeRequest)
    (volOptions : volumeOptions) (vID : volumeIdentifier)
    (secret : gmap string string) : M B (option error) :=
  r <- call (NewAdminCredentials secret) ;;
  let '(cr, err) := r in
  match err with
  | Some e => ret (Some (status_Error InvalidArgument (Error e)))
  | None =>
    defer (call (DeleteCredentials cr)) (
      match volume_content_source req with
      | Some volumeSource =>
        match Type_ volumeSource with
        | VolumeContentSource_Snapshot snapshotID =>
          r <- call (newSnapshotOptionsFromID snapshotID cr) ;;
          let '(snapOpt, sid, err) := r in
          match err with
          | Some e =>
            if errors_As e ErrSnapNotFound
            then ret (Some (status_Error NotFound (Error e)))
            else ret (Some (status_Error Internal (Error e)))
          | None =>
            r <- call (checkSnapExists snapOpt (FsSubVolumeName sid) (Secrets req)) ;;
            let '(_, err) := r in
            match err with
            | Some e =>
              if errors_As e ErrSnapNotFound
              then ret (Some (status_Error NotFound (Error e)))
              else ret (Some (status_Error Internal (Error e)))
            | None =>
              let snapID := FsSnapshotName sid in
              err <- call (cloneSnapshot volOptions cr (FsSubVolumeName sid) snapID
                             (FsSubvolName vID) volOptions) ;;
              match err with
              | Some e => ret (Some (ceph e))
              | None =>
                (* body below the inner defer: returned error and final [err] *)
                out <- (
                  err <- call (resizeVolume volOptions cr (FsSubvolName vID) (Size volOptions)) ;;
                  match err with
                  | Some e => ret (Some (status_Error Internal (Error e)), err)
                  | None =>
                    r <- call (getcloneInfo volOptions cr (FsSubvolName vID)) ;;
                    let '(clone, err) := r in
                    match err with
                    | Some e => ret (Some (status_Error Internal (Error e)), err)
                    | None =>
                      if negb (String.eqb (State (Status clone)) "complete")
                      then ret (Some (ceph (ErrCloneInProgress_for (FsSubvolName vID))), err)
                      else ret (None, err)
                    end
                  end) ;;
                let '(returned, err) := out in
                (match err with
                 | Some _ => call (purgeVolume (FsSubvolName vID) cr volOptions) ;;; ret tt
                 | None => ret tt
                 end) ;;;
                ret returned
              end
            end
          end
        | VolumeContentSource_Volume volID =>
          r <- call (newVolumeOptionsFromVolID volID (Secrets req)) ;;
          let '(_, pvID, err) := r in
          match err with
          | Some e =>
            if negb (errors_As e ErrVolumeNotFound)
            then ret (Some (status_Error NotFound (Error e)))
            else ret (Some (status_Error Internal (Error e)))
          | None =>
            err <- createCloneFromSubvolume (FsSubvolName pvID) (FsSubvolName vID) volOptions cr ;;
            ret (option_map ceph err)
          end
        | VolumeContentSource_unset =>
          ret (Some (status_Error InvalidArgument (Text "not a proper volume source")))
        end
      | None =>
        err <- call (createVolume volOptions cr (FsSubvolName vID) (Size volOptions)) ;;
        match err with
        | Some e => ret (Some (status_Error Internal (Error e)))
        | None => ret None
        end
      end)
  end.

(** *** CreateVolume *)

(** The response both successful paths of [CreateVolume] build (the two
    blocks are the same text in the source). [volumeContext] is the
    request's own parameter map with one key added; Go would panic on a nil
    map here, and a request gets here only after [newVolumeOptions] has
    accepted its parameters. *)
Definition createVolumeResponse (req : CreateVolumeRequest)
    (volOptions : volumeOptions) (vID : volumeIdentifier) : CreateVolumeResponse :=
  let volumeContext := <["subvolumeName" := FsSubvolName vID]> (Parameters req) in
  {| Volume_ :=
       {| VolumeId := VolumeID vID;
          CapacityBytes := Size volOptions;
          ContentSource := volume_content_source req;
          VolumeContext := volumeContext;
          AccessibleTopology :=
            match Topology volOptions with
            | Some t => [ {| Segments := t |} ]
            | None => []
            end |} |}.

Definition CreateVolume (req : CreateVolumeRequest) : M B (Result CreateVolumeResponse) :=
  verr <- call (validateCreateVolumeRequest req) ;;
  match verr with
  | Some err => ret (Err err)
  | None =>
    let secret := Secrets req in
    let requestName := Name req in
    acquired <- VolumeLocks_TryAcquire requestName ;;
    if negb acquired
    then ret (Err (status_Errorf Aborted VolumeOperationAlreadyExistsFmt requestName))
    else defer (VolumeLocks_Release requestName) (
      r <- call (newVolumeOptions requestName req secret) ;;
      let '(volOptions, err) := r in
      match err with
      | Some e => ret (Err (status_Error InvalidArgument (Error e)))
      | None =>
        let volOptions :=
          match capacity_range req with
          | Some cr => with_Size (RoundOffBytes (RequiredBytes cr)) volOptions
          | None => volOptions
          end in
        r <- call (checkVolExists volOptions req secret) ;;
        let '(vID, err) := r in
        match err with
        | Some e =>
          if errors_As e ErrCloneInProgress
          then ret (Err (status_Error Aborted (Error e)))
          else ret (Err (status_Error Internal (Error e)))
        | None =>
          match vID with
          | Some vID => ret (Ok (createVolumeResponse req volOptions vID))
          | None =>
            r <- call (reserveVol volOptions secret) ;;
            let '(vID, err) := r in
            match err with
            | Some e => ret (Err (status_Error Internal (Error e)))
            | None =>
              (* body below the deferred undo: the result and the final [err] *)
              out <- (
                err <- createBackingVolume req volOptions vID secret ;;
                match err with
                | Some e =>
                  if errors_As e ErrCloneInProgress
                  then ret (Err (status_Error Aborted (Error e)), err)
                  else ret (Err e, err)
                | None => ret (Ok (createVolumeResponse req volOptions vID), err)
                end) ;;
              let '(returned, err) := out in
              (match err with
               | Some e =>
                 if negb (errors_As e ErrCloneInProgress)
                 then call (undoVolReservation volOptions vID secret) ;;; ret tt
                 else ret tt
               | None => ret tt
               end) ;;;
              ret returned
            end
          end
        end
      end)
  end.

(** *** DeleteVolume *)

(** Volumes created by version 1.0.0 of the plugin. The type assertion
    of [err] to [util.CacheEntryNotFound] is the test on the error's type. *)
Definition deleteVolumeDeprecated (req : DeleteVolumeRequest)
  : M B (Result DeleteVolumeResponse) :=
  let volID : volumeID := dv_VolumeId req in
  let secrets := dv_Secrets req in
  r <- call (MetadataStore_Get volID) ;;
  let '(ce, err) := r in
  match err with
  | Some e =>
    if errType_eqb (errorType e) CacheEntryNotFound
    then ret (Ok Build_DeleteVolumeResponse)
    else ret (Err (status_Error Internal (Error e)))
  | None =>
    if negb (ProvisionVolume (VolOptions ce))
    then ret (Ok Build_DeleteVolumeResponse)
    else
      r <- call (GetMonValFromSecret secrets) ;;
      let '(mon, secretsErr) := r in
      let ceVolOptions :=
        match secretsErr with
        | None =>
          if Z.ltb 0 (Z.of_nat (String.length mon))
          then with_Monitors mon (VolOptions ce)
          else VolOptions ce
        | Some _ => VolOptions ce
        end in
      r <- call (NewAdminCredentials secrets) ;;
      let '(cr, err) := r in
      match err with
      | Some e => ret (Err (status_Error InvalidArgument (Error e)))
      | None =>
        defer (call (DeleteCredentials cr)) (
          acquired <- VolumeLocks_TryAcquire volID ;;
          if negb acquired
          then ret (Err (status_Errorf Aborted VolumeOperationAlreadyExistsFmt volID))
          else defer (VolumeLocks_Release volID) (
            err <- call (purgeVolumeDeprecated volID cr ceVolOptions) ;;
            match err with
            | Some e => ret (Err (status_Error Internal (Error e)))
            | None =>
              err <- call (deleteCephUserDeprecated ceVolOptions cr volID) ;;
              match err with
              | Some e => ret (Err (status_Error Internal (Error e)))
              | None =>
                err <- call (MetadataStore_Delete volID) ;;
                match err with
                | Some e => ret (Err (status_Error Internal (Error e)))
                | None => ret (Ok Build_DeleteVolumeResponse)
                end
              end
            end))
      end
  end.

Definition DeleteVolume (req : DeleteVolumeRequest) : M B (Result DeleteVolumeResponse) :=
  verr <- call validateDeleteVolumeRequest ;;
  match verr with
  | Some err => ret (Err err)
  | None =>
    let volID : volumeID := dv_VolumeId req in
    let secrets := dv_Secrets req in
    (* lock out parallel delete operations *)
    acquired <- VolumeLocks_TryAcquire volID ;;
    if negb acquired
    then ret (Err (status_Errorf Aborted VolumeOperationAlreadyExistsFmt volID))
    else defer (VolumeLocks_Release volID) (
      r <- call (newVolumeOptionsFromVolID volID secrets) ;;
      let '(volOptions, vID, err) := r in
      match err with
      | Some e =>
        if errors_As e ErrPoolNotFound then ret (Ok Build_DeleteVolumeResponse)
        else if errors_As e ErrKeyNotFound then ret (Ok Build_DeleteVolumeResponse)
        else
          cs <- the_server ;;
          if errors_As e ErrInvalidVolID && not_nil (MetadataStore cs)
          then deleteVolumeDeprecated req
          else if negb (errors_As e ErrVolumeNotFound)
          then ret (Err (status_Error Internal (Error e)))
          else
            acquired <- VolumeLocks_TryAcquire (RequestName volOptions) ;;
            if negb acquired
            then ret (Err (status_Errorf Aborted VolumeOperationAlreadyExistsFmt
                             (RequestName volOptions)))
            else defer (VolumeLocks_Release (RequestName volOptions)) (
              err <- call (undoVolReservation volOptions vID secrets) ;;
              match err with
              | Some e => ret (Err (status_Error Internal (Error e)))
              | None => ret (Ok Build_DeleteVolumeResponse)
              end)
      | None =>
        (* lock out parallel delete and create requests against the same
           volume name *)
        acquired <- VolumeLocks_TryAcquire (RequestName volOptions) ;;
        if negb acquired
        then ret (Err (status_Errorf Aborted VolumeOperationAlreadyExistsFmt
                         (RequestName volOptions)))
        else defer (VolumeLocks_Release volID) (
          r <- call (NewAdminCredentials secrets) ;;
          let '(cr, err) := r in
          match err with
          | Some e => ret (Err (status_Error InvalidArgument (Error e)))
          | None =>
            defer (call (DeleteCredentials cr)) (
              err <- call (purgeVolume (FsSubvolName vID) cr volOptions) ;;
              (* the statements below the [if err = purgeVolume(...)] block *)
              let below :=
                err <- call (undoVolReservation volOptions vID secrets) ;;
                match err with
                | Some e => ret (Err (status_Error Internal (Error e)))
                | None => ret (Ok Build_DeleteVolumeResponse)
                end in
              match err with
              | Some e =>
                if negb (errors_As e ErrVolumeNotFound)
                then ret (Err (status_Error Internal (Error e)))
                else below
              | None => below
              end)
          end)
      end)
  end.

(** *** ControllerExpandVolume *)

Definition ControllerExpandVolume (req : ControllerExpandVolumeRequest)
  : M B (Result ControllerExpandVolumeResponse) :=
  verr <- call (validateExpandVolumeRequest req) ;;
  match verr with
  | Some err => ret (Err err)
  | None =>
    let volID := ev_VolumeId req in
    let secret := ev_Secrets req in
    acquired <- VolumeLocks_TryAcquire volID ;;
    if negb acquired
    then ret (Err (status_Errorf Aborted VolumeOperationAlreadyExistsFmt volID))
    else defer (VolumeLocks_Release volID) (
      r <- call (NewAdminCredentials secret) ;;
      let '(cr, err) := r in
      match err with
      | Some e => ret (Err (status_Error InvalidArgument (Error e)))
      | None =>
        defer (call (DeleteCredentials cr)) (
          r <- call (newVolumeOptionsFromVolID volID secret) ;;
          let '(volOptions, volIdentifier, err) := r in
          match err with
          | Some e => ret (Err (status_Error InvalidArgument (Error e)))
          | None =>
            let RoundOffSize := RoundOffBytes (GetRequiredBytes (ev_CapacityRange req)) in
            err <- call (resizeVolume volOptions cr (FsSubvolName volIdentifier) RoundOffSize) ;;
            match err with
            | Some e => ret (Err (status_Error Internal (Error e)))
            | None =>
              ret (Ok {| ev_CapacityBytes := RoundOffSize;
                         NodeExpansionRequired := false |})
            end
          end)
      end)
  end.

(** *** CreateSnapshot *)

Definition validateSnapshotReq (req : CreateSnapshotRequest) : M B (option error) :=
  verr <- call (ValidateControllerServiceRequest RPC_CREATE_DELETE_SNAPSHOT) ;;
  match verr with
  | Some err => ret (Some err)
  | None =>
    if String.eqb (cs_Name req) ""
    then ret (Some (status_Error InvalidArgument (Text "snapshot Name cannot be empty")))
    else if String.eqb (SourceVolumeId req) ""
    then ret (Some (status_Error InvalidArgument (Text "source Volume ID cannot be empty")))
    else ret None
  end.

Definition doSnapshot (volOpt : volumeOptions) (subvolumeName snapshotName : string)
    (secret : gmap string string) : M B (snapshotInfo * option cephError) :=
  let volID : volumeID := subvolumeName in
  let snapID : volumeID := snapshotName in
  let snap := snapshotInfo_zero in
  r <- call (NewAdminCredentials secret) ;;
  let '(cr, err) := r in
  match err with
  | Some _ => ret (snap, err)
  | None =>
    defer (call (DeleteCredentials cr)) (
      err <- call (createSnapshot volOpt cr snapID volID) ;;
      match err with
      | Some _ => ret (snap, err)
      | None =>
        out <- (
          r <- call (getSnapshotInfo volOpt cr snapID volID) ;;
          let '(snap, err) := r in
          match err with
          | Some _ => ret (snap, err)
          | None =>
            let layout := "2006-01-02 15:04:05.000000" in
            r <- call (time_Parse layout (CreatedAt snap)) ;;
            let '(tm, err) := r in
            match err with
            | Some _ => ret (snap, err)
            | None =>
              r <- call (ptypes_TimestampProto tm) ;;
              let '(creationTime, err) := r in
              let snap := with_CreationTime creationTime snap in
              match err with
              | Some _ => ret (snap, err)
              | None =>
                err <- call (protectSnapshot volOpt cr snapID volID) ;;
                ret (snap, err)
              end
            end
          end) ;;
        let '(snap, err) := out in
        (* the deferred closure *)
        (match err with
         | Some _ => call (deleteSnapshot volOpt cr snapID volID) ;;; ret tt
         | None => ret tt
         end) ;;;
        ret (snap, err)
      end)
  end.

Definition CreateSnapshot (req : CreateSnapshotRequest) : M B (Result CreateSnapshotResponse) :=
  verr <- validateSnapshotReq req ;;
  match verr with
  | Some err => ret (Err err)
  | None =>
    let requestName := cs_Name req in
    acquired <- SnapshotLocks_TryAcquire requestName ;;
    if negb acquired
    then ret (Err (status_Errorf Aborted SnapshotOperationAlreadyExistsFmt requestName))
    else defer (SnapshotLocks_Release requestName) (
      let sourceVolID := SourceVolumeId req in
      r <- call (newVolumeOptionsFromVolID sourceVolID (cs_Secrets req)) ;;
      let '(parentVolOptions, vid, err) := r in
      match err with
      | Some e =>
        if errors_As e ErrPoolNotFound then ret (Err (status_Error NotFound (Error e)))
        else if errors_As e ErrVolumeNotFound then ret (Err (status_Error NotFound (Error e)))
        else ret (Err (status_Error Internal (Error e)))
      | None =>
        let parentVolOptions := with_RequestName (cs_Name req) parentVolOptions in
        r <- call (checkSnapExists parentVolOptions (FsSubvolName vid) (cs_Secrets req)) ;;
        let '(snapInfo, err) := r in
        match err with
        | Some e => ret (Err (status_Error Internal (Error e)))
        | None =>
          match snapInfo with
          | Some snapInfo =>
            ret (Ok {| Snapshot_ :=
                         {| SizeBytes := Size parentVolOptions;
                            SnapshotId := snapID snapInfo;
                            snap_SourceVolumeId := SourceVolumeId req;
                            snap_CreationTime := CreationTime snapInfo;
                            ReadyToUse := true |} |})
          | None =>
            r <- call (NewAdminCredentials (cs_Secrets req)) ;;
            let '(cr, err) := r in
            match err with
            | Some e => ret (Err (status_Error Internal (Error e)))
            | None =>
              defer (call (DeleteCredentials cr)) (
                r <- call (getSubVolumeInfo parentVolOptions cr (FsSubvolName vid)) ;;
                let '(info, err) := r in
                match err with
                | Some e =>
                  if errors_As e InvalidCommand
                  then ret (Err (status_Error FailedPrecondition (Error e)))
                  else ret (Err (status_Error Internal (Error e)))
                | None =>
                  r <- call (reserveSnap parentVolOptions (FsSubvolName vid) (cs_Secrets req)) ;;
                  let '(sID, err) := r in
                  match err with
                  | Some e => ret (Err (status_Error Internal (Error e)))
                  | None =>
                    r <- doSnapshot parentVolOptions (FsSubvolName vid)
                           (FsSnapshotName sID) (cs_Secrets req) ;;
                    let '(snap, err) := r in
                    (* the deferred undo reads the final [err] *)
                    (match err with
                     | Some _ =>
                       call (undoSnapReservation parentVolOptions sID (cs_Secrets req)) ;;; ret tt
                     | None => ret tt
                     end) ;;;
                    match err with
                    | Some e => ret (Err (status_Error Internal (Error e)))
                    | None =>
                      ret (Ok {| Snapshot_ :=
                                   {| SizeBytes := int64 (BytesQuota info);
                                      SnapshotId := SnapshotID sID;
                                      snap_SourceVolumeId := SourceVolumeId req;
                                      snap_CreationTime := CreationTime snap;
                                      ReadyToUse := true |} |})
                    end
                  end
                end)
            end
          end
        end
      end)
  end.

(** *** DeleteSnapshot *)

Definition DeleteSnapshot (req : DeleteSnapshotRequest) : M B (Result DeleteSnapshotResponse) :=
  verr <- call (ValidateControllerServiceRequest RPC_CREATE_DELETE_SNAPSHOT) ;;
  match verr with
  | Some err => ret (Err err)
  | None =>
    r <- call (NewAdminCredentials (ds_Secrets req)) ;;
    let '(cr, err) := r in
    match err with
    | Some e => ret (Err (status_Error InvalidArgument (Error e)))
    | None =>
      defer (call (DeleteCredentials cr)) (
        let snapshotID := ds_SnapshotId req in
        if String.eqb snapshotID ""
        then ret (Err (status_Error InvalidArgument (Text "snapshot ID cannot be empty")))
        else
          acquired <- SnapshotLocks_TryAcquire snapshotID ;;
          if negb acquired
          then ret (Err (status_Errorf Aborted SnapshotOperationAlreadyExistsFmt snapshotID))
          else defer (SnapshotLocks_Release snapshotID) (
            r <- call (newSnapshotOptionsFromID snapshotID cr) ;;
            let '(volOpt, sid, err) := r in
            match err with
            | Some e =>
              if errors_As e ErrPoolNotFound then ret (Ok Build_DeleteSnapshotResponse)
              else if errors_As e ErrKeyNotFound then ret (Ok Build_DeleteSnapshotResponse)
              else if errors_As e ErrSnapNotFound
              then
                err <- call (undoSnapReservation volOpt sid (ds_Secrets req)) ;;
                match err with
                | Some e => ret (Err (status_Error Internal (Error e)))
                | None => ret (Ok Build_DeleteSnapshotResponse)
                end
              else ret (Err (status_Error Internal (Error e)))
            | None =>
              (* safeguard against parallel create or delete requests against
                 the same name *)
              acquired <- SnapshotLocks_TryAcquire (RequestName volOpt) ;;
              if negb acquired
              then ret (Err (status_Errorf Aborted VolumeOperationAlreadyExistsFmt
                               (RequestName volOpt)))
              else defer (SnapshotLocks_Release (RequestName volOpt)) (
                err <- call (unprotectSnapshot volOpt cr (FsSnapshotName sid) (FsSubVolumeName sid)) ;;
                match err with
                | Some e => ret (Err (status_Error Internal (Error e)))
                | None =>
                  err <- call (deleteSnapshot volOpt cr (FsSnapshotName sid) (FsSubVolumeName sid)) ;;
                  match err with
                  | Some e => ret (Err (status_Error Internal (Error e)))
                  | None =>
                    err <- call (undoSnapReservation volOpt sid (ds_Secrets req)) ;;
                    match err with
                    | Some e => ret (Err (status_Error Internal (Error e)))
                    | None => ret (Ok Build_DeleteSnapshotResponse)
                    end
                  end
                end)
            end))
    end
  end.

End Controller.

(** ** Identifier codec *)

(** The handle layout is documented with the sources (the design note on
    cluster and pool identifiers):
<<
    0001 -->             [csi_id_version=1:4byte] + [-:1byte]
    0009 -->             [length of clusterID=1:4byte] + [-:1byte]
    rook-ceph -->        [clusterID:36bytes (MAX)] + [-:1byte]
    0000000000000002 --> [poolID:16bytes] + [-:1byte]
    b0285c97-...     --> [ObjectUUID:36bytes]
    4+1+4+1+1+16+1+36 = 64
>>
    The functions that compose and decompose a handle are not part of the
    embedded sources. Handles are byte strings ([list ascii]). *)

Record Identifier := {
  version : Z;                 (* uint16 *)
  clusterID : list ascii;      (* at most 36 bytes *)
  poolID : Z;                  (* int64 *)
  objectUUID : list ascii      (* 36 bytes *)
}.

Inductive DecodeError := InvalidVolumeID.

Definition sep : ascii := "-"%char.

Definition maxClusterIDLen : nat := 36.
Definition uuidSize : nat := 36.
(** 4+1+4+1+1+16+1+36 *)
Definition knownFieldSize : nat := 64.

Definition hex_digit (d : Z) : ascii :=
  ascii_of_nat (Z.to_nat (if d <? 10 then 48 + d else 87 + d)).

(** Value of a hexadecimal digit, either case. *)
Definition hex_value (c : ascii) : option Z :=
  let n := Z.of_nat (nat_of_ascii c) in
  if (48 <=? n) && (n <=? 57) then Some (n - 48)
  else if (97 <=? n) && (n <=? 102) then Some (n - 87)
  else if (65 <=? n) && (n <=? 70) then Some (n - 55)
  else None.

(** [w] hexadecimal digits of [n], most significant first (the value is
    taken modulo [16^w], as a fixed-width unsigned field holds it). *)
Fixpoint to_hex (w : nat) (n : Z) : list ascii :=
  match w with
  | O => []
  | S w' => to_hex w' (n / 16) ++ [hex_digit (n mod 16)]
  end.

Fixpoint from_hex_acc (acc : Z) (s : list ascii) : option Z :=
  match s with
  | [] => Some acc
  | c :: rest =>
      match hex_value c with
      | Some d => from_hex_acc (16 * acc + d) rest
      | None => None
      end
  end.

Definition from_hex (s : list ascii) : option Z := from_hex_acc 0 s.

(** A 64-bit field read back as an [int64]. *)
Definition to_int64 (u : Z) : Z := if u <? 2 ^ 63 then u else u - 2 ^ 64.

(** Is the byte at position [i] the field separator? *)
Definition sep_at (i : nat) (s : list ascii) : bool :=
  match s !! i with
  | Some c => Ascii.eqb c sep
  | None => false
  end.

(** Modelled from the spec: the encoder of the identifier codec, which is not
    part of the embedded sources. Spec 6:
    [<version:4 hex>-<len(clusterID):4 hex>-<clusterID>-<poolID:16 hex>-<objectUUID:36 bytes>]. *)
Definition encode (id : Identifier) : list ascii :=
  to_hex 4 (version id) ++ sep ::
  to_hex 4 (Z.of_nat (length (clusterID id))) ++ sep ::
  clusterID id ++ sep ::
  to_hex 16 (poolID id) ++ sep ::
  objectUUID id.

(** Modelled from the spec: the decoder of the identifier codec, which is not
    part of the embedded sources. Spec 4.1: [decode] fails with
    [InvalidVolumeID] when the separator count is wrong, any fixed-width field
    is not parseable in its expected base, [clusterID] exceeds the maximum
    length, or [version] is unsupported. The cluster identifier and the UUID
    may themselves contain the separator byte (the documented sample handle
    has cluster [rook-ceph]), so the four field separators are those at the
    positions the layout and the length field fix, and the handle must have
    exactly [64 + len(clusterID)] bytes. Which versions are supported is a
    parameter. *)
Definition decode (supported : Z -> bool) (s : list ascii)
  : Identifier + DecodeError :=
  match from_hex (take 4 s), from_hex (take 4 (drop 5 s)) with
  | Some ver, Some len =>
      let n := Z.to_nat len in
      match from_hex (take 16 (drop (11 + n) s)) with
      | Some pool =>
          if (n <=? maxClusterIDLen)%nat
             && (length s =? knownFieldSize + n)%nat
             && sep_at 4 s && sep_at 9 s && sep_at (10 + n) s && sep_at (27 + n) s
             && supported ver
          then inl {| version := ver;
                      clusterID := take n (drop 10 s);
                      poolID := to_int64 pool;
                      objectUUID := drop (28 + n) s |}
          else inr InvalidVolumeID
      | None => inr InvalidVolumeID
      end
  | _, _ => inr InvalidVolumeID
  end.

(** The identifiers of the data model (spec 3): [version] is a supported
    [uint16], [clusterID] has at most 36 bytes, [poolID] is an [int64],
    [objectUUID] a 36-byte UUID string. *)
Definition valid_identifier (supported : Z -> bool) (id : Identifier) : Prop :=
  0 <= version id < 2 ^ 16 /\ supported (version id) = true /\
  (length (clusterID id) <= maxClusterIDLen)%nat /\
  - 2 ^ 63 <= poolID id < 2 ^ 63 /\
  length (objectUUID id) = uuidSize.

(** [padded e s]: [s] is [e] with separator bytes inserted at any positions
    (none, one or several). *)
Inductive padded : list ascii -> list ascii -> Prop :=
| padded_nil : padded [] []
| padded_keep c e s : padded e s -> padded (c :: e) (c :: s)
| padded_sep e s : padded e s -> padded e (sep :: s).

(** A sample identifier: the handle of the design note. *)
Definition sample_identifier : Identifier :=
  {| version := 1;
     clusterID := list_ascii_of_string "rook-ceph";
     poolID := 2;
     objectUUID := list_ascii_of_string "b0285c97-a0ce-11eb-8c66-0242ac110002" |}.

Definition version_1_only (v : Z) : bool := v =? 1.

(** An identifier whose cluster identifier has 37 bytes. *)
Definition oversized_identifier : Identifier :=
  {| version := 1;
     clusterID := list_ascii_of_string "a-cluster-identifier-of-37-bytes-long";
     poolID := 2;
     objectUUID := list_ascii_of_string "b0285c97-a0ce-11eb-8c66-0242ac110002" |}.

(** ** Concrete environments *)

(** Sample data and a family of simple environments, used to run the
    operations on concrete requests. An environment of this family has no
    state of its own; how it answers is fixed by a [Scenario]. *)

Definition sample_volumeOptions : volumeOptions :=
  {| RequestName := "pvc-1"; Size := 1073741824; Topology := None;
     SubvolumeGroup := "csi"; Pool := "myfs-metadata";
     Monitors := "192.168.39.82:6789"; ProvisionVolume := true |}.

Definition sample_volumeIdentifier : volumeIdentifier :=
  {| FsSubvolName := "csi-vol-b0285c97-a0ce-11eb-8c66-0242ac110002";
     VolumeID := "0001-0009-rook-ceph-0000000000000002-b0285c97-a0ce-11eb-8c66-0242ac110002" |}.

Definition sample_snapshotIdentifier : snapshotIdentifier :=
  {| FsSnapshotName := "csi-snap-c1396d08-a0ce-11eb-8c66-0242ac110002";
     FsSubVolumeName := "csi-vol-b0285c97-a0ce-11eb-8c66-0242ac110002";
     SnapshotID := "0001-0009-rook-ceph-0000000000000002-c1396d08-a0ce-11eb-8c66-0242ac110002" |}.

Definition sample_snapshotInfo : snapshotInfo :=
  {| snapID := "0001-0009-rook-ceph-0000000000000002-c1396d08-a0ce-11eb-8c66-0242ac110002";
     CreatedAt := "2021-04-19 07:41:12.000000";
     CreationTime := Some {| Seconds := 1618818072; Nanos := 0 |} |}.

Definition sample_credentials : Credentials :=
  {| ID := "admin"; KeyFile := "/tmp/csi/keys/keyfile-1" |}.

Definition complete_clone : CloneStatus := {| Status := {| State := "complete" |} |}.
Definition pending_clone : CloneStatus := {| Status := {| State := "in-progress" |} |}.
(** [CloneStatus{}] *)
Definition CloneStatus_zero : CloneStatus := {| Status := {| State := "" |} |}.

Definition an_error (t : errType) (text : string) : cephError :=
  {| errorType := t; errorText := text |}.

Record Scenario := {
  sc_validation : option error;            (* answer of the request validation *)
  sc_lookup : option cephError;            (* error of the lookup by identifier *)
  sc_existing_volume : option volumeIdentifier;  (* [checkVolExists] *)
  sc_existing_snapshot : option snapshotInfo;    (* [checkSnapExists] *)
  sc_unreserve : option cephError;         (* error of [Unreserve] *)
  sc_metadata_get : option cephError;      (* error of [MetadataStore.Get] *)
  sc_protect : option cephError;           (* error of [protectSnapshot] *)
  sc_clone : option cephError;             (* error of [cloneSnapshot] *)
  sc_cloneInfo : CloneStatus * option cephError;  (* [getcloneInfo] *)
  sc_create : option cephError;            (* error of [createVolume] *)
  sc_resize : option cephError             (* error of [resizeVolume] *)
}.

Definition answers (sc : Scenario) (c : Call) : Ret c :=
  match c return Ret c with
  | validateCreateVolumeRequest _ | validateDeleteVolumeRequest
  | validateExpandVolumeRequest _ | ValidateControllerServiceRequest _ =>
      sc_validation sc
  | NewAdminCredentials _ => (sample_credentials, None)
  | DeleteCredentials _ => tt
  | newVolumeOptions requestName _ _ =>
      (with_RequestName requestName sample_volumeOptions, None)
  | newVolumeOptionsFromVolID _ _ =>
      (sample_volumeOptions, sample_volumeIdentifier, sc_lookup sc)
  | newSnapshotOptionsFromID _ _ =>
      (with_RequestName "snap-1" sample_volumeOptions, sample_snapshotIdentifier,
       sc_lookup sc)
  | checkVolExists _ _ _ => (sc_existing_volume sc, None)
  | checkSnapExists _ _ _ => (sc_existing_snapshot sc, None)
  | reserveVol _ _ => (sample_volumeIdentifier, None)
  | reserveSnap _ _ _ => (sample_snapshotIdentifier, None)
  | getSubVolumeInfo _ _ _ => ({| BytesQuota := 2147483648 |}, None)
  | getcloneInfo _ _ _ => sc_cloneInfo sc
  | getSnapshotInfo _ _ _ _ => (sample_snapshotInfo, None)
  | MetadataStore_Get _ =>
      ({| VolOptions := sample_volumeOptions; cacheVolumeID := "" |},
       sc_metadata_get sc)
  | GetMonValFromSecret _ => ("", None)
  | time_Parse _ _ => (1618818072, None)
  | ptypes_TimestampProto tm => (Some {| Seconds := tm; Nanos := 0 |}, None)
  | undoVolReservation _ _ _ | undoSnapReservation _ _ _ => sc_unreserve sc
  | protectSnapshot _ _ _ _ => sc_protect sc
  | cloneSnapshot _ _ _ _ _ _ => sc_clone sc
  | createVolume _ _ _ _ => sc_create sc
  | resizeVolume _ _ _ _ => sc_resize sc
  | purgeVolume _ _ _
  | createSnapshot _ _ _ _ | deleteSnapshot _ _ _ _
  | unprotectSnapshot _ _ _ _
  | MetadataStore_Delete _
  | purgeVolumeDeprecated _ _ _ | deleteCephUserDeprecated _ _ _ => None
  end.

Definition env (sc : Scenario) : forall c : Call, unit -> Ret c * unit :=
  fun c b => (answers sc c, b).

(** Everything succeeds; nothing exists yet under the request name. *)
Definition nominal : Scenario :=
  {| sc_validation := None; sc_lookup := None;
     sc_existing_volume := None; sc_existing_snapshot := None;
     sc_unreserve := None; sc_metadata_get := None;
     sc_protect := None; sc_clone := None;
     sc_cloneInfo := (complete_clone, None);
     sc_create := None; sc_resize := None |}.

(** The lookup by identifier fails with [e]; [Unreserve] answers [u] and the
    metadata store of version 1.0.0 answers [m]. *)
Definition lookup_fails (e : cephError) (u m : option cephError) : Scenario :=
  {| sc_validation := None; sc_lookup := Some e;
     sc_existing_volume := None; sc_existing_snapshot := None;
     sc_unreserve := u; sc_metadata_get := m;
     sc_protect := None; sc_clone := None;
     sc_cloneInfo := (complete_clone, None);
     sc_create := None; sc_resize := None |}.




(** The clone of the temporary snapshot has not completed yet. *)
Definition clone_pending : Scenario :=
  {| sc_validation := None; sc_lookup := None;
     sc_existing_volume := None; sc_existing_snapshot := None;
     sc_unreserve := None; sc_metadata_get := None;
     sc_protect := None; sc_clone := None;
     sc_cloneInfo := (pending_clone, None);
     sc_create := None; sc_resize := None |}.

(** [cloneSnapshot] fails. *)
Definition clone_fails : Scenario :=
  {| sc_validation := None; sc_lookup := None;
     sc_existing_volume := None; sc_existing_snapshot := None;
     sc_unreserve := None; sc_metadata_get := None;
     sc_protect := None;
     sc_clone := Some (an_error errorString "clone failed: no space left");
     sc_cloneInfo := (complete_clone, None);
     sc_create := None; sc_resize := None |}.

(** [getcloneInfo] fails and, as Go functions do, returns the zero
    [CloneStatus] with its error. *)
Definition cloneInfo_fails : Scenario :=
  {| sc_validation := None; sc_lookup := None;
     sc_existing_volume := None; sc_existing_snapshot := None;
     sc_unreserve := None; sc_metadata_get := None;
     sc_protect := None; sc_clone := None;
     sc_cloneInfo := (CloneStatus_zero, Some (an_error errorString "clone status: connection lost"));
     sc_create := None; sc_resize := None |}.

(** Creating the backing subvolume fails. *)
Definition create_fails : Scenario :=
  {| sc_validation := None; sc_lookup := None;
     sc_existing_volume := None; sc_existing_snapshot := None;
     sc_unreserve := None; sc_metadata_get := None;
     sc_protect := None; sc_clone := None;
     sc_cloneInfo := (complete_clone, None);
     sc_create := Some (an_error errorString "quota exceeded");
     sc_resize := None |}.

(** A sample rounding function for the concrete runs: up to whole MiB. *)
Definition roundUpMiB (bytes : Z) : Z := (bytes + 1048575) / 1048576 * 1048576.

Definition sample_server : ControllerServer :=
  {| MetadataStore := None; VolumeLocks := ∅; SnapshotLocks := ∅ |}.

(** The same server while another operation holds the lock on [key]. *)
Definition server_with_volume_lock (key : string) : ControllerServer :=
  {| MetadataStore := None; VolumeLocks := {[ key ]}; SnapshotLocks := ∅ |}.

(** A server that still has the metadata store of plugin version 1.0.0. *)
Definition legacy_server : ControllerServer :=
  {| MetadataStore := Some cachePersister; VolumeLocks := ∅; SnapshotLocks := ∅ |}.

Definition sample_CreateVolumeRequest : CreateVolumeRequest :=
  {| Name := "pvc-1";
     capacity_range := Some {| RequiredBytes := 1073741824; LimitBytes := 0 |};
     volume_capabilities := [ {| access_type := MountAccess; access_mode := 5 |} ];
     Parameters := {[ "clusterID" := "rook-ceph" ]};
     Secrets := ∅;
     volume_content_source := None |}.

(** The same request asking for a clone of an existing volume. *)
Definition sample_CloneRequest : CreateVolumeRequest :=
  {| Name := "pvc-2";
     capacity_range := Some {| RequiredBytes := 1073741824; LimitBytes := 0 |};
     volume_capabilities := [ {| access_type := MountAccess; access_mode := 5 |} ];
     Parameters := {[ "clusterID" := "rook-ceph" ]};
     Secrets := ∅;
     volume_content_source :=
       Some {| Type_ := VolumeContentSource_Volume
                 "0001-0009-rook-ceph-0000000000000002-b0285c97-a0ce-11eb-8c66-0242ac110002" |} |}.


Definition sample_DeleteVolumeRequest : DeleteVolumeRequest :=
  {| dv_VolumeId := "0001-0009-rook-ceph-0000000000000002-b0285c97-a0ce-11eb-8c66-0242ac110002";
     dv_Secrets := ∅ |}.

Definition sample_DeleteSnapshotRequest : DeleteSnapshotRequest :=
  {| ds_SnapshotId := "0001-0009-rook-ceph-0000000000000002-c1396d08-a0ce-11eb-8c66-0242ac110002";
     ds_Secrets := ∅ |}.

Definition sample_CreateSnapshotRequest : CreateSnapshotRequest :=
  {| SourceVolumeId := "0001-0009-rook-ceph-0000000000000002-b0285c97-a0ce-11eb-8c66-0242ac110002";
     cs_Name := "snap-1";
     cs_Secrets := ∅ |}.

Definition sample_ExpandRequest : ControllerExpandVolumeRequest :=
  {| ev_VolumeId := "0001-0009-rook-ceph-0000000000000002-b0285c97-a0ce-11eb-8c66-0242ac110002";
     ev_CapacityRange := Some {| RequiredBytes := 2147483000; LimitBytes := 0 |};
     ev_Secrets := ∅ |}.

(** Sample errors. *)
Definition VolumeNotFound_error : cephError :=
  an_error ErrVolumeNotFound "volume csi-vol-b0285c97-a0ce-11eb-8c66-0242ac110002 not found".
Definition SnapNotFound_error : cephError :=
  an_error ErrSnapNotFound "snapshot csi-snap-c1396d08-a0ce-11eb-8c66-0242ac110002 not found".
Definition PoolNotFound_error : cephError :=
  an_error ErrPoolNotFound "pool ID (2) not found in Ceph cluster".
Definition InvalidVolID_error : cephError :=
  an_error ErrInvalidVolID "error decoding volume ID".
Definition omap_error : cephError :=
  an_error errorString "failed removing key from omap: connection lost".
Definition CacheEntryNotFound_error : cephError :=
  an_error CacheEntryNotFound "cache entry not found".

(** The subvolumes of a sample clone-from-volume. *)
Definition source_subvolume : volumeID := "csi-vol-b0285c97-a0ce-11eb-8c66-0242ac110002".
Definition clone_subvolume : volumeID := "csi-vol-d2407e19-a0ce-11eb-8c66-0242ac110002".

(** ** Further observers *)

(** A call whose only result is an error, together with that error. *)
Definition outcome_of (ev : Event) : option (Call * option cephError) :=
  match ev with
  | existT c r =>
      match c return Ret c -> option (Call * option cephError) with
      | undoVolReservation a1 a2 a3 => fun r => Some (undoVolReservation a1 a2 a3, r)
      | undoSnapReservation a1 a2 a3 => fun r => Some (undoSnapReservation a1 a2 a3, r)
      | createVolume a1 a2 a3 a4 => fun r => Some (createVolume a1 a2 a3 a4, r)
      | purgeVolume a1 a2 a3 => fun r => Some (purgeVolume a1 a2 a3, r)
      | resizeVolume a1 a2 a3 a4 => fun r => Some (resizeVolume a1 a2 a3 a4, r)
      | cloneSnapshot a1 a2 a3 a4 a5 a6 => fun r => Some (cloneSnapshot a1 a2 a3 a4 a5 a6, r)
      | createSnapshot a1 a2 a3 a4 => fun r => Some (createSnapshot a1 a2 a3 a4, r)
      | deleteSnapshot a1 a2 a3 a4 => fun r => Some (deleteSnapshot a1 a2 a3 a4, r)
      | protectSnapshot a1 a2 a3 a4 => fun r => Some (protectSnapshot a1 a2 a3 a4, r)
      | unprotectSnapshot a1 a2 a3 a4 => fun r => Some (unprotectSnapshot a1 a2 a3 a4, r)
      | MetadataStore_Delete a1 => fun r => Some (MetadataStore_Delete a1, r)
      | purgeVolumeDeprecated a1 a2 a3 => fun r => Some (purgeVolumeDeprecated a1 a2 a3, r)
      | deleteCephUserDeprecated a1 a2 a3 => fun r => Some (deleteCephUserDeprecated a1 a2 a3, r)
      | _ => fun _ => None
      end r
  end.

(** The answer of [reserveSnap], if [ev] is such a call. *)
Definition reserveSnap_of (ev : Event)
  : option (volumeOptions * string * (snapshotIdentifier * option cephError)) :=
  match ev with
  | existT c r =>
      match c return Ret c -> option (volumeOptions * string * (snapshotIdentifier * option cephError)) with
      | reserveSnap vo subvol _ => fun r => Some (vo, subvol, r)
      | _ => fun _ => None
      end r
  end.

(** The answer of [util.NewAdminCredentials], if [ev] is such a call. *)
Definition NewAdminCredentials_of (ev : Event) : option (Credentials * option cephError) :=
  match ev with
  | existT c r =>
      match c return Ret c -> option (Credentials * option cephError) with
      | NewAdminCredentials _ => fun r => Some r
      | _ => fun _ => None
      end r
  end.

(** The answer of [MetadataStore.Get], if [ev] is such a call. *)
Definition MetadataStore_Get_of (ev : Event) : option (controllerCacheEntry * option cephError) :=
  match ev with
  | existT c r =>
      match c return Ret c -> option (controllerCacheEntry * option cephError) with
      | MetadataStore_Get _ => fun r => Some r
      | _ => fun _ => None
      end r
  end.

(** The answer of [getcloneInfo], if [ev] is such a call. *)
Definition getcloneInfo_of (ev : Event) : option (CloneStatus * option cephError) :=
  match ev with
  | existT c r =>
      match c return Ret c -> option (CloneStatus * option cephError) with
      | getcloneInfo _ _ _ => fun r => Some r
      | _ => fun _ => None
      end r
  end.

(** Credentials handed out by a successful [NewAdminCredentials]. *)
Definition credentials_obtained (ev : Event) : option Credentials :=
  match NewAdminCredentials_of ev with
  | Some (cr, None) => Some cr
  | _ => None
  end.

(** Credentials passed to [DeleteCredentials]. *)
Definition credentials_deleted (ev : Event) : option Credentials :=
  match projT1 ev with
  | DeleteCredentials cr => Some cr
  | _ => None
  end.

(** The calls that delete a volume of plugin version 1.0.0. *)
Definition deprecated_delete (c : Call) : bool :=
  match c with
  | purgeVolumeDeprecated _ _ _ | deleteCephUserDeprecated _ _ _
  | MetadataStore_Delete _ => true
  | _ => false
  end.

(** The calls that remove a snapshot or give up its reservation. *)
Definition snapshot_undo (c : Call) : bool :=
  match c with
  | deleteSnapshot _ _ _ _ | undoSnapReservation _ _ _ => true
  | _ => false
  end.

(** Every credential obtained in the trace is deleted in it, the last one
    obtained first. *)
Definition credentials_balanced (tr : list Event) : Prop :=
  omap credentials_deleted tr = rev (omap credentials_obtained tr).




(** The answer of [util.GetMonValFromSecret], if [ev] is such a call. *)
Definition GetMonValFromSecret_of (ev : Event) : option (string * option cephError) :=
  match ev with
  | existT c r =>
      match c return Ret c -> option (string * option cephError) with
      | GetMonValFromSecret _ => fun r => Some r
      | _ => fun _ => None
      end r
  end.

(** ** clone.go: checkCloneFromSubvolumeExists *)

(** Calls that only read the state of a clone or snapshot. *)
Definition is_query (c : Call) : bool :=
  match c with
  | getcloneInfo _ _ _ | getSnapshotInfo _ _ _ _ | getSubVolumeInfo _ _ _ => true
  | _ => false
  end.


(** The error of [getSnapshotInfo], if [ev] is such a call. *)
Definition getSnapshotInfo_of (ev : Event) : option (option cephError) :=
  match ev with
  | existT c r =>
      match c return Ret c -> option (option cephError) with
      | getSnapshotInfo _ _ _ _ => fun r => Some (snd r)
      | _ => fun _ => None
      end r
  end.

Section CloneExists.

Context {B : Type}.
Variable handle : forall c : Call, B -> Ret c * B.

(** [getVolumeRootPathCeph] is defined outside the embedded sources, like the
    functions behind [Call]. It is answered by the environment from its own
    state; it only reads the backing store and is not entered in the
    trace. *)
Variable getVolumeRootPathCeph :
  volumeOptions -> Credentials -> volumeID -> B -> (string * option cephError) * B.

Definition query {A} (f : B -> A * B) : M B A :=
  fun cs b => let (r, b') := f b in (r, cs, b', []).

Local Open Scope go_scope.

Definition checkCloneFromSubvolumeExists (volID cloneID : volumeID)
    (volOpt : volumeOptions) (cr : Credentials) : M B (option cephError) :=
  let snapShotID := cloneID in
  (* the statements below the first check *)
  let below : M B (option cephError) :=
    r <- call handle (getcloneInfo volOpt cr cloneID) ;;
    let '(clone, err) := r in
    match err with
    | Some _ => ret err
    | None =>
      if negb (String.eqb (State (Status clone)) "complete")
      then ret (Some (ErrCloneInProgress_for cloneID))
      else
        err <- call handle (resizeVolume volOpt cr cloneID (Size volOpt)) ;;
        match err with
        | Some _ => ret err
        | None =>
          r <- call handle (getSnapshotInfo volOpt cr snapShotID volID) ;;
          let '(_, err) := r in
          match err with
          | Some e =>
            if errors_As e ErrSnapNotFound then ret None else ret err
          | None =>
            err <- call handle (unprotectSnapshot volOpt cr snapShotID volID) ;;
            match err with
            | Some _ => ret err
            | None =>
              err <- call handle (deleteSnapshot volOpt cr snapShotID volID) ;;
              match err with
              | Some _ => ret err
              | None => ret None
              end
            end
          end
        end
    end in
  (* check clone exists *)
  r <- query (getVolumeRootPathCeph volOpt cr cloneID) ;;
  let '(_, err) := r in
  match err with
  | Some e =>
    if negb (errors_As e ErrVolumeNotFound) then ret err else below
  | None => below
  end.

End CloneExists.

(** ** Package util: rados connections, pools and omap helpers *)

(** The helpers of package [util] that talk to the cluster: the connection
    helpers, the pool lookups by way of the [ceph] command line, and the omap
    helpers on an IO context. The library calls they make (go-ceph's [rados],
    [os/exec]) are constructors of [util.Call], answered by an arbitrary
    environment and recorded in the trace, as for the controller. *)
Module util.

(** Values formatted into the text of an error by [fmt.Errorf]. *)
Inductive arg :=
| v_string (s : string)
| v_strings (l : list string)
| v_int (n : Z)
| v_error (text : string).

(** Error values: one made by a library, known by its [Error()] text; one
    made by [fmt.Errorf], kept as format and arguments; and the typed errors
    of the package, which wrap the error they were made from. *)
Inductive error :=
| external (text : string)
| Errorf (format : string) (args : list arg)
| ErrKeyNotFound (keyName : string) (err : error)
| ErrObjectExists (objectName : string) (err : error)
| ErrObjectNotFound (objectName : string) (err : error).

(** A Go pair of a pointer and an error, of which exactly one is non-nil. A
    pair of a plain value and an error stays a pair: the value is the zero
    value when the error is set. *)
Inductive Result (A : Type) :=
| Ok (a : A)
| Err (err : error).
Arguments Ok {A} a.
Arguments Err {A} err.

(** [strings.Contains(s, substr)] *)
Fixpoint Contains (s substr : string) : bool :=
  if String.prefix substr s then true
  else match s with
       | EmptyString => false
       | String _ rest => Contains rest substr
       end.

(** Handles of go-ceph. *)
Definition Conn := nat.
Definition IOContext := nat.

(** The [pairs] argument of [SetOmap]: a map (possibly nil), or the string
    that [CreateObject] passes. *)
Inductive OmapPairs :=
| pairs_nil
| pairs_map (m : gmap string string)
| pairs_string (s : string).

Inductive Call :=
| rados_NewConn
| Conn_ParseCmdLineArgs (conn : Conn) (args : list string)
| Conn_Connect (conn : Conn)
| Conn_ReadConfigFile (conn : Conn) (path : string)
| Conn_OpenIOContext (conn : Conn) (pool : string)
| Conn_Shutdown (conn : Conn)
| IOContext_SetNamespace (ioctx : IOContext) (nameSpace : string)
| IOContext_Destroy (ioctx : IOContext)
| IOContext_SetOmap (ioctx : IOContext) (oid : string) (pairs : OmapPairs)
| IOContext_GetOmapValues (ioctx : IOContext) (oid startAfter filterPrefix : string)
    (maxReturn : Z)
| IOContext_RmOmapKeys (ioctx : IOContext) (oid key : string)
| IOContext_Delete (ioctx : IOContext) (oid : string)
(* exec.Command(program, args...) run with buffers on stdout and stderr *)
| Cmd_Run (program : string) (args : list string).

(** What each call returns; an error is given by its text. *)
Definition Ret (c : Call) : Type :=
  match c with
  | rados_NewConn => Conn * option string
  | Conn_OpenIOContext _ _ => IOContext * option string
  | IOContext_GetOmapValues _ _ _ _ _ => string * option string
  | Cmd_Run _ _ => string * string * option string
  | IOContext_Destroy _ | Conn_Shutdown _ => unit
  | Conn_ParseCmdLineArgs _ _ | Conn_Connect _ | Conn_ReadConfigFile _ _
  | IOContext_SetNamespace _ _ | IOContext_SetOmap _ _ _
  | IOContext_RmOmapKeys _ _ _ | IOContext_Delete _ _ => option string
  end.

Definition Event : Type := { c : Call & Ret c }.
Definition Ev (c : Call) (r : Ret c) : Event := existT c r.

(** IO contexts that were opened, and those that were destroyed. *)
Definition opened (ev : Event) : option IOContext :=
  match ev with
  | existT c r =>
      match c return Ret c -> option IOContext with
      | Conn_OpenIOContext _ _ =>
          fun r => match snd r with None => Some (fst r) | Some _ => None end
      | _ => fun _ => None
      end r
  end.

Definition destroyed (ev : Event) : option IOContext :=
  match projT1 ev with
  | IOContext_Destroy ioctx => Some ioctx
  | _ => None
  end.

(** Connections that [Connect] succeeded on, and those that were shut
    down. *)
Definition connected (ev : Event) : option Conn :=
  match ev with
  | existT c r =>
      match c return Ret c -> option Conn with
      | Conn_Connect conn => fun r => match r with None => Some conn | Some _ => None end
      | _ => fun _ => None
      end r
  end.

Definition shut_down (ev : Event) : option Conn :=
  match projT1 ev with
  | Conn_Shutdown conn => Some conn
  | _ => None
  end.

(** The namespaces set on an IO context. *)
Definition namespace_set (ev : Event) : option string :=
  match projT1 ev with
  | IOContext_SetNamespace _ nameSpace => Some nameSpace
  | _ => None
  end.

(** The error text of a call on an omap or object, if [ev] is such a call
    and it failed. *)
Definition failure_of (ev : Event) : option string :=
  match ev with
  | existT c r =>
      match c return Ret c -> option string with
      | IOContext_GetOmapValues _ _ _ _ _ => fun r => snd r
      | IOContext_SetOmap _ _ _ | IOContext_Delete _ _
      | IOContext_RmOmapKeys _ _ _ => fun r => r
      | _ => fun _ => None
      end r
  end.

(** An event of the trace is observed by [obs] as [v]. *)
Definition observed {A} (obs : Event -> option A) (tr : list Event) (v : A) : Prop :=
  exists ev, In ev tr /\ obs ev = Some v.

(** [sub] occurs in [s]. *)
Definition occurs_in (sub s : string) : Prop :=
  exists before after, s = (before ++ sub ++ after)%string.

(** The value read by [GetOmapValues], if [ev] is such a call. *)
Definition GetOmapValues_of (ev : Event) : option (string * option string) :=
  match ev with
  | existT c r =>
      match c return Ret c -> option (string * option string) with
      | IOContext_GetOmapValues _ _ _ _ _ => fun r => Some r
      | _ => fun _ => None
      end r
  end.

(** A run: from the state of the outside world to a value, the new state
    and the calls made. *)
Definition IO (S A : Type) : Type := S -> A * S * list Event.

Definition ret {S A} (a : A) : IO S A := fun s => (a, s, []).

Definition bind {S A A'} (m : IO S A) (k : A -> IO S A') : IO S A' :=
  fun s =>
    let '(a, s1, t1) := m s in
    let '(a', s2, t2) := k a s1 in
    (a', s2, t1 ++ t2).

Declare Scope util_scope.
Delimit Scope util_scope with util.
Notation "x <- m ;; k" := (bind m (fun x => k))
  (at level 100, m at next level, right associativity) : util_scope.
Notation "m ;;; k" := (bind m (fun _ => k))
  (at level 100, right associativity) : util_scope.

Definition defer {S A} (cleanup : IO S unit) (body : IO S A) : IO S A :=
  (r <- body ;; cleanup ;;; ret r)%util.

Definition value_of {S A} (r : A * S * list Event) : A := fst (fst r).
Definition trace_of {S A} (r : A * S * list Event) : list Event := snd r.

(** [cephStoragePoolSummary] *)
Record cephStoragePoolSummary := { Name : string; Number : Z }.

Section Helpers.

Context {S : Type}.
Variable handle : forall c : Call, S -> Ret c * S.

(** Defined outside the embedded sources: the path of the Ceph
    configuration file, the redaction of secrets in an argument list, and
    [json.Unmarshal] into a list of pool summaries. *)
Variable CephConfigPath : string.
Variable StripSecretInArgs : list string -> list string.
Variable json_Unmarshal : string -> list cephStoragePoolSummary * option string.

Definition call (c : Call) : IO S (Ret c) :=
  fun s => let (r, s') := handle c s in (r, s', [Ev c r]).

Local Open Scope util_scope.

(** *** Connections *)

Definition NewConnection (mons id key confPath : string) : IO S (Result Conn) :=
  r <- call rados_NewConn ;;
  let '(conn, err) := r in
  match err with
  | Some e => ret (Err (Errorf "failed to create rados connection %v" [v_error e]))
  | None =>
    let baseArgs := ["-m"; mons; "--id"; id; "--key"; key; "-c"; confPath] in
    err <- call (Conn_ParseCmdLineArgs conn baseArgs) ;;
    match err with
    | Some e =>
      ret (Err (Errorf "error updating connection with args (%v) (%v)"
                  [v_strings baseArgs; v_error e]))
    | None =>
      err <- call (Conn_Connect conn) ;;
      match err with
      | Some e =>
        ret (Err (Errorf "error connecting to Ceph cluster (%v). Connection args (%+v)"
                    [v_error e; v_strings baseArgs]))
      | None =>
        err <- call (Conn_ReadConfigFile conn confPath) ;;
        match err with
        | Some e => ret (Err (external e))
        | None => ret (Ok conn)
        end
      end
    end
  end.

Definition NewContextWithPool (mons id key confPath pool nameSpace : string)
  : IO S (Result IOContext) :=
  r <- NewConnection mons id key confPath ;;
  match r with
  | Err err => ret (Err err)
  | Ok conn =>
    r <- call (Conn_OpenIOContext conn pool) ;;
    let '(ioctx, err) := r in
    match err with
    | Some e => ret (Err (Errorf "Error creating IO context (%v)" [v_error e]))
    | None =>
      if negb (String.eqb nameSpace "")
      then
        err <- call (IOContext_SetNamespace ioctx nameSpace) ;;
        match err with
        | Some e => call (IOContext_Destroy ioctx) ;;; ret (Err (external e))
        | None => ret (Ok ioctx)
        end
      else ret (Ok ioctx)
    end
  end.

(** The second file of the package that makes connections has functions of
    the same two names; they are given a prime here. Its [NewConnection]
    passes a key file and reads no configuration file; its
    [NewContextWithPool] hands the connection back with the IO context, and
    does not look at what [SetNamespace] answers. *)
Definition NewConnection' (mons id key confPath : string) : IO S (Result Conn) :=
  r <- call rados_NewConn ;;
  let '(conn, err) := r in
  match err with
  | Some e => ret (Err (Errorf "failed to create rados connection %v" [v_error e]))
  | None =>
    let baseArgs := ["-m"; mons; "--id"; id; "--keyfile"; key; "-c"; confPath] in
    err <- call (Conn_ParseCmdLineArgs conn baseArgs) ;;
    match err with
    | Some e =>
      ret (Err (Errorf "error updating connection with args (%v) (%v)"
                  [v_strings baseArgs; v_error e]))
    | None =>
      err <- call (Conn_Connect conn) ;;
      match err with
      | Some e =>
        ret (Err (Errorf "error connecting to Ceph cluster (%v). Connection args (%+v)"
                    [v_error e; v_strings baseArgs]))
      | None => ret (Ok conn)
      end
    end
  end.

Definition NewContextWithPool' (mons id key confPath pool nameSpace : string)
  : IO S (Result (Conn * IOContext)) :=
  r <- NewConnection' mons id key confPath ;;
  match r with
  | Err err => ret (Err err)
  | Ok conn =>
    r <- call (Conn_OpenIOContext conn pool) ;;
    let '(ioctx, err) := r in
    match err with
    | Some e =>
      call (Conn_Shutdown conn) ;;;
      ret (Err (Errorf "Error creating IO context (%v)" [v_error e]))
    | None =>
      (if negb (String.eqb nameSpace "")
       then call (IOContext_SetNamespace ioctx nameSpace) ;;; ret tt
       else ret tt) ;;;
      ret (Ok (conn, ioctx))
    end
  end.

(** *** Running the ceph command line *)

Definition ExecCommand (program : string) (args : list string)
  : IO S (string * option string * option error) :=
  let sanitizedArgs := StripSecretInArgs args in
  r <- call (Cmd_Run program args) ;;
  let '(stdoutBuf, stderrBuf, err) := r in
  match err with
  | Some e =>
    ret (stdoutBuf, Some stderrBuf,
         Some (Errorf "an error (%v) occurred while running %s args: %v"
                 [v_error e; v_string program; v_strings sanitizedArgs]))
  | None => ret (stdoutBuf, None, None)
  end.

Definition getPools (monitors : string) (cr : Credentials)
  : IO S (list cephStoragePoolSummary * option error) :=
  r <- ExecCommand "ceph"
         ["-m"; monitors; "--id"; ID cr; ("--keyfile=" ++ KeyFile cr)%string;
          "-c"; CephConfigPath; "-f"; "json"; "osd"; "lspools"] ;;
  let '(stdout, _, err) := r in
  match err with
  | Some _ => ret ([], err)
  | None =>
    let '(pools, err) := json_Unmarshal stdout in
    match err with
    | Some e =>
      ret ([], Some (Errorf "unmarshal of pool list failed: %+v.  raw buffer response: %s"
                       [v_error e; v_string stdout]))
    | None => ret (pools, None)
    end
  end.

(** The [for ... range] loop of [GetPoolID]: it returns at the first pool of
    that name. *)
Fixpoint GetPoolID_range (pools : list cephStoragePoolSummary) (poolName : string)
  : Z * option error :=
  match pools with
  | p :: rest =>
    if String.eqb poolName (Name p) then (Number p, None)
    else GetPoolID_range rest poolName
  | [] => (0, Some (Errorf "pool (%s) not found in Ceph cluster" [v_string poolName]))
  end.

Definition GetPoolID (monitors : string) (cr : Credentials) (poolName : string)
  : IO S (Z * option error) :=
  r <- getPools monitors cr ;;
  let '(pools, err) := r in
  match err with
  | Some _ => ret (0, err)
  | None => ret (GetPoolID_range pools poolName)
  end.

(** The loop of [GetPoolName]: it returns at the first pool of that
    number. *)
Fixpoint GetPoolName_range (pools : list cephStoragePoolSummary) (poolID : Z)
  : string * option error :=
  match pools with
  | p :: rest =>
    if Z.eqb poolID (Number p) then (Name p, None)
    else GetPoolName_range rest poolID
  | [] => ("", Some (Errorf "pool ID (%d) not found in Ceph cluster" [v_int poolID]))
  end.

Definition GetPoolName (monitors : string) (cr : Credentials) (poolID : Z)
  : IO S (string * option error) :=
  r <- getPools monitors cr ;;
  let '(pools, err) := r in
  match err with
  | Some _ => ret ("", err)
  | None => ret (GetPoolName_range pools poolID)
  end.

(** *** Omaps and objects *)

Definition SetOMapKeyValue (monitors : string) (cr : Credentials)
    (poolName namespace oMapName oMapKey keyValue : string) : IO S (option error) :=
  r <- NewContextWithPool monitors (ID cr) (KeyFile cr) CephConfigPath poolName namespace ;;
  match r with
  | Err err => ret (Some err)
  | Ok ioCtx =>
    defer (call (IOContext_Destroy ioCtx)) (
      let oMapKeys :=
        if String.eqb oMapKey "" then pairs_nil
        else pairs_map {[ oMapKey := keyValue ]} in
      err <- call (IOContext_SetOmap ioCtx oMapName oMapKeys) ;;
      match err with
      | Some e => ret (Some (external e))
      | None => ret None
      end)
  end.

Definition GetOMapValue (monitors : string) (cr : Credentials)
    (poolName namespace oMapName oMapKey : string) : IO S (string * option error) :=
  r <- NewContextWithPool monitors (ID cr) (KeyFile cr) CephConfigPath poolName namespace ;;
  match r with
  | Err err => ret ("", Some err)
  | Ok ioCtx =>
    defer (call (IOContext_Destroy ioCtx)) (
      r <- call (IOContext_GetOmapValues ioCtx oMapName "" oMapKey 1) ;;
      let '(value, err) := r in
      match err with
      | Some e =>
        if Contains e ("No such key: " ++ poolName ++ "/" ++ oMapName ++ "/" ++ oMapKey)
        then ret ("", Some (ErrKeyNotFound (poolName ++ "/" ++ oMapName ++ "/" ++ oMapKey)
                              (external e)))
        else if Contains e ("error getting omap value "
                            ++ poolName ++ "/" ++ oMapName ++ "/" ++ oMapKey
                            ++ ": (2) No such file or directory")
        then ret ("", Some (ErrKeyNotFound (poolName ++ "/" ++ oMapName ++ "/" ++ oMapKey)
                              (external e)))
        else ret ("", Some (Errorf "error (%v) occurred" [v_string e]))
      | None => ret (value, None)
      end)
  end.

Definition RemoveOMapKey (monitors : string) (cr : Credentials)
    (poolName namespace oMapName oMapKey : string) : IO S (option error) :=
  r <- NewContextWithPool monitors (ID cr) (KeyFile cr) CephConfigPath poolName namespace ;;
  match r with
  | Err err => ret (Some err)
  | Ok ioCtx =>
    defer (call (IOContext_Destroy ioCtx)) (
      err <- call (IOContext_RmOmapKeys ioCtx oMapName oMapKey) ;;
      match err with
      | Some e => ret (Some (external e))
      | None => ret None
      end)
  end.

Definition CreateObject (monitors : string) (cr : Credentials)
    (poolName namespace objectName : string) : IO S (option error) :=
  r <- NewContextWithPool monitors (ID cr) (KeyFile cr) CephConfigPath poolName namespace ;;
  match r with
  | Err err => ret (Some err)
  | Ok ioCtx =>
    defer (call (IOContext_Destroy ioCtx)) (
      err <- call (IOContext_SetOmap ioCtx objectName (pairs_string "")) ;;
      match err with
      | Some e =>
        if Contains e ("error creating " ++ poolName ++ "/" ++ objectName
                       ++ ": (17) File exists")
        then ret (Some (ErrObjectExists objectName (external e)))
        else ret (Some (external e))
      | None => ret None
      end)
  end.

Definition RemoveObject (monitors : string) (cr : Credentials)
    (poolName namespace objectName : string) : IO S (option error) :=
  r <- NewContextWithPool monitors (ID cr) (KeyFile cr) CephConfigPath poolName namespace ;;
  match r with
  | Err err => ret (Some err)
  | Ok ioCtx =>
    defer (call (IOContext_Destroy ioCtx)) (
      err <- call (IOContext_Delete ioCtx objectName) ;;
      match err with
      | Some e =>
        if Contains e ("error removing " ++ poolName ++ ">" ++ objectName
                       ++ ": (2) No such file or directory")
        then ret (Some (ErrObjectNotFound objectName (external e)))
        else ret (Some (external e))
      | None => ret None
      end)
  end.

End Helpers.

End util.

(** ** Further concrete environments *)

(** [protectSnapshot] fails. *)
Definition protect_fails : Scenario :=
  {| sc_validation := None; sc_lookup := None;
     sc_existing_volume := None; sc_existing_snapshot := None;
     sc_unreserve := None; sc_metadata_get := None;
     sc_protect := Some (an_error errorString "snapshot protect: permission denied");
     sc_clone := None;
     sc_cloneInfo := (complete_clone, None);
     sc_create := None; sc_resize := None |}.

(** [resizeVolume] fails. *)
Definition resize_fails : Scenario :=
  {| sc_validation := None; sc_lookup := None;
     sc_existing_volume := None; sc_existing_snapshot := None;
     sc_unreserve := None; sc_metadata_get := None;
     sc_protect := None; sc_clone := None;
     sc_cloneInfo := (complete_clone, None);
     sc_create := None;
     sc_resize := Some (an_error errorString "resize: quota exceeded") |}.

(** An environment with a state of its own: whether the clone has completed.
    While it has not, [getcloneInfo] reports the clone as in progress. *)
Definition env_by_state : forall c : Call, bool -> Ret c * bool :=
  fun c completed => (answers (if completed then nominal else clone_pending) c, completed).

(** A [getVolumeRootPathCeph] that finds every subvolume. *)
Definition sample_getVolumeRootPathCeph {B : Type}
  : volumeOptions -> Credentials -> volumeID -> B -> (string * option cephError) * B :=
  fun _ _ volID b => ((("/volumes/csi/" ++ volID)%string, None), b).

(** The server while another operation holds the snapshot lock on [key]. *)
Definition server_with_snapshot_lock (key : string) : ControllerServer :=
  {| MetadataStore := None; VolumeLocks := ∅; SnapshotLocks := {[ key ]} |}.


(** A snapshot request without a name, and a delete without an id. *)
Definition unnamed_CreateSnapshotRequest : CreateSnapshotRequest :=
  {| SourceVolumeId := "0001-0009-rook-ceph-0000000000000002-b0285c97-a0ce-11eb-8c66-0242ac110002";
     cs_Name := "";
     cs_Secrets := ∅ |}.

Definition empty_DeleteSnapshotRequest : DeleteSnapshotRequest :=
  {| ds_SnapshotId := ""; ds_Secrets := ∅ |}.

(** The pools of a sample cluster, a decoder that yields them, and an
    environment for the helpers of package [util]: every call succeeds,
    except that the calls on an omap or object fail with [failure] if one is
    given. *)
Definition sample_pools : list util.cephStoragePoolSummary :=
  [ {| util.Name := "replicapool"; util.Number := 1 |};
    {| util.Name := "myfs-metadata"; util.Number := 2 |};
    {| util.Name := "myfs-data0"; util.Number := 3 |} ].

Definition sample_json_Unmarshal (stdout : string)
  : list util.cephStoragePoolSummary * option string :=
  (sample_pools, None).

Definition util_answers (failure : option string) (c : util.Call) : util.Ret c :=
  match c return util.Ret c with
  | util.rados_NewConn => (1%nat, None)
  | util.Conn_OpenIOContext _ _ => (7%nat, None)
  | util.IOContext_GetOmapValues _ _ _ _ _ =>
      (match failure with
       | None => "b0285c97-a0ce-11eb-8c66-0242ac110002"
       | Some _ => ""
       end, failure)
  | util.Cmd_Run _ _ => ("[3 pools]", "", None)
  | util.IOContext_Destroy _ | util.Conn_Shutdown _ => tt
  | util.IOContext_SetOmap _ _ _ | util.IOContext_Delete _ _
  | util.IOContext_RmOmapKeys _ _ _ => failure
  | util.Conn_ParseCmdLineArgs _ _ | util.Conn_Connect _
  | util.Conn_ReadConfigFile _ _ | util.IOContext_SetNamespace _ _ => None
  end.

Definition util_env (failure : option string)
  : forall c : util.Call, unit -> util.Ret c * unit :=
  fun c s => (util_answers failure c, s).

Definition sample_CephConfigPath : string := "/etc/ceph/ceph.conf".

(** A redaction that hides the key file argument. *)
Definition sample_StripSecretInArgs (args : list string) : list string :=
  map (fun a => if String.prefix "--keyfile=" a then "--keyfile=***stripped***" else a) args.

(** * Properties *)

(** ** ValidateVolumeCapabilities *)

Lemma has_block_Exists (caps : list VolumeCapability) :
  has_block caps = true <-> Exists (fun cap => access_type cap = BlockAccess) caps.
Proof.
  induction caps as [|cap rest IH]; cbn.
  - split; [discriminate | intros H; inversion H].
  - unfold GetBlock_not_nil. rewrite Exists_cons.
    destruct (access_type cap); rewrite ?IH; intuition congruence.
Qed.

(** C9. A request that includes a block-mode capability is not confirmed
    (the response carries no [Confirmed] part); a request without any
    block-mode capability is confirmed with exactly the capabilities it
    asked for. *)
Theorem ValidateVolumeCapabilities_block_mode (req : ValidateVolumeCapabilitiesRequest) :
  (Exists (fun cap => access_type cap = BlockAccess) (VolumeCapabilities req) ->
   exists resp, ValidateVolumeCapabilities req = Ok resp /\ Confirmed resp = None) /\
  (~ Exists (fun cap => access_type cap = BlockAccess) (VolumeCapabilities req) ->
   exists resp, ValidateVolumeCapabilities req = Ok resp /\
                Confirmed resp = Some (VolumeCapabilities req)).
Proof.
  unfold ValidateVolumeCapabilities. split; intros H.
  - apply has_block_Exists in H. rewrite H. eauto.
  - destruct (has_block (VolumeCapabilities req)) eqn:E.
    + apply has_block_Exists in E. contradiction.
    + eauto.
Qed.

Lemma ValidateVolumeCapabilities_block_mode_witness :
  (exists resp,
      ValidateVolumeCapabilities
        {| vc_VolumeId := "vol";
           VolumeCapabilities := [ {| access_type := MountAccess; access_mode := 5 |};
                                   {| access_type := BlockAccess; access_mode := 1 |} ] |}
      = Ok resp /\ Confirmed resp = None) /\
  (exists resp,
      ValidateVolumeCapabilities
        {| vc_VolumeId := "vol";
           VolumeCapabilities := [ {| access_type := MountAccess; access_mode := 5 |} ] |}
      = Ok resp /\
      Confirmed resp = Some [ {| access_type := MountAccess; access_mode := 5 |} ]).
Proof.
  split.
  - apply (proj1 (ValidateVolumeCapabilities_block_mode _)).
    cbn. apply Exists_cons_tl, Exists_cons_hd. reflexivity.
  - apply (proj2 (ValidateVolumeCapabilities_block_mode
                    {| vc_VolumeId := "vol";
                       VolumeCapabilities := [ {| access_type := MountAccess; access_mode := 5 |} ] |})).
    cbn. intros H. inversion H as [? ? H1|? ? H1]; [discriminate | inversion H1].
Defined.

Lemma no_call_app p tr1 tr2 : no_call p tr1 -> no_call p tr2 -> no_call p (tr1 ++ tr2).
Proof. unfold no_call. intros. apply Forall_app. auto. Qed.

Lemma no_call_weaken (p q : Call -> bool) tr :
  (forall c, q c = true -> p c = true) -> no_call p tr -> no_call q tr.
Proof.
  unfold no_call, is_call. intros Hpq H. induction H as [|ev tr Hev _ IH]; constructor; auto.
  destruct (q (projT1 ev)) eqn:E; [|reflexivity]. apply Hpq in E. congruence.
Qed.

Lemma observed_app {A} (obs : Event -> option A) tr1 tr2 v :
  observed obs (tr1 ++ tr2) v <-> observed obs tr1 v \/ observed obs tr2 v.
Proof.
  unfold observed. split.
  - intros (ev & Hin & Hobs). apply in_app_or in Hin. destruct Hin; eauto.
  - intros [(ev & Hin & Hobs)|(ev & Hin & Hobs)]; exists ev; split; auto using in_or_app.
Qed.

Lemma observed_no_call {A} (obs : Event -> option A) (p : Call -> bool) tr v :
  (forall ev, obs ev <> None -> is_call p ev = true) ->
  no_call p tr -> ~ observed obs tr v.
Proof.
  intros Hp Hno (ev & Hin & Hobs). unfold no_call in Hno.
  rewrite Forall_forall in Hno. apply list_elem_of_In in Hin. specialize (Hno ev Hin).
  rewrite Hp in Hno; [discriminate | congruence].
Qed.

(** ** The lock registry *)

Lemma Release_acquired (locks : gset string) (key : string) :
  key ∉ locks -> Release ({[key]} ∪ locks) key = locks.
Proof.
  intros Hfree. unfold Release. apply set_eq. intros x.
  rewrite elem_of_difference, elem_of_union, elem_of_singleton.
  split; [tauto|]. intros Hx. split; [tauto|]. congruence.
Qed.

Lemma Release_acquired_both (locks : gset string) (k1 k2 : string) :
  k1 ∉ locks -> k2 ∉ {[k1]} ∪ locks ->
  Release (Release ({[k2]} ∪ ({[k1]} ∪ locks)) k2) k1 = locks.
Proof.
  intros H1 H2. rewrite Release_acquired by assumption.
  apply Release_acquired. assumption.
Qed.

(** The second lock is taken, but the first key is released twice: the
    second key stays. *)
Lemma Release_first_twice (locks : gset string) (k1 k2 : string) :
  k1 ∉ locks -> k2 ∉ {[k1]} ∪ locks ->
  Release (Release ({[k2]} ∪ ({[k1]} ∪ locks)) k1) k1 = {[k2]} ∪ locks.
Proof.
  intros H1 H2. unfold Release. apply set_eq. intros x.
  rewrite !elem_of_difference, !elem_of_union, !elem_of_singleton.
  rewrite elem_of_union, elem_of_singleton in H2.
  split; [tauto|]. intros [->|Hx]; repeat split; try tauto; try congruence.
Qed.

(** ** Tactics for traces *)

(** Show that a listed event is observed. *)
Ltac in_trace := cbn; solve [repeat (first [left; reflexivity | right])].

Ltac show_observed :=
  unfold observed;
  match goal with
  | |- exists ev, In ev ?tr /\ _ = _ =>
      let rec go l :=
        lazymatch l with
        | ?x :: ?rest => first [ exists x; split; [in_trace | reflexivity] | go rest ]
        end in
      go tr
  end.

Section Properties.

Context {B : Type}.
Variable handle : forall c : Call, B -> Ret c * B.
Variable RoundOffBytes : Z -> Z.

(** *** Exploring the paths of an operation *)

Ltac unfold_monad :=
  unfold defer, bind, call, ret, the_server,
    VolumeLocks_TryAcquire, VolumeLocks_Release,
    SnapshotLocks_TryAcquire, SnapshotLocks_Release, TryAcquire,
    result_of, server_of, trace_of, status_Error, status_Errorf.

(** Name the answer of the next call. *)
Ltac answer_call :=
  match goal with
  | |- context [handle ?c ?b] =>
      let r := fresh "r" in
      let b' := fresh "b" in
      let E := fresh "E" in
      destruct (handle c b) as [r b'] eqn:E; cbn [Ret] in r;
      repeat match goal with
             | x : (_ * _)%type |- _ => destruct x
             end;
      try rewrite E in *
  end.

Ltac atomic x :=
  lazymatch x with
  | context [match _ with _ => _ end] => fail
  | context [handle] => fail
  | capacity_range _ => fail
  | _ => idtac
  end.

(** Split on the next test whose outcome is not fixed yet. *)
Ltac branch :=
  match goal with
  | |- context [match ?x with _ => _ end] =>
      atomic x;
      lazymatch x with
      | negb ?y => destruct y eqn:?
      | _ => first [ is_var x; destruct x | destruct x eqn:? ]
      end
  end.

Ltac explore :=
  unfold_monad; cbn -[Ret];
  repeat (first [answer_call | branch]; cbn -[Ret]);
  try discriminate.

(** Set the property to prove aside while the run is explored. *)
Ltac hide_conclusion run :=
  pattern run;
  match goal with
  | |- ?Q _ => let P := fresh "P" in let HP := fresh "HP" in remember Q as P eqn:HP
  end.

Ltac show_conclusion :=
  match goal with
  | HP : ?P = _ |- ?P _ =>
      rewrite HP; clear HP; unfold result_of, server_of, trace_of; cbn
  end.

Ltac no_call_tac := unfold no_call; solve [repeat constructor].

(** ** The helpers that create the backing volume *)

Lemma createCloneFromSubvolume_frame volID cloneID volOpt cr cs b :
  let run := createCloneFromSubvolume handle volID cloneID volOpt cr cs b in
  server_of run = cs /\ no_call not_by_createBackingVolume (trace_of run).
Proof.
  intros run. subst run. unfold createCloneFromSubvolume.
  explore.
  all: split; [reflexivity | no_call_tac].
Qed.

Lemma createBackingVolume_frame req volOptions vID secret cs b :
  let run := createBackingVolume handle req volOptions vID secret cs b in
  server_of run = cs /\ no_call not_by_createBackingVolume (trace_of run) /\
  forall m, result_of run <> Some (status Aborted m).
Proof.
  intros run. subst run. unfold createBackingVolume, createCloneFromSubvolume.
  explore.
  all: split; [reflexivity | split; [no_call_tac | cbn; congruence] ].
Qed.

Lemma deleteVolumeDeprecated_frame req cs b :
  let run := deleteVolumeDeprecated handle req cs b in
  VolumeLocks (server_of run) = VolumeLocks cs /\
  SnapshotLocks (server_of run) = SnapshotLocks cs /\
  no_call is_identifier_lookup (trace_of run).
Proof.
  intros run. subst run. unfold deleteVolumeDeprecated.
  explore.
  all: repeat split; try no_call_tac.
  all: cbn; apply Release_acquired; assumption.
Qed.

(** Run the helper as a whole, keeping what the frame lemma says. *)
Ltac run_createBackingVolume :=
  match goal with
  | |- context [createBackingVolume handle ?req ?vo ?vid ?sec ?cs ?b] =>
      let H := fresh "Hframe" in
      pose proof (createBackingVolume_frame req vo vid sec cs b) as H;
      cbv zeta in H; unfold server_of, trace_of, result_of in H;
      destruct (createBackingVolume handle req vo vid sec cs b) as [[[? ?] ?] ?];
      cbn in H; destruct H as (-> & ? & ?)
  end.

Ltac explore_CreateVolume :=
  unfold CreateVolume; unfold_monad; cbn -[Ret];
  repeat (first [answer_call | run_createBackingVolume | branch]; cbn -[Ret]);
  try discriminate.

Lemma in_no_call p tr ev : no_call p tr -> In ev tr -> is_call p ev = false.
Proof.
  unfold no_call. rewrite Forall_forall. intros H Hin. apply H, list_elem_of_In, Hin.
Qed.

(** Use what is known of the trace: an observed event is one of the listed
    ones, and none of those the helper made. *)
Ltac use_observed :=
  repeat match goal with
         | H : observed _ _ _ |- _ => destruct H as (? & ? & ?)
         | H : In _ (_ :: _) |- _ => destruct H as [<- | H]
         | H : In _ [] |- _ => destruct H
         | H : In _ (_ ++ _) |- _ => apply in_app_or in H; destruct H as [H | H]
         | H : In ?ev ?l, N : no_call _ ?l, O : _ ?ev = Some _ |- _ =>
             exfalso; apply (in_no_call _ _ _ N) in H;
             destruct ev as [[] ?]; cbn in H, O; discriminate
         | H : _ (Ev _ _) = Some _ |- _ =>
             cbn in H; first [discriminate H | injection H as ? ? ? ?; subst | injection H as ? ? ?; subst | injection H as ? ?; subst | injection H as ?; subst]
         | H : Some _ = Some _ |- _ => injection H as ?; subst
         | H : None = Some _ |- _ => discriminate H
         | H : Some _ = None |- _ => discriminate H
         end.

(** ** Lock contention *)


(** ** Replayed CreateVolume *)


(** ** Reservation kept or undone *)

Lemma errors_As_ceph (err : error) (t : errType) :
  errors_As err t = true -> exists e, err = ceph e /\ errorType e = t.
Proof.
  destruct err as [e|c m]; cbn; [|discriminate].
  intros H. exists e. split; [reflexivity|].
  destruct (errorType e), t; cbn in H; congruence.
Qed.

Lemma last_trace_snoc (tr1 tr2 : list Event) (ev : Event) :
  last (tr1 ++ tr2 ++ [ev]) = Some ev.
Proof. rewrite app_assoc. apply last_snoc. Qed.

(** The reservation, by the error [CreateVolume] returns: an attempt that
    fails with the [CloneInProgress] condition makes no [Unreserve] call; an
    attempt that took a reservation and then fails with any other error ends
    with the [Unreserve] call for that reservation. The error returned need
    not tell whether the failure is final: a failed [getcloneInfo] is
    reported as [CloneInProgress] after the clone has been purged. *)
Theorem CreateVolume_reservation_kept_or_undone (req : CreateVolumeRequest)
    (cs : ControllerServer) (b : B) :
  let run := CreateVolume handle RoundOffBytes req cs b in
  (forall e : cephError,
      result_of run = Err (status Aborted (Error (ceph e))) ->
      errorType e = ErrCloneInProgress ->
      no_call is_unreserve (trace_of run)) /\
  (forall volOptions vID err,
      observed reserveVol_of (trace_of run) (volOptions, (vID, None)) ->
      result_of run = Err err ->
      (forall e : cephError,
          err = status Aborted (Error (ceph e)) -> errorType e <> ErrCloneInProgress) ->
      exists r,
        last (trace_of run)
        = Some (Ev (undoVolReservation volOptions vID (Secrets req)) r)).
Proof.
  intros run. subst run. explore_CreateVolume.
  all: rewrite ?app_nil_r.
  all: split;
    [ intros e0 Hres Hcip
    | intros vo0 vID0 err0 Hobs Hres Hterminal; use_observed; try discriminate Hres ].
  all: try (no_call_tac; fail).
  (* the helper failed *)
  all: try match goal with
       | H : errors_As ?e ErrCloneInProgress = true |- _ =>
           apply errors_As_ceph in H; destruct H as (? & -> & ?)
       end.
  all: try (injection Hres as <-; exfalso; eapply Hterminal; [reflexivity | assumption]).
  all: try match goal with
       | H : forall m, Some ?e <> Some (status Aborted m),
         Hres : Err ?e = Err (status Aborted _) |- _ =>
           exfalso; injection Hres as ->; eapply H; reflexivity
       end.
  all: try (eexists; rewrite ?app_comm_cons; apply last_snoc).
  all: unfold no_call; repeat (constructor; [reflexivity|]).
  all: match goal with N : no_call not_by_createBackingVolume _ |- _ =>
         revert N; apply no_call_weaken; intros [] Hc; cbn in *; congruence
       end.
Qed.

(** ** ControllerExpandVolume *)


(** ** CreateSnapshot *)


(** ** Delete on a failed identifier lookup *)

Lemma DeleteVolume_lookup_failure (req : DeleteVolumeRequest)
    (cs : ControllerServer) (b : B) volOptions vID (e : cephError) :
  let run := DeleteVolume handle req cs b in
  let volID := dv_VolumeId req in
  let held := {[volID]} ∪ VolumeLocks cs in
  observed volume_lookup_of (trace_of run) (volID, (volOptions, vID, Some e)) ->
  match errorType e with
  | ErrPoolNotFound | ErrKeyNotFound =>
      result_of run = Ok Build_DeleteVolumeResponse /\
      no_call (fun c => journal_write c || backing_call c) (trace_of run)
  | ErrVolumeNotFound =>
      (RequestName volOptions ∈ held ->
       result_of run
       = Err (status_Errorf Aborted VolumeOperationAlreadyExistsFmt (RequestName volOptions)) /\
       no_call (fun c => journal_write c || backing_call c) (trace_of run)) /\
      (RequestName volOptions ∉ held ->
       exists r,
         In (Ev (undoVolReservation volOptions vID (dv_Secrets req)) r) (trace_of run) /\
         result_of run = after_unreserve Build_DeleteVolumeResponse r /\
         no_call backing_call (trace_of run))
  | ErrInvalidVolID =>
      match MetadataStore cs with
      | Some _ =>
          exists b',
            result_of run
            = result_of (deleteVolumeDeprecated handle req (with_VolumeLocks held cs) b')
      | None =>
          result_of run = Err (status Internal (Error (ceph e))) /\
          no_call (fun c => journal_write c || backing_call c) (trace_of run)
      end
  | _ =>
      result_of run = Err (status Internal (Error (ceph e))) /\
      no_call (fun c => journal_write c || backing_call c) (trace_of run)
  end.
Proof.
  intros run volID held. subst run volID held.
  hide_conclusion (DeleteVolume handle req cs b).
  unfold DeleteVolume. unfold_monad. cbn -[Ret].
  answer_call. destruct r as [verr|]; cbn -[Ret].
  { show_conclusion. intros Hobs; use_observed. }
  destruct (decide _) as [|Hfree]; cbn -[Ret].
  { show_conclusion. intros Hobs; use_observed. }
  answer_call. destruct o as [e0|]; cbn -[Ret].
  2: { (* the lookup succeeded *)
       repeat (first [answer_call | branch]; cbn -[Ret]);
       show_conclusion; intros Hobs; use_observed. }
  destruct e0 as [t txt]. destruct t; cbn -[Ret].
  all: repeat match goal with
       | |- context [not_nil (MetadataStore ?s)] => destruct (MetadataStore s); cbn -[Ret]
       | |- context [deleteVolumeDeprecated handle ?r ?c ?b] =>
           let E := fresh "Edep" in
           let F := fresh "Fdep" in
           pose proof (deleteVolumeDeprecated_frame r c b) as F;
           cbv zeta in F; unfold server_of, trace_of in F;
           destruct (deleteVolumeDeprecated handle r c b) as [[[? ?] ?] ?] eqn:E;
           cbn in F; destruct F as (_ & _ & F); cbn -[Ret]
       | |- context [decide (?k ∈ ?s)] => destruct (decide (k ∈ s)); cbn -[Ret]
       | _ => answer_call; cbn -[Ret]
       | _ => branch; cbn -[Ret]
       end.
  all: show_conclusion; rewrite ?app_nil_r; intros Hobs; use_observed; cbn.
  all: first
    [ split; [reflexivity | no_call_tac]
    | eexists; rewrite Edep; reflexivity
    | split; intros Hheld;
      first [ contradiction
            | split; [reflexivity | no_call_tac]
            | eexists; split; [in_trace | split; [reflexivity | no_call_tac] ] ] ].
Qed.

Lemma DeleteSnapshot_lookup_failure (req : DeleteSnapshotRequest)
    (cs : ControllerServer) (b : B) volOpt sid (e : cephError) :
  let run := DeleteSnapshot handle req cs b in
  observed snapshot_lookup_of (trace_of run) (ds_SnapshotId req, (volOpt, sid, Some e)) ->
  match errorType e with
  | ErrPoolNotFound | ErrKeyNotFound =>
      result_of run = Ok Build_DeleteSnapshotResponse /\
      no_call (fun c => journal_write c || backing_call c) (trace_of run)
  | ErrSnapNotFound =>
      exists r,
        In (Ev (undoSnapReservation volOpt sid (ds_Secrets req)) r) (trace_of run) /\
        result_of run = after_unreserve Build_DeleteSnapshotResponse r /\
        no_call backing_call (trace_of run)
  | _ =>
      result_of run = Err (status Internal (Error (ceph e))) /\
      no_call (fun c => journal_write c || backing_call c) (trace_of run)
  end.
Proof.
  intros run. subst run.
  hide_conclusion (DeleteSnapshot handle req cs b).
  unfold DeleteSnapshot. unfold_monad. cbn -[Ret].
  answer_call. destruct r as [verr|]; cbn -[Ret].
  { show_conclusion. intros Hobs; use_observed. }
  answer_call. destruct o as [e0|]; cbn -[Ret].
  { show_conclusion. intros Hobs; use_observed. }
  destruct (ds_SnapshotId req =? "")%string eqn:Hid; cbn -[Ret].
  { answer_call. cbn -[Ret]. show_conclusion. intros Hobs; use_observed. }
  destruct (decide _) as [|Hfree]; cbn -[Ret].
  { answer_call. cbn -[Ret]. show_conclusion. intros Hobs; use_observed. }
  answer_call. destruct o as [e0|]; cbn -[Ret].
  2: { repeat (first [answer_call | branch]; cbn -[Ret]);
       show_conclusion; intros Hobs; use_observed. }
  destruct e0 as [t txt]. destruct t; cbn -[Ret].
  all: repeat (first [answer_call | branch]; cbn -[Ret]).
  all: show_conclusion; intros Hobs; use_observed; cbn.
  all: first
    [ split; [reflexivity | no_call_tac]
    | eexists; split; [in_trace | split; [reflexivity | no_call_tac] ] ].
Qed.

(** C1 (as amended). A delete whose identifier lookup fails converges as
    follows. On [PoolNotFound] or [KeyNotFound] it returns success and makes
    no journal write and no backing-object call. [DeleteVolume] on
    [VolumeNotFound] first tries the lock of the request name: if it is
    held the request is aborted without an [Unreserve]; otherwise
    [Unreserve] runs and the request succeeds if [Unreserve] did and fails
    as internal if it did not. [DeleteSnapshot] on [SnapNotFound] runs
    [Unreserve] with the same two outcomes. [DeleteVolume] on [InvalidVolID]
    with a metadata store configured returns what the version-1.0.0 delete
    returns. Every other lookup error is an internal failure without journal
    write or backing-object call. *)
Theorem Delete_lookup_failure_classified :
  (forall (req : DeleteVolumeRequest) (cs : ControllerServer) (b : B)
          volOptions vID (e : cephError),
      let run := DeleteVolume handle req cs b in
      let held := {[dv_VolumeId req]} ∪ VolumeLocks cs in
      observed volume_lookup_of (trace_of run)
        (dv_VolumeId req, (volOptions, vID, Some e)) ->
      match errorType e with
      | ErrPoolNotFound | ErrKeyNotFound =>
          result_of run = Ok Build_DeleteVolumeResponse /\
          no_call (fun c => journal_write c || backing_call c) (trace_of run)
      | ErrVolumeNotFound =>
          (RequestName volOptions ∈ held ->
           result_of run
           = Err (status_Errorf Aborted VolumeOperationAlreadyExistsFmt
                    (RequestName volOptions)) /\
           no_call (fun c => journal_write c || backing_call c) (trace_of run)) /\
          (RequestName volOptions ∉ held ->
           exists r,
             In (Ev (undoVolReservation volOptions vID (dv_Secrets req)) r) (trace_of run) /\
             result_of run = after_unreserve Build_DeleteVolumeResponse r /\
             no_call backing_call (trace_of run))
      | ErrInvalidVolID =>
          match MetadataStore cs with
          | Some _ =>
              exists b',
                result_of run
                = result_of (deleteVolumeDeprecated handle req
                               (with_VolumeLocks held cs) b')
          | None =>
              result_of run = Err (status Internal (Error (ceph e))) /\
              no_call (fun c => journal_write c || backing_call c) (trace_of run)
          end
      | _ =>
          result_of run = Err (status Internal (Error (ceph e))) /\
          no_call (fun c => journal_write c || backing_call c) (trace_of run)
      end) /\
  (forall (req : DeleteSnapshotRequest) (cs : ControllerServer) (b : B)
          volOpt sid (e : cephError),
      let run := DeleteSnapshot handle req cs b in
      observed snapshot_lookup_of (trace_of run)
        (ds_SnapshotId req, (volOpt, sid, Some e)) ->
      match errorType e with
      | ErrPoolNotFound | ErrKeyNotFound =>
          result_of run = Ok Build_DeleteSnapshotResponse /\
          no_call (fun c => journal_write c || backing_call c) (trace_of run)
      | ErrSnapNotFound =>
          exists r,
            In (Ev (undoSnapReservation volOpt sid (ds_Secrets req)) r) (trace_of run) /\
            result_of run = after_unreserve Build_DeleteSnapshotResponse r /\
            no_call backing_call (trace_of run)
      | _ =>
          result_of run = Err (status Internal (Error (ceph e))) /\
          no_call (fun c => journal_write c || backing_call c) (trace_of run)
      end).
Proof.
  split; intros.
  - apply DeleteVolume_lookup_failure. assumption.
  - apply DeleteSnapshot_lookup_failure. assumption.
Qed.

(** ** Locks held when an operation returns *)

Ltac locks_tac :=
  unfold locks_restored; cbn;
  rewrite ?Release_acquired_both by assumption;
  rewrite ?Release_acquired by assumption;
  split; reflexivity.

Lemma CreateVolume_releases_locks (req : CreateVolumeRequest)
    (cs : ControllerServer) (b : B) :
  locks_restored cs (server_of (CreateVolume handle RoundOffBytes req cs b)).
Proof. explore_CreateVolume. all: locks_tac. Qed.

Lemma ControllerExpandVolume_releases_locks (req : ControllerExpandVolumeRequest)
    (cs : ControllerServer) (b : B) :
  locks_restored cs (server_of (ControllerExpandVolume handle RoundOffBytes req cs b)).
Proof. unfold ControllerExpandVolume. explore. all: locks_tac. Qed.

Lemma CreateSnapshot_releases_locks (req : CreateSnapshotRequest)
    (cs : ControllerServer) (b : B) :
  locks_restored cs (server_of (CreateSnapshot handle req cs b)).
Proof.
  unfold CreateSnapshot, validateSnapshotReq, doSnapshot. explore. all: locks_tac.
Qed.

Lemma DeleteSnapshot_releases_locks (req : DeleteSnapshotRequest)
    (cs : ControllerServer) (b : B) :
  locks_restored cs (server_of (DeleteSnapshot handle req cs b)).
Proof. unfold DeleteSnapshot. explore. all: locks_tac. Qed.

(** X1. [DeleteVolume], whenever its lookup succeeds and it takes the lock
    of the request name, returns with that lock still held: the lock
    registry then holds the request name on top of what it held before. *)
Lemma DeleteVolume_keeps_name_lock (req : DeleteVolumeRequest)
    (cs : ControllerServer) (b : B) volOptions vID :
  let run := DeleteVolume handle req cs b in
  observed volume_lookup_of (trace_of run) (dv_VolumeId req, (volOptions, vID, None)) ->
  RequestName volOptions ∉ {[dv_VolumeId req]} ∪ VolumeLocks cs ->
  VolumeLocks (server_of run) = {[RequestName volOptions]} ∪ VolumeLocks cs.
Proof.
  intros run. subst run.
  hide_conclusion (DeleteVolume handle req cs b).
  unfold DeleteVolume. unfold_monad. cbn -[Ret].
  answer_call. destruct r as [verr|]; cbn -[Ret].
  { show_conclusion. intros Hobs; use_observed. }
  destruct (decide _) as [|Hfree]; cbn -[Ret].
  { show_conclusion. intros Hobs; use_observed. }
  answer_call. destruct o as [e0|]; cbn -[Ret].
  { repeat match goal with
       | |- context [deleteVolumeDeprecated handle ?r ?c ?b] =>
           let F := fresh "Fdep" in
           pose proof (deleteVolumeDeprecated_frame r c b) as F;
           cbv zeta in F; unfold server_of, trace_of in F;
           destruct (deleteVolumeDeprecated handle r c b) as [[[? ?] ?] ?];
           cbn in F; destruct F as (_ & _ & F); cbn -[Ret]
       | _ => answer_call; cbn -[Ret]
       | _ => branch; cbn -[Ret]
       end.
    all: show_conclusion; rewrite ?app_nil_r; intros Hobs; use_observed. }
  repeat (first [answer_call | branch]; cbn -[Ret]).
  all: show_conclusion; intros Hobs Hname; use_observed; try contradiction.
  all: apply Release_first_twice; assumption.
Qed.

(** ** Rollback of clone-from-volume *)

(** Whenever [cloneSnapshot] fails in [createCloneFromSubvolume], its error
    is returned and the run calls neither [unprotectSnapshot] nor
    [purgeVolume]. *)
Lemma createCloneFromSubvolume_failed_clone volID cloneID volOpt cr cs b
    (e : cephError) :
  let run := createCloneFromSubvolume handle volID cloneID volOpt cr cs b in
  observed cloneSnapshot_of (trace_of run) (Some e) ->
  result_of run = Some e /\ no_call unprotect_or_purge (trace_of run).
Proof.
  intros run. subst run. unfold createCloneFromSubvolume.
  explore; intros Hobs; use_observed.
  all: split; [reflexivity | no_call_tac].
Qed.


(** * Further properties of the controller *)

Lemma errType_eqb_true (a b : errType) : errType_eqb a b = true -> a = b.
Proof. destruct a, b; cbn; congruence. Qed.

Lemma calls_of_app (tr1 tr2 : list Event) :
  calls_of (tr1 ++ tr2) = calls_of tr1 ++ calls_of tr2.
Proof. apply List.map_app. Qed.

(** [use_observed], also taking apart equations between calls. *)
Ltac use_observed' := repeat (use_observed; simplify_eq).

(** ** Locks *)

(** X2. [CreateVolume], [ControllerExpandVolume], [CreateSnapshot] and
    [DeleteSnapshot] return, on every path, with both lock registries
    holding exactly the keys they held when the operation started. *)
Theorem operations_release_locks :
  (forall req cs b,
      locks_restored cs (server_of (CreateVolume handle RoundOffBytes req cs b))) /\
  (forall req cs b,
      locks_restored cs (server_of (ControllerExpandVolume handle RoundOffBytes req cs b))) /\
  (forall req cs b, locks_restored cs (server_of (CreateSnapshot handle req cs b))) /\
  (forall req cs b, locks_restored cs (server_of (DeleteSnapshot handle req cs b))).
Proof.
  split; [exact CreateVolume_releases_locks|].
  split; [exact ControllerExpandVolume_releases_locks|].
  split; [exact CreateSnapshot_releases_locks | exact DeleteSnapshot_releases_locks].
Qed.

(** X3. An operation that finds its lock held by another operation is
    aborted at once: [DeleteVolume] and [ControllerExpandVolume] on the
    volume id, [CreateSnapshot] on the request name, [DeleteSnapshot] on the
    snapshot id. It has made no call but those before the lock (request
    validation and, for [DeleteSnapshot], the credentials it obtains and
    deletes) and leaves the server as it was. *)
Theorem lock_contention_aborts :
  (forall (req : DeleteVolumeRequest) (cs : ControllerServer) (b : B),
      let run := DeleteVolume handle req cs b in
      dv_VolumeId req ∈ VolumeLocks cs ->
      fst (handle validateDeleteVolumeRequest b) = None ->
      result_of run
      = Err (status_Errorf Aborted VolumeOperationAlreadyExistsFmt (dv_VolumeId req)) /\
      calls_of (trace_of run) = [validateDeleteVolumeRequest] /\
      server_of run = cs) /\
  (forall (req : ControllerExpandVolumeRequest) (cs : ControllerServer) (b : B),
      let run := ControllerExpandVolume handle RoundOffBytes req cs b in
      ev_VolumeId req ∈ VolumeLocks cs ->
      fst (handle (validateExpandVolumeRequest req) b) = None ->
      result_of run
      = Err (status_Errorf Aborted VolumeOperationAlreadyExistsFmt (ev_VolumeId req)) /\
      calls_of (trace_of run) = [validateExpandVolumeRequest req] /\
      server_of run = cs) /\
  (forall (req : CreateSnapshotRequest) (cs : ControllerServer) (b : B),
      let run := CreateSnapshot handle req cs b in
      cs_Name req ∈ SnapshotLocks cs ->
      result_of (validateSnapshotReq handle req cs b) = None ->
      result_of run
      = Err (status_Errorf Aborted SnapshotOperationAlreadyExistsFmt (cs_Name req)) /\
      calls_of (trace_of run)
      = [ValidateControllerServiceRequest RPC_CREATE_DELETE_SNAPSHOT] /\
      server_of run = cs) /\
  (forall (req : DeleteSnapshotRequest) (cs : ControllerServer) (b : B) (cr : Credentials),
      let run := DeleteSnapshot handle req cs b in
      ds_SnapshotId req ∈ SnapshotLocks cs ->
      ds_SnapshotId req <> "" ->
      fst (handle (ValidateControllerServiceRequest RPC_CREATE_DELETE_SNAPSHOT) b) = None ->
      observed NewAdminCredentials_of (trace_of run) (cr, None) ->
      result_of run
      = Err (status_Errorf Aborted SnapshotOperationAlreadyExistsFmt (ds_SnapshotId req)) /\
      calls_of (trace_of run)
      = [ ValidateControllerServiceRequest RPC_CREATE_DELETE_SNAPSHOT;
          NewAdminCredentials (ds_Secrets req); DeleteCredentials cr ] /\
      server_of run = cs).
Proof.
  split; [|split; [|split] ].
  - intros req cs b run. subst run. unfold DeleteVolume. unfold_monad. cbn -[Ret].
    answer_call. destruct r; cbn; intros Hheld Hvalid; [discriminate Hvalid|].
    destruct (decide _); [|contradiction]. cbn.
    repeat split. destruct cs; reflexivity.
  - intros req cs b run. subst run. unfold ControllerExpandVolume. unfold_monad. cbn -[Ret].
    answer_call. destruct r; cbn; intros Hheld Hvalid; [discriminate Hvalid|].
    destruct (decide _); [|contradiction]. cbn.
    repeat split. destruct cs; reflexivity.
  - intros req cs b run. subst run. unfold CreateSnapshot, validateSnapshotReq.
    unfold_monad. cbn -[Ret].
    answer_call. destruct r; cbn; intros Hheld Hvalid; [discriminate Hvalid|].
    destruct (cs_Name req =? "")%string; [discriminate Hvalid|].
    destruct (SourceVolumeId req =? "")%string; [discriminate Hvalid|]. cbn.
    destruct (decide _); [|contradiction]. cbn.
    repeat split. destruct cs; reflexivity.
  - intros req cs b cr run. subst run. unfold DeleteSnapshot. unfold_monad. cbn -[Ret].
    answer_call. destruct r; cbn -[Ret]; intros Hheld Hid Hvalid; [discriminate Hvalid|].
    answer_call. destruct o; cbn -[Ret]; [intros Hobs; use_observed|].
    apply String.eqb_neq in Hid. rewrite Hid. cbn -[Ret].
    destruct (decide _); [|contradiction]. cbn -[Ret].
    answer_call. cbn. intros Hobs; use_observed.
    repeat split. destruct cs; reflexivity.
Qed.

(** ** CreateVolume *)

(** X4. Once the request has passed validation, [CreateVolume] answers
    [Aborted] in two cases only, both of which ask the caller to retry: the
    lock of the request name was held by another operation, or the clone
    that backs the volume is still in progress. *)
Theorem CreateVolume_aborted (req : CreateVolumeRequest) (cs : ControllerServer) (b : B)
    (m : message) :
  let run := CreateVolume handle RoundOffBytes req cs b in
  fst (handle (validateCreateVolumeRequest req) b) = None ->
  result_of run = Err (status Aborted m) ->
  (Name req ∈ VolumeLocks cs /\ m = Errorf VolumeOperationAlreadyExistsFmt (Name req)) \/
  (exists e : cephError, m = Error (ceph e) /\ errorType e = ErrCloneInProgress).
Proof.
  intros run. subst run. explore_CreateVolume.
  all: intros Hvalid Hres; try discriminate Hvalid; try discriminate Hres.
  all: try match goal with
       | H : errors_As ?e ErrCloneInProgress = true |- _ =>
           apply errors_As_ceph in H; destruct H as (? & -> & ?)
       end.
  all: try match goal with
       | H : errType_eqb _ ErrCloneInProgress = true |- _ => apply errType_eqb_true in H
       end.
  all: try (injection Hres as <-; right; eexists; split; [reflexivity|assumption]).
  all: try (injection Hres as <-; left; split; [assumption|reflexivity]).
  all: try match goal with
       | H : forall m, Some ?e <> Some (status Aborted m),
         Hres : Err ?e = Err (status Aborted _) |- _ =>
           exfalso; injection Hres as ->; eapply H; reflexivity
       end.
Qed.

(** X5. A successful [CreateVolume] answers with the identifier that the
    lookup by name found or that the reservation made: the volume id is
    that identifier's, the volume context is the request's parameters with
    [subvolumeName] set to its subvolume, and the content source is the
    request's. When the request gives a capacity range, the capacity
    reported is [RoundOffBytes] of the required bytes, also when an existing
    volume is returned. *)
Theorem CreateVolume_response (req : CreateVolumeRequest) (cs : ControllerServer) (b : B)
    (resp : CreateVolumeResponse) :
  let run := CreateVolume handle RoundOffBytes req cs b in
  result_of run = Ok resp ->
  exists vID,
    (observed checkVolExists_of (trace_of run) (Some vID, None) \/
     exists volOptions, observed reserveVol_of (trace_of run) (volOptions, (vID, None))) /\
    VolumeId (Volume_ resp) = VolumeID vID /\
    VolumeContext (Volume_ resp) !! "subvolumeName" = Some (FsSubvolName vID) /\
    (forall key, key <> "subvolumeName" ->
       VolumeContext (Volume_ resp) !! key = Parameters req !! key) /\
    ContentSource (Volume_ resp) = volume_content_source req /\
    (forall cr, capacity_range req = Some cr ->
       CapacityBytes (Volume_ resp) = RoundOffBytes (RequiredBytes cr)).
Proof.
  intros run. subst run. explore_CreateVolume.
  all: intros Hres; try discriminate Hres; injection Hres as <-.
  all: eexists; split; [|split; [reflexivity|split; [|split; [|split; [reflexivity|] ] ] ] ].
  all: cbn.
  all: try (apply lookup_insert_eq).
  all: try (intros key Hkey; apply lookup_insert_ne; congruence).
  all: try (intros cr0 Hcr; rewrite Hcr; reflexivity).
  all: try (left; show_observed; fail).
  all: right; eexists; show_observed.
Qed.

(** X6. [CreateVolume] touches no backing object before it holds a
    reservation: every backing-object call of a run comes after a
    [reserveVol] that succeeded. A run that succeeds makes no [Unreserve]
    call. *)
Theorem CreateVolume_reserves_first (req : CreateVolumeRequest) (cs : ControllerServer)
    (b : B) :
  let run := CreateVolume handle RoundOffBytes req cs b in
  (forall before ev after,
      trace_of run = before ++ ev :: after ->
      is_call backing_call ev = true ->
      exists volOptions vID, observed reserveVol_of before (volOptions, (vID, None))) /\
  (forall resp, result_of run = Ok resp -> no_call is_unreserve (trace_of run)).
Proof.
  intros run. subst run. explore_CreateVolume.
  all: rewrite ?app_nil_r.
  all: split; [intros before ev after Htrace Hbacking | intros resp Hres; try discriminate Hres].
  all: try (no_call_tac; fail).
  all: try (repeat (destruct before as [|? before];
                    [ cbn in Htrace; try discriminate Htrace;
                      injection Htrace as <- <-; cbn in Hbacking; discriminate Hbacking
                    | cbn in Htrace; try discriminate Htrace; injection Htrace as <- Htrace ]);
            fail).
  all: try (do 4 (destruct before as [|? before];
                    [ cbn in Htrace; try discriminate Htrace;
                      injection Htrace as <- <-; cbn in Hbacking; discriminate Hbacking
                    | cbn in Htrace; try discriminate Htrace; injection Htrace as <- Htrace ]);
            do 2 eexists; eexists; split; [do 3 right; left; reflexivity | reflexivity]).
  all: unfold no_call; repeat (constructor; [reflexivity|]).
  all: try match goal with N : no_call not_by_createBackingVolume _ |- _ =>
         revert N; apply no_call_weaken; intros [] Hc; cbn in *; congruence
       end.
Qed.

(** ** createBackingVolume *)


(** X8. How [createBackingVolume] reports a content source it cannot look
    up. A snapshot source whose lookup fails gives [NotFound] when the error
    is [ErrSnapNotFound] and [Internal] otherwise. A volume source whose
    lookup fails gives [Internal] when the error is [ErrVolumeNotFound] and
    [NotFound] otherwise. In both cases no backing-object call is made. *)
Theorem createBackingVolume_source_lookup_failure (req : CreateVolumeRequest)
    (volOptions : volumeOptions) (vID : volumeIdentifier) (secret : gmap string string)
    (cs : ControllerServer) (b : B) :
  let run := createBackingVolume handle req volOptions vID secret cs b in
  (forall id vo sid (e : cephError),
      observed snapshot_lookup_of (trace_of run) (id, (vo, sid, Some e)) ->
      result_of run
      = Some (status (if errors_As e ErrSnapNotFound then NotFound else Internal)
                (Error (ceph e))) /\
      no_call backing_call (trace_of run)) /\
  (forall id vo pvID (e : cephError),
      observed volume_lookup_of (trace_of run) (id, (vo, pvID, Some e)) ->
      result_of run
      = Some (status (if errors_As e ErrVolumeNotFound then Internal else NotFound)
                (Error (ceph e))) /\
      no_call backing_call (trace_of run)).
Proof.
  intros run. subst run. unfold createBackingVolume, createCloneFromSubvolume. explore.
  all: split; [intros id0 vo0 sid0 e0 Hobs | intros id0 vo0 pvID0 e0 Hobs].
  all: use_observed.
  all: cbn; match goal with H : errType_eqb _ _ = _ |- _ => rewrite H end.
  all: split; [reflexivity | no_call_tac].
Qed.

(** ** DeleteVolume *)

(** X9. [DeleteVolume] never deletes a volume of plugin version 1.0.0: no
    run calls [purgeVolumeDeprecated], [deleteCephUserDeprecated] or
    [MetadataStore.Delete]. When the version-1.0.0 path finds the metadata
    of a provisioned volume and obtains credentials, it asks for the lock on
    the volume id, which [DeleteVolume] itself holds, and the request is
    aborted. *)
Theorem DeleteVolume_never_deletes_deprecated (req : DeleteVolumeRequest)
    (cs : ControllerServer) (b : B) :
  let run := DeleteVolume handle req cs b in
  no_call deprecated_delete (trace_of run) /\
  (forall ce cr,
      observed MetadataStore_Get_of (trace_of run) (ce, None) ->
      ProvisionVolume (VolOptions ce) = true ->
      observed NewAdminCredentials_of (trace_of run) (cr, None) ->
      result_of run
      = Err (status_Errorf Aborted VolumeOperationAlreadyExistsFmt (dv_VolumeId req))).
Proof.
  intros run. subst run. unfold DeleteVolume, deleteVolumeDeprecated.
  unfold_monad; cbn -[Ret].
  repeat (first
    [ answer_call
    | match goal with
      | |- context [decide (?k ∈ {[?k]} ∪ ?s)] =>
          destruct (decide (k ∈ {[k]} ∪ s)) as [?|Hout]; [|exfalso; apply Hout; set_solver]
      end
    | branch ]; cbn -[Ret]); try discriminate.
  all: split; [no_call_tac | intros ce0 cr0 Hget Hprov Hcred; use_observed; try congruence].
Qed.

(** X10. [DeleteVolume] on a volume that the lookup finds. If it succeeds,
    its calls were exactly: validation, lookup, credentials, [purgeVolume]
    of the subvolume (which succeeded or said the subvolume is already
    gone), [undoVolReservation] (which succeeded), [DeleteCredentials]. The
    journal entry is given up only after such a purge, and the result is
    then decided by the [Unreserve]. *)
Theorem DeleteVolume_found_volume (req : DeleteVolumeRequest) (cs : ControllerServer)
    (b : B) (volOptions : volumeOptions) (vID : volumeIdentifier) :
  let run := DeleteVolume handle req cs b in
  let gone (p : option cephError) :=
    match p with
    | None => True
    | Some e => errorType e = ErrVolumeNotFound
    end in
  observed volume_lookup_of (trace_of run) (dv_VolumeId req, (volOptions, vID, None)) ->
  (result_of run = Ok Build_DeleteVolumeResponse ->
   exists cr p,
     gone p /\
     trace_of run
     = [ Ev validateDeleteVolumeRequest None;
         Ev (newVolumeOptionsFromVolID (dv_VolumeId req) (dv_Secrets req))
            (volOptions, vID, None);
         Ev (NewAdminCredentials (dv_Secrets req)) (cr, None);
         Ev (purgeVolume (FsSubvolName vID) cr volOptions) p;
         Ev (undoVolReservation volOptions vID (dv_Secrets req)) None;
         Ev (DeleteCredentials cr) tt ]) /\
  (forall r,
      observed unreserve_of (trace_of run) r ->
      exists cr p,
        gone p /\
        observed outcome_of (trace_of run) (purgeVolume (FsSubvolName vID) cr volOptions, p) /\
        result_of run = after_unreserve Build_DeleteVolumeResponse r).
Proof.
  intros run gone. subst run gone.
  hide_conclusion (DeleteVolume handle req cs b).
  unfold DeleteVolume. unfold_monad. cbn -[Ret].
  answer_call. destruct r as [verr|]; cbn -[Ret].
  { show_conclusion. intros Hobs; use_observed. }
  destruct (decide _) as [|Hfree]; cbn -[Ret].
  { show_conclusion. intros Hobs; use_observed. }
  answer_call. destruct o as [e0|]; cbn -[Ret].
  { repeat match goal with
       | |- context [deleteVolumeDeprecated handle ?r ?c ?b] =>
           let F := fresh "Fdep" in
           pose proof (deleteVolumeDeprecated_frame r c b) as F;
           cbv zeta in F; unfold server_of, trace_of in F;
           destruct (deleteVolumeDeprecated handle r c b) as [[[? ?] ?] ?];
           cbn in F; destruct F as (_ & _ & F); cbn -[Ret]
       | _ => answer_call; cbn -[Ret]
       | _ => branch; cbn -[Ret]
       end.
    all: show_conclusion; rewrite ?app_nil_r; intros Hobs; use_observed. }
  repeat (first [answer_call | branch]; cbn -[Ret]).
  all: show_conclusion; intros Hobs; use_observed.
  all: split; [intros Hres; try discriminate Hres | intros r0 Hun; use_observed].
  all: repeat match goal with u : unit |- _ => destruct u end.
  all: try (do 2 eexists; split; [|reflexivity]; cbn;
            first [exact I | apply errType_eqb_true; assumption]).
  all: do 2 eexists; split; [|split; [show_observed|reflexivity] ];
       cbn; first [exact I | apply errType_eqb_true; assumption].
Qed.

Lemma length_positive (s : string) :
  Z.ltb 0 (Z.of_nat (String.length s)) = true <-> s <> "".
Proof.
  destruct s; cbn; [split; [discriminate | congruence]|].
  split; [discriminate | reflexivity].
Qed.

(** X11. [deleteVolumeDeprecated] on its own. When the metadata store has
    no entry for the volume (or fails), and when the volume was provisioned
    statically, the store lookup is the only call, and the answer is success
    except for a store failure other than [CacheEntryNotFound]. A delete
    that succeeds for a provisioned volume has called, in this order and
    nothing else of the kind, [purgeVolumeDeprecated],
    [deleteCephUserDeprecated] and [MetadataStore.Delete], with the stored
    volume options in which the monitors are replaced by those of the
    secrets when the secrets give any. The entry is deleted from the store
    only after the other two calls succeeded. The lock registries are left
    as they were. *)
Theorem deleteVolumeDeprecated_outcomes (req : DeleteVolumeRequest) (cs : ControllerServer)
    (b : B) :
  let run := deleteVolumeDeprecated handle req cs b in
  let volID := dv_VolumeId req in
  (forall ce (e : cephError),
      observed MetadataStore_Get_of (trace_of run) (ce, Some e) ->
      result_of run
      = (if errType_eqb (errorType e) CacheEntryNotFound
         then Ok Build_DeleteVolumeResponse
         else Err (status Internal (Error (ceph e)))) /\
      calls_of (trace_of run) = [MetadataStore_Get volID]) /\
  (forall ce,
      observed MetadataStore_Get_of (trace_of run) (ce, None) ->
      ProvisionVolume (VolOptions ce) = false ->
      result_of run = Ok Build_DeleteVolumeResponse /\
      calls_of (trace_of run) = [MetadataStore_Get volID]) /\
  (forall ce,
      observed MetadataStore_Get_of (trace_of run) (ce, None) ->
      result_of run = Ok Build_DeleteVolumeResponse ->
      ProvisionVolume (VolOptions ce) = true ->
      exists cr mon secretsErr volOptions,
        observed GetMonValFromSecret_of (trace_of run) (mon, secretsErr) /\
        (secretsErr = None -> mon <> "" -> volOptions = with_Monitors mon (VolOptions ce)) /\
        (secretsErr <> None \/ mon = "" -> volOptions = VolOptions ce) /\
        List.filter deprecated_delete (calls_of (trace_of run))
        = [ purgeVolumeDeprecated volID cr volOptions;
            deleteCephUserDeprecated volOptions cr volID;
            MetadataStore_Delete volID ]) /\
  (forall r,
      observed outcome_of (trace_of run) (MetadataStore_Delete volID, r) ->
      exists cr volOptions,
        observed outcome_of (trace_of run) (purgeVolumeDeprecated volID cr volOptions, None) /\
        observed outcome_of (trace_of run)
          (deleteCephUserDeprecated volOptions cr volID, None)) /\
  locks_restored cs (server_of run).
Proof.
  intros run volID. subst run volID. unfold deleteVolumeDeprecated.
  explore.
  all: split; [intros ce0 e0 Hobs; use_observed
       | split; [intros ce0 Hobs Hstatic; use_observed
       | split; [intros ce0 Hobs Hres Hprov; use_observed; try discriminate Hres
       | split; [intros r0 Hobs; use_observed'
                | try locks_tac ] ] ] ].
  all: try (cbn in *; congruence).
  all: try match goal with
       | H : errType_eqb _ _ = _ |- _ => cbn; rewrite H; split; reflexivity
       end.
  all: try (split; reflexivity).
  all: try (do 2 eexists; split; show_observed).
  all: try (split; destruct cs; reflexivity).
  all: do 4 eexists; split; [show_observed|split; [|split; [|reflexivity] ] ].
  all: try (intros Hok Hmon; try discriminate Hok; apply length_positive in Hmon;
            cbn in *; try congruence; reflexivity).
  all: try (intros [Herr|Hmon]; try congruence;
            try match goal with H : (0 <? _) = true |- _ =>
                  apply length_positive in H; congruence end; reflexivity).
Qed.

(** ** ControllerExpandVolume *)

(** X12. A [ControllerExpandVolume] that reports a failure has resized
    nothing: no [resizeVolume] call of the run succeeded. In every run, a
    failed lookup of the volume makes the operation fail with
    [InvalidArgument], without any backing-object call. No run, failing or
    not, writes to the journal. *)
Theorem ControllerExpandVolume_failure (req : ControllerExpandVolumeRequest)
    (cs : ControllerServer) (b : B) :
  let run := ControllerExpandVolume handle RoundOffBytes req cs b in
  (forall err : error,
      result_of run = Err err ->
      forall volID size, ~ observed resizeVolume_of (trace_of run) (volID, size, None)) /\
  (forall volOptions vID (e : cephError),
      observed volume_lookup_of (trace_of run) (ev_VolumeId req, (volOptions, vID, Some e)) ->
      result_of run = Err (status InvalidArgument (Error (ceph e))) /\
      no_call backing_call (trace_of run)) /\
  no_call journal_write (trace_of run).
Proof.
  intros run. subst run. unfold ControllerExpandVolume.
  explore.
  all: split; [intros err0 Hres volID0 size0 Hobs; try discriminate Hres; use_observed
              | split; [intros vo0 vID0 e0 Hobs; use_observed | no_call_tac] ].
  all: split; [reflexivity | no_call_tac].
Qed.

(** ** CreateSnapshot *)

(** X13. A [CreateSnapshot] request with an empty name or an empty source
    volume id is rejected as [InvalidArgument] (the name is checked first)
    once the capability check has passed; nothing else is called and the
    server is left as it was. *)
Theorem CreateSnapshot_empty_fields (req : CreateSnapshotRequest)
    (cs : ControllerServer) (b : B) :
  let run := CreateSnapshot handle req cs b in
  fst (handle (ValidateControllerServiceRequest RPC_CREATE_DELETE_SNAPSHOT) b) = None ->
  cs_Name req = "" \/ SourceVolumeId req = "" ->
  result_of run
  = Err (status InvalidArgument
           (Text (if String.eqb (cs_Name req) ""
                  then "snapshot Name cannot be empty"
                  else "source Volume ID cannot be empty"))) /\
  calls_of (trace_of run) = [ValidateControllerServiceRequest RPC_CREATE_DELETE_SNAPSHOT] /\
  server_of run = cs.
Proof.
  intros run. subst run. unfold CreateSnapshot, validateSnapshotReq.
  unfold_monad. cbn -[Ret].
  answer_call. destruct r; cbn; intros Hvalid Hempty; [discriminate Hvalid|].
  destruct (cs_Name req =? "")%string eqn:Hname; cbn; [repeat split|].
  destruct Hempty as [Hempty|Hempty].
  { rewrite Hempty in Hname. discriminate Hname. }
  rewrite Hempty. cbn. repeat split.
Qed.

(** X14. A [CreateSnapshot] that fails leaves nothing half done: if it had
    reserved a snapshot identifier it has called [undoSnapReservation] for
    it, and if it had created the backing snapshot it has called
    [deleteSnapshot] on it. *)
Theorem CreateSnapshot_rollback (req : CreateSnapshotRequest) (cs : ControllerServer)
    (b : B) (err : error) :
  let run := CreateSnapshot handle req cs b in
  result_of run = Err err ->
  (forall volOptions subvol sID,
      observed reserveSnap_of (trace_of run) (volOptions, subvol, (sID, None)) ->
      exists r,
        observed outcome_of (trace_of run)
          (undoSnapReservation volOptions sID (cs_Secrets req), r)) /\
  (forall volOptions cr snap vol,
      observed outcome_of (trace_of run) (createSnapshot volOptions cr snap vol, None) ->
      exists r,
        observed outcome_of (trace_of run) (deleteSnapshot volOptions cr snap vol, r)).
Proof.
  intros run. subst run. unfold CreateSnapshot, validateSnapshotReq, doSnapshot.
  explore; intros Hres; try discriminate Hres.
  all: split; [intros vo0 sv0 sID0 Hobs | intros vo0 cr0 snap0 vol0 Hobs].
  all: use_observed'.
  all: eexists; show_observed.
Qed.

(** X15. A [CreateSnapshot] that succeeds for a name without a snapshot
    has looked up the source volume, reserved an identifier under the
    request name, created the backing snapshot of the source subvolume under
    the reserved name and protected it; it has deleted no snapshot and given
    up no reservation, and it answers with the reserved snapshot id and the
    source volume id of the request. *)
Theorem CreateSnapshot_fresh_snapshot (req : CreateSnapshotRequest) (cs : ControllerServer)
    (b : B) (resp : CreateSnapshotResponse) :
  let run := CreateSnapshot handle req cs b in
  result_of run = Ok resp ->
  observed checkSnapExists_of (trace_of run) (None, None) ->
  exists parentVolOptions vid sID cr,
    let volOptions := with_RequestName (cs_Name req) parentVolOptions in
    observed volume_lookup_of (trace_of run)
      (SourceVolumeId req, (parentVolOptions, vid, None)) /\
    observed reserveSnap_of (trace_of run) (volOptions, FsSubvolName vid, (sID, None)) /\
    observed outcome_of (trace_of run)
      (createSnapshot volOptions cr (FsSnapshotName sID) (FsSubvolName vid), None) /\
    observed outcome_of (trace_of run)
      (protectSnapshot volOptions cr (FsSnapshotName sID) (FsSubvolName vid), None) /\
    no_call snapshot_undo (trace_of run) /\
    SnapshotId (Snapshot_ resp) = SnapshotID sID /\
    snap_SourceVolumeId (Snapshot_ resp) = SourceVolumeId req.
Proof.
  intros run. subst run. unfold CreateSnapshot, validateSnapshotReq, doSnapshot.
  explore; intros Hres Hobs; try discriminate Hres; use_observed.
  all: injection Hres as <-.
  all: do 4 eexists; cbv zeta.
  all: split; [show_observed|split; [show_observed|split; [show_observed|split; [show_observed|] ] ] ].
  all: split; [no_call_tac | split; reflexivity].
Qed.


(** ** DeleteSnapshot *)

(** X17. A [DeleteSnapshot] request with an empty snapshot id never
    succeeds. It takes no lock and makes no journal lookup, journal write or
    backing-object call; once it has obtained credentials it deletes them
    again and answers [InvalidArgument]. *)
Theorem DeleteSnapshot_empty_id (req : DeleteSnapshotRequest) (cs : ControllerServer)
    (b : B) :
  let run := DeleteSnapshot handle req cs b in
  ds_SnapshotId req = "" ->
  (forall resp, result_of run <> Ok resp) /\
  (forall cr,
      observed NewAdminCredentials_of (trace_of run) (cr, None) ->
      result_of run
      = Err (status InvalidArgument (Text "snapshot ID cannot be empty")) /\
      calls_of (trace_of run)
      = [ ValidateControllerServiceRequest RPC_CREATE_DELETE_SNAPSHOT;
          NewAdminCredentials (ds_Secrets req); DeleteCredentials cr ]) /\
  no_call (fun c => is_identifier_lookup c || journal_write c || backing_call c)
    (trace_of run) /\
  server_of run = cs.
Proof.
  intros run Hid. subst run. unfold DeleteSnapshot. rewrite Hid.
  explore.
  all: split; [intros resp; discriminate
              | split; [intros cr0 Hobs; use_observed; split; reflexivity
                       | split; [no_call_tac | destruct cs; reflexivity] ] ].
Qed.

(** X18. [DeleteSnapshot] on a snapshot that the lookup finds works in
    order: the snapshot is deleted only after it was unprotected, and the
    reservation is given up only after the snapshot was deleted; the result
    is then decided by the [Unreserve]. A run that succeeds has made a
    successful [Unreserve]. *)
Theorem DeleteSnapshot_found_snapshot (req : DeleteSnapshotRequest) (cs : ControllerServer)
    (b : B) (volOpt : volumeOptions) (sid : snapshotIdentifier) :
  let run := DeleteSnapshot handle req cs b in
  observed snapshot_lookup_of (trace_of run) (ds_SnapshotId req, (volOpt, sid, None)) ->
  (forall r,
      observed unreserve_of (trace_of run) r ->
      result_of run = after_unreserve Build_DeleteSnapshotResponse r /\
      exists cr,
        observed outcome_of (trace_of run)
          (deleteSnapshot volOpt cr (FsSnapshotName sid) (FsSubVolumeName sid), None)) /\
  (forall vo cr snap vol r,
      observed outcome_of (trace_of run) (deleteSnapshot vo cr snap vol, r) ->
      observed outcome_of (trace_of run)
        (unprotectSnapshot volOpt cr (FsSnapshotName sid) (FsSubVolumeName sid), None)) /\
  (result_of run = Ok Build_DeleteSnapshotResponse ->
   observed unreserve_of (trace_of run) None).
Proof.
  intros run. subst run. unfold DeleteSnapshot.
  explore; intros Hobs; use_observed.
  all: split; [intros r0 Hun; use_observed
              | split; [intros vo0 cr0 snap0 vol0 r0 Hdel; use_observed'
                       | intros Hres; try discriminate Hres] ].
  all: try show_observed.
  all: split; [reflexivity | eexists; show_observed].
Qed.

(** ** Admin credentials *)

Lemma createBackingVolume_credentials req volOptions vID secret cs b :
  credentials_balanced (trace_of (createBackingVolume handle req volOptions vID secret cs b)).
Proof.
  unfold createBackingVolume, createCloneFromSubvolume, credentials_balanced.
  explore. all: reflexivity.
Qed.

Ltac run_createBackingVolume_credentials :=
  match goal with
  | |- context [createBackingVolume handle ?req ?vo ?vid ?sec ?cs ?b] =>
      let H := fresh "Hframe" in
      let Hc := fresh "Hcreds" in
      pose proof (createBackingVolume_frame req vo vid sec cs b) as H;
      pose proof (createBackingVolume_credentials req vo vid sec cs b) as Hc;
      cbv zeta in H; unfold server_of, trace_of, result_of in H, Hc;
      destruct (createBackingVolume handle req vo vid sec cs b) as [[[? ?] ?] ?];
      cbn [fst snd] in H, Hc; destruct H as (-> & ? & ?)
  end.

Lemma CreateVolume_credentials req cs b :
  credentials_balanced (trace_of (CreateVolume handle RoundOffBytes req cs b)).
Proof.
  unfold CreateVolume; unfold_monad; cbn -[Ret].
  repeat (first [answer_call | run_createBackingVolume_credentials | branch]; cbn -[Ret]);
    try discriminate.
  all: unfold credentials_balanced in *; cbn; rewrite ?app_nil_r, ?omap_app; cbn;
       rewrite ?app_nil_r; try reflexivity; assumption.
Qed.

Lemma DeleteVolume_credentials req cs b :
  credentials_balanced (trace_of (DeleteVolume handle req cs b)).
Proof.
  unfold DeleteVolume, deleteVolumeDeprecated, credentials_balanced.
  explore. all: reflexivity.
Qed.

Lemma CreateSnapshot_credentials req cs b :
  credentials_balanced (trace_of (CreateSnapshot handle req cs b)).
Proof.
  unfold CreateSnapshot, validateSnapshotReq, doSnapshot, credentials_balanced.
  explore. all: reflexivity.
Qed.

(** X19. Every controller operation deletes the admin credentials it
    obtained before it returns, on every path: the credentials passed to
    [DeleteCredentials] are those that [NewAdminCredentials] handed out,
    the last obtained first. *)
Theorem admin_credentials_deleted :
  (forall req cs b,
      credentials_balanced (trace_of (CreateVolume handle RoundOffBytes req cs b))) /\
  (forall req cs b, credentials_balanced (trace_of (DeleteVolume handle req cs b))) /\
  (forall req cs b,
      credentials_balanced (trace_of (ControllerExpandVolume handle RoundOffBytes req cs b))) /\
  (forall req cs b, credentials_balanced (trace_of (CreateSnapshot handle req cs b))) /\
  (forall req cs b, credentials_balanced (trace_of (DeleteSnapshot handle req cs b))).
Proof.
  split; [exact CreateVolume_credentials|].
  split; [exact DeleteVolume_credentials|].
  split; [|split; [exact CreateSnapshot_credentials|] ].
  - intros req cs b. unfold ControllerExpandVolume, credentials_balanced.
    explore. all: reflexivity.
  - intros req cs b. unfold DeleteSnapshot, credentials_balanced.
    explore. all: reflexivity.
Qed.

(** ** clone.go *)

(** X20. [createCloneFromSubvolume] returns nil only after this sequence of
    calls, each of which succeeded: create the temporary snapshot (named as
    the clone), protect it, clone it, query the clone, resize the clone to
    the size of the volume options, unprotect the snapshot, delete it. When
    the query answers without error that the clone is not complete, the
    function returns [ErrCloneInProgress] after the first four calls and
    undoes nothing. *)
Theorem createCloneFromSubvolume_outcomes (volID cloneID : volumeID)
    (volOpt : volumeOptions) (cr : Credentials) (cs : ControllerServer) (b : B) :
  let run := createCloneFromSubvolume handle volID cloneID volOpt cr cs b in
  let snapshotID := cloneID in
  let started :=
    [ createSnapshot volOpt cr snapshotID volID;
      protectSnapshot volOpt cr snapshotID volID;
      cloneSnapshot volOpt cr volID snapshotID cloneID
        (cloneVolOptions (SubvolumeGroup volOpt) (Pool volOpt));
      getcloneInfo volOpt cr cloneID ] in
  (result_of run = None ->
   calls_of (trace_of run)
   = started ++ [ resizeVolume volOpt cr cloneID (Size volOpt);
                  unprotectSnapshot volOpt cr snapshotID volID;
                  deleteSnapshot volOpt cr snapshotID volID ]) /\
  (forall clone,
      observed getcloneInfo_of (trace_of run) (clone, None) ->
      State (Status clone) <> "complete" ->
      result_of run = Some (ErrCloneInProgress_for cloneID) /\
      calls_of (trace_of run) = started).
Proof.
  intros run snapshotID started. subst run snapshotID started.
  unfold createCloneFromSubvolume.
  explore.
  all: split; [intros Hres; try discriminate Hres | intros clone0 Hobs Hstate; use_observed].
  all: try reflexivity.
  all: try (split; reflexivity).
  all: exfalso; apply Hstate;
       match goal with H : (_ =? _)%string = true |- _ => apply String.eqb_eq in H; exact H end.
Qed.

(** X21. The rollback of [createCloneFromSubvolume]. When
    [protectSnapshot] fails, its error is returned after the temporary
    snapshot was deleted, and nothing else is called. When the clone was
    reported complete and a later step fails, the run ends with
    [unprotectSnapshot], [deleteSnapshot] and [purgeVolume] of the clone. *)
Theorem createCloneFromSubvolume_rollback (volID cloneID : volumeID)
    (volOpt : volumeOptions) (cr : Credentials) (cs : ControllerServer) (b : B) :
  let run := createCloneFromSubvolume handle volID cloneID volOpt cr cs b in
  let snapshotID := cloneID in
  (forall e : cephError,
      observed outcome_of (trace_of run) (protectSnapshot volOpt cr snapshotID volID, Some e) ->
      result_of run = Some e /\
      calls_of (trace_of run)
      = [ createSnapshot volOpt cr snapshotID volID;
          protectSnapshot volOpt cr snapshotID volID;
          deleteSnapshot volOpt cr snapshotID volID ]) /\
  (forall clone r (e : cephError),
      observed getcloneInfo_of (trace_of run) (clone, r) ->
      State (Status clone) = "complete" ->
      result_of run = Some e ->
      exists before,
        calls_of (trace_of run)
        = before ++ [ unprotectSnapshot volOpt cr snapshotID volID;
                      deleteSnapshot volOpt cr snapshotID volID;
                      purgeVolume cloneID cr volOpt ]).
Proof.
  intros run snapshotID. subst run snapshotID.
  unfold createCloneFromSubvolume.
  explore.
  all: split; [intros e0 Hobs; use_observed'
              | intros clone0 answer0 e0 Hobs Hstate Hres; use_observed'; try discriminate Hres].
  all: try (split; reflexivity).
  all: try match goal with
       | H : (State (Status ?c) =? _)%string = false, H' : State (Status ?c) = _ |- _ =>
           rewrite H' in H; discriminate H
       end.
  all: cbn;
       first [ exists []; reflexivity | eexists [_]; reflexivity | eexists [_; _]; reflexivity
             | eexists [_; _; _]; reflexivity | eexists [_; _; _; _]; reflexivity
             | eexists [_; _; _; _; _]; reflexivity | eexists [_; _; _; _; _; _]; reflexivity
             | eexists [_; _; _; _; _; _; _]; reflexivity ].
Qed.

(** The calls of a clone-from-volume that finds its clone still in
    progress. *)
Lemma createCloneFromSubvolume_pending (volID cloneID : volumeID)
    (volOpt : volumeOptions) (cr : Credentials) (cs : ControllerServer) (b : B)
    (clone : CloneStatus) :
  let run := createCloneFromSubvolume handle volID cloneID volOpt cr cs b in
  observed getcloneInfo_of (trace_of run) (clone, None) ->
  State (Status clone) <> "complete" ->
  calls_of (trace_of run)
  = [ createSnapshot volOpt cr cloneID volID;
      protectSnapshot volOpt cr cloneID volID;
      cloneSnapshot volOpt cr volID cloneID cloneID
        (cloneVolOptions (SubvolumeGroup volOpt) (Pool volOpt));
      getcloneInfo volOpt cr cloneID ].
Proof.
  intros run. subst run. unfold createCloneFromSubvolume.
  explore; intros Hobs Hstate; use_observed.
  all: try reflexivity.
  all: exfalso; apply Hstate;
       match goal with H : (_ =? _)%string = true |- _ => apply String.eqb_eq in H; exact H end.
Qed.

(** *** checkCloneFromSubvolumeExists *)

Variable getVolumeRootPathCeph :
  volumeOptions -> Credentials -> volumeID -> B -> (string * option cephError) * B.

(** Name the answer of the next query. *)
Ltac answer_query :=
  match goal with
  | |- context [getVolumeRootPathCeph ?vo ?cr ?id ?b] =>
      let r := fresh "r" in
      let b' := fresh "b" in
      let E := fresh "E" in
      destruct (getVolumeRootPathCeph vo cr id b) as [r b'] eqn:E;
      repeat match goal with
             | x : (_ * _)%type |- _ => destruct x
             end;
      try rewrite E in *
  end.

Ltac explore_query :=
  unfold query; unfold_monad; cbn -[Ret];
  repeat (first [answer_call | answer_query | branch]; cbn -[Ret]);
  try discriminate.


(** X23. A clone that [createCloneFromSubvolume] left in progress is
    finished by [checkCloneFromSubvolumeExists]: when the first found the
    clone not complete and the second returns nil with the temporary
    snapshot still there, the two runs together have made, queries apart,
    the calls of a clone-from-volume that succeeds at once. *)
Theorem clone_finished_by_check (volID cloneID : volumeID) (volOpt : volumeOptions)
    (cr : Credentials) (cs cs' : ControllerServer) (b b' : B) (clone : CloneStatus) :
  let started := createCloneFromSubvolume handle volID cloneID volOpt cr cs b in
  let resumed := checkCloneFromSubvolumeExists handle getVolumeRootPathCeph
                   volID cloneID volOpt cr cs' b' in
  let snapshotID := cloneID in
  observed getcloneInfo_of (trace_of started) (clone, None) ->
  State (Status clone) <> "complete" ->
  result_of resumed = None ->
  observed getSnapshotInfo_of (trace_of resumed) None ->
  List.filter (fun c => negb (is_query c)) (calls_of (trace_of started ++ trace_of resumed))
  = [ createSnapshot volOpt cr snapshotID volID;
      protectSnapshot volOpt cr snapshotID volID;
      cloneSnapshot volOpt cr volID snapshotID cloneID
        (cloneVolOptions (SubvolumeGroup volOpt) (Pool volOpt));
      resizeVolume volOpt cr cloneID (Size volOpt);
      unprotectSnapshot volOpt cr snapshotID volID;
      deleteSnapshot volOpt cr snapshotID volID ].
Proof.
  intros started resumed snapshotID Hpending Hstate Hres Hsnap.
  subst started resumed snapshotID.
  rewrite calls_of_app, List.filter_app.
  rewrite (createCloneFromSubvolume_pending volID cloneID volOpt cr cs b clone Hpending Hstate).
  clear Hpending.
  revert Hres Hsnap. unfold checkCloneFromSubvolumeExists.
  explore_query; intros Hres Hsnap; try discriminate Hres; use_observed.
  all: reflexivity.
Qed.

End Properties.

(** * The identifier codec *)

Lemma hex_value_sep : hex_value sep = None.
Proof. reflexivity. Qed.

Lemma hex_value_hex_digit (d : Z) : 0 <= d < 16 -> hex_value (hex_digit d) = Some d.
Proof.
  intros Hd.
  assert (H : d = 0 \/ d = 1 \/ d = 2 \/ d = 3 \/ d = 4 \/ d = 5 \/ d = 6 \/ d = 7 \/
              d = 8 \/ d = 9 \/ d = 10 \/ d = 11 \/ d = 12 \/ d = 13 \/ d = 14 \/ d = 15)
    by lia.
  repeat destruct H as [->|H]; try subst d; reflexivity.
Qed.

Lemma length_to_hex (w : nat) (n : Z) : length (to_hex w n) = w.
Proof.
  revert n. induction w as [|w IH]; intros n; cbn; [reflexivity|].
  rewrite length_app, IH. cbn. lia.
Qed.

Lemma from_hex_acc_snoc (acc : Z) (l : list ascii) (c : ascii) :
  from_hex_acc acc (l ++ [c])
  = match from_hex_acc acc l, hex_value c with
    | Some a, Some d => Some (16 * a + d)
    | _, _ => None
    end.
Proof.
  revert acc. induction l as [|x l IH]; intros acc; cbn.
  - destruct (hex_value c); reflexivity.
  - destruct (hex_value x); [apply IH | reflexivity].
Qed.

(** Reading back a fixed-width field gives the value modulo [16^w]. *)
Lemma from_hex_acc_to_hex (w : nat) (n acc : Z) :
  from_hex_acc acc (to_hex w n) = Some (acc * 16 ^ Z.of_nat w + n mod 16 ^ Z.of_nat w).
Proof.
  revert n. induction w as [|w IH]; intros n.
  - cbn. rewrite Z.mod_1_r. f_equal. lia.
  - cbn [to_hex]. rewrite from_hex_acc_snoc, IH.
    rewrite hex_value_hex_digit by (apply Z.mod_pos_bound; lia).
    f_equal. rewrite Nat2Z.inj_succ, Z.pow_succ_r by lia.
    rewrite (Z.rem_mul_r n 16 (16 ^ Z.of_nat w)) by lia. lia.
Qed.

Lemma from_hex_to_hex (w : nat) (n : Z) :
  from_hex (to_hex w n) = Some (n mod 16 ^ Z.of_nat w).
Proof. unfold from_hex. rewrite from_hex_acc_to_hex. f_equal. Qed.

(** A field that holds a separator byte is not hexadecimal. *)
Lemma from_hex_acc_sep (acc : Z) (l : list ascii) :
  In sep l -> from_hex_acc acc l = None.
Proof.
  revert acc. induction l as [|c l IH]; intros acc Hin; [destruct Hin|].
  cbn. destruct Hin as [->|Hin].
  - rewrite hex_value_sep. reflexivity.
  - destruct (hex_value c); [apply IH, Hin | reflexivity].
Qed.

Lemma to_int64_mod (p : Z) : - 2 ^ 63 <= p < 2 ^ 63 -> to_int64 (p mod 2 ^ 64) = p.
Proof.
  intros Hp. unfold to_int64.
  destruct (Z.neg_nonneg_cases p) as [Hneg|Hpos].
  - replace (p mod 2 ^ 64) with (p + 2 ^ 64).
    + destruct (Z.ltb_spec (p + 2 ^ 64) (2 ^ 63)); lia.
    + symmetry. rewrite <- (Z.mod_add p 1 (2 ^ 64)) by lia.
      rewrite Z.mul_1_l. apply Z.mod_small. lia.
  - rewrite Z.mod_small by lia. destruct (Z.ltb_spec p (2 ^ 63)); lia.
Qed.

(** *** The layout, field by field *)

Section Layout.

Variables V L C P U : list ascii.
Hypothesis HV : length V = 4%nat.
Hypothesis HL : length L = 4%nat.
Hypothesis HP : length P = 16%nat.

Let s := V ++ sep :: L ++ sep :: C ++ sep :: P ++ sep :: U.

Lemma layout_length : length s = (28 + length C + length U)%nat.
Proof using HV HL HP. subst s. repeat (rewrite ?length_app; cbn [length]). lia. Qed.

Lemma layout_version : take 4 s = V.
Proof using HV HL HP. subst s. apply take_app_length'. lia. Qed.

Lemma layout_drop5 : drop 5 s = L ++ sep :: C ++ sep :: P ++ sep :: U.
Proof using HV HL HP.
  subst s. rewrite (drop_app_add' V _ 4 1) by lia. reflexivity.
Qed.

Lemma layout_len : take 4 (drop 5 s) = L.
Proof using HV HL HP. rewrite layout_drop5. apply take_app_length'. lia. Qed.

Lemma layout_drop10 : drop 10 s = C ++ sep :: P ++ sep :: U.
Proof using HV HL HP.
  replace 10%nat with (5 + 5)%nat by reflexivity.
  rewrite <- drop_drop, layout_drop5.
  rewrite (drop_app_add' L _ 4 1) by lia. reflexivity.
Qed.

Lemma layout_cluster : take (length C) (drop 10 s) = C.
Proof using HV HL HP. rewrite layout_drop10. apply take_app_length. Qed.

Lemma layout_drop_pool : drop (11 + length C) s = P ++ sep :: U.
Proof using HV HL HP.
  replace (11 + length C)%nat with (10 + (length C + 1))%nat by lia.
  rewrite <- drop_drop, layout_drop10.
  rewrite (drop_app_add' C _ (length C) 1) by lia. reflexivity.
Qed.

Lemma layout_pool : take 16 (drop (11 + length C) s) = P.
Proof using HV HL HP. rewrite layout_drop_pool. apply take_app_length'. lia. Qed.

Lemma layout_uuid : drop (28 + length C) s = U.
Proof using HV HL HP.
  replace (28 + length C)%nat with ((11 + length C) + (16 + 1))%nat by lia.
  rewrite <- drop_drop, layout_drop_pool.
  rewrite (drop_app_add' P _ 16 1) by lia. reflexivity.
Qed.

Lemma sep_at_head (i : nat) (l k : list ascii) :
  drop i l = sep :: k -> sep_at i l = true.
Proof using HV HL HP.
  intros H. unfold sep_at.
  assert (Hl : l !! i = Some sep).
  { rewrite <- (Nat.add_0_r i), <- lookup_drop, H. reflexivity. }
  rewrite Hl. reflexivity.
Qed.

Lemma layout_seps :
  sep_at 4 s = true /\ sep_at 9 s = true /\
  sep_at (10 + length C) s = true /\ sep_at (27 + length C) s = true.
Proof using HV HL HP.
  repeat split.
  - apply (sep_at_head 4 s (L ++ sep :: C ++ sep :: P ++ sep :: U)).
    subst s. rewrite (drop_app_length' V _ 4) by lia. reflexivity.
  - apply (sep_at_head 9 s (C ++ sep :: P ++ sep :: U)).
    replace 9%nat with (5 + 4)%nat by reflexivity.
    rewrite <- drop_drop, layout_drop5.
    rewrite (drop_app_length' L _ 4) by lia. reflexivity.
  - apply (sep_at_head _ s (P ++ sep :: U)).
    replace (10 + length C)%nat with (10 + length C)%nat by lia.
    rewrite <- drop_drop, layout_drop10.
    rewrite drop_app_length. reflexivity.
  - apply (sep_at_head _ s U).
    replace (27 + length C)%nat with ((11 + length C) + 16)%nat by lia.
    rewrite <- drop_drop, layout_drop_pool.
    rewrite (drop_app_length' P _ 16) by lia. reflexivity.
Qed.

End Layout.

(** *** Decoding an encoded identifier *)

Section Codec.

Variable supported : Z -> bool.

(** What a successful [decode] checked. *)
Lemma decode_inl_inv (s : list ascii) (id : Identifier) :
  decode supported s = inl id ->
  exists len,
    from_hex (take 4 s) = Some (version id) /\
    from_hex (take 4 (drop 5 s)) = Some len /\
    (Z.to_nat len <= maxClusterIDLen)%nat /\
    length s = (knownFieldSize + Z.to_nat len)%nat /\
    supported (version id) = true.
Proof.
  unfold decode.
  destruct (from_hex (take 4 s)) as [ver|]; [|discriminate].
  destruct (from_hex (take 4 (drop 5 s))) as [len|]; [|discriminate].
  cbv zeta.
  destruct (from_hex (take 16 (drop (11 + Z.to_nat len) s))) as [pool|]; [|discriminate].
  destruct (_ && _) eqn:Hchecks; [|discriminate].
  intros [= <-]. cbn [version].
  repeat (apply andb_prop in Hchecks; destruct Hchecks as [Hchecks ?]).
  exists len. repeat split; try assumption.
  - apply Nat.leb_le. assumption.
  - apply Nat.eqb_eq. assumption.
Qed.

Lemma decode_not_inl (s : list ascii) :
  (forall id, decode supported s <> inl id) -> decode supported s = inr InvalidVolumeID.
Proof.
  intros H. destruct (decode supported s) as [id|[]]; [|reflexivity].
  exfalso. apply (H id). reflexivity.
Qed.

Lemma encode_length (id : Identifier) :
  length (objectUUID id) = uuidSize ->
  length (encode id) = (knownFieldSize + length (clusterID id))%nat.
Proof.
  intros HU. unfold encode.
  rewrite layout_length by apply length_to_hex. rewrite HU.
  unfold uuidSize, knownFieldSize. lia.
Qed.

Lemma encode_version_field (id : Identifier) :
  take 4 (encode id) = to_hex 4 (version id).
Proof. apply layout_version; apply length_to_hex. Qed.

Lemma encode_len_field (id : Identifier) :
  take 4 (drop 5 (encode id)) = to_hex 4 (Z.of_nat (length (clusterID id))).
Proof. apply layout_len; apply length_to_hex. Qed.

Lemma encode_len_parsed (id : Identifier) :
  from_hex (take 4 (drop 5 (encode id)))
  = Some (Z.of_nat (length (clusterID id)) mod 65536).
Proof. rewrite encode_len_field, from_hex_to_hex. reflexivity. Qed.

(** Round trip. *)
Lemma decode_encode (id : Identifier) :
  valid_identifier supported id -> decode supported (encode id) = inl id.
Proof.
  intros (Hver & Hsup & Hlen & Hpool & Huuid).
  unfold maxClusterIDLen in Hlen.
  unfold decode.
  rewrite encode_version_field, encode_len_field, !from_hex_to_hex.
  change (16 ^ Z.of_nat 4) with (2 ^ 16).
  rewrite (Z.mod_small (version id)) by assumption.
  rewrite (Z.mod_small (Z.of_nat _)) by lia.
  cbv zeta. rewrite Nat2Z.id.
  unfold encode at 1.
  rewrite layout_pool by apply length_to_hex. rewrite from_hex_to_hex.
  rewrite encode_length by assumption.
  destruct (layout_seps (to_hex 4 (version id))
              (to_hex 4 (Z.of_nat (length (clusterID id)))) (clusterID id)
              (to_hex 16 (poolID id)) (objectUUID id)
              (length_to_hex _ _) (length_to_hex _ _) (length_to_hex _ _))
    as (H4 & H9 & H10 & H27).
  fold (encode id) in H4, H9, H10, H27. rewrite H4, H9, H10, H27, Hsup.
  rewrite Nat.eqb_refl.
  replace (length (clusterID id) <=? maxClusterIDLen)%nat with true
    by (symmetry; apply Nat.leb_le; exact Hlen).
  cbn [andb].
  unfold encode.
  rewrite layout_cluster, layout_uuid by apply length_to_hex.
  change (16 ^ Z.of_nat 16) with (2 ^ 64). rewrite to_int64_mod by assumption.
  destruct id; reflexivity.
Qed.

(** Truncated handles. *)
Lemma decode_truncated (id : Identifier) (m : nat) :
  valid_identifier supported id ->
  (m < length (encode id))%nat ->
  decode supported (take m (encode id)) = inr InvalidVolumeID.
Proof.
  intros (Hver & Hsup & Hlen & Hpool & Huuid) Hm.
  unfold maxClusterIDLen in Hlen.
  rewrite encode_length in Hm by assumption. unfold knownFieldSize in Hm.
  apply decode_not_inl. intros id' Hdec.
  apply decode_inl_inv in Hdec. destruct Hdec as (len & _ & Hl & _ & Hsize & _).
  rewrite length_take, encode_length in Hsize by assumption.
  unfold knownFieldSize in Hsize.
  assert (Hm9 : (9 <= m)%nat) by lia.
  rewrite take_drop_commute, take_take in Hl.
  replace (Nat.min (5 + 4) m) with 9%nat in Hl by lia.
  change 9%nat with (5 + 4)%nat in Hl. rewrite <- take_drop_commute in Hl.
  rewrite encode_len_parsed in Hl. injection Hl as <-.
  rewrite Z.mod_small, Nat2Z.id in Hsize by lia. lia.
Qed.

(** Handles with an oversized cluster identifier: built from such an
    identifier, or declaring a length above the maximum. *)
Lemma decode_oversized (id : Identifier) :
  (maxClusterIDLen < length (clusterID id))%nat ->
  decode supported (encode id) = inr InvalidVolumeID.
Proof.
  unfold maxClusterIDLen. intros Hover. apply decode_not_inl. intros id' Hdec.
  apply decode_inl_inv in Hdec. destruct Hdec as (len & _ & Hl & Hmax & Hsize & _).
  unfold maxClusterIDLen, knownFieldSize in *.
  rewrite encode_len_parsed in Hl. injection Hl as <-.
  unfold encode in Hsize. rewrite layout_length in Hsize by apply length_to_hex.
  destruct (Z.lt_ge_cases (Z.of_nat (length (clusterID id))) 65536) as [Hsmall|Hbig].
  - rewrite Z.mod_small, Nat2Z.id in Hmax by lia. lia.
  - lia.
Qed.

Lemma decode_declared_oversized (s : list ascii) (len : Z) :
  from_hex (take 4 (drop 5 s)) = Some len ->
  Z.of_nat maxClusterIDLen < len ->
  decode supported s = inr InvalidVolumeID.
Proof.
  intros Hl Hover. apply decode_not_inl. intros id' Hdec.
  apply decode_inl_inv in Hdec. destruct Hdec as (len' & _ & Hl' & Hmax & _).
  rewrite Hl in Hl'. injection Hl' as <-. lia.
Qed.

(** Handles with extra separators. *)
Lemma padded_length (e s : list ascii) :
  padded e s -> (length e <= length s)%nat /\ (length s = length e -> s = e).
Proof.
  induction 1 as [|c e s _ [IHle IHeq]|e s _ [IHle IHeq]]; cbn.
  - split; [lia | reflexivity].
  - split; [lia|]. intros Hlen. f_equal. apply IHeq. lia.
  - split; [lia|]. intros Hlen. lia.
Qed.

Lemma padded_inv_cons (c : ascii) (e s : list ascii) :
  padded (c :: e) s ->
  exists s', (s = c :: s' /\ padded e s') \/ (s = sep :: s' /\ padded (c :: e) s').
Proof.
  intros H. inversion H; subst; eauto.
Qed.

(** If the two leading fields of a padded handle are still hexadecimal, no
    separator was inserted into its first nine bytes. *)
Lemma padded_prefix (v0 v1 v2 v3 l0 l1 l2 l3 : ascii) (rest s : list ascii) :
  padded (v0 :: v1 :: v2 :: v3 :: sep :: l0 :: l1 :: l2 :: l3 :: rest) s ->
  from_hex (take 4 s) <> None ->
  from_hex (take 4 (drop 5 s)) <> None ->
  exists s', s = v0 :: v1 :: v2 :: v3 :: sep :: l0 :: l1 :: l2 :: l3 :: s' /\
             padded rest s'.
Proof.
  intros Hpad Hver Hlen.
  repeat match goal with
         | H : from_hex (take 4 ?l) <> None |- _ =>
             exfalso; apply H; apply from_hex_acc_sep; cbn; tauto
         | H : from_hex (take 4 (drop 5 ?l)) <> None |- _ =>
             exfalso; apply H; apply from_hex_acc_sep; cbn; tauto
         | H : padded ?r ?s |- exists s', _ = _ :: _ :: _ :: _ :: _ :: _ :: _ :: _ :: _ :: s' /\ padded ?r s' =>
             exists s; split; [reflexivity | exact H]
         | H : padded (_ :: _) _ |- _ =>
             apply padded_inv_cons in H; destruct H as (? & [[-> H]|[-> H]])
         end.
Qed.

Lemma to_hex_4 (n : Z) : exists a b c d, to_hex 4 n = [a; b; c; d].
Proof. cbn. eauto. Qed.

Lemma decode_padded (id : Identifier) (s : list ascii) :
  valid_identifier supported id ->
  padded (encode id) s -> s <> encode id ->
  decode supported s = inr InvalidVolumeID.
Proof.
  intros (Hver & Hsup & Hlen & Hpool & Huuid) Hpad Hne.
  unfold maxClusterIDLen in Hlen.
  apply decode_not_inl. intros id' Hdec.
  apply decode_inl_inv in Hdec.
  destruct Hdec as (len & Hv & Hl & _ & Hsize & _).
  pose proof (encode_len_parsed id) as Hparsed.
  pose proof (encode_length id Huuid) as Hsize'.
  pose proof Hpad as Hpad'.
  unfold encode in Hpad.
  destruct (to_hex_4 (version id)) as (v0 & v1 & v2 & v3 & HV).
  destruct (to_hex_4 (Z.of_nat (length (clusterID id)))) as (l0 & l1 & l2 & l3 & HL).
  rewrite HV, HL in Hpad. cbn [app] in Hpad.
  apply padded_prefix in Hpad; [| congruence | congruence].
  destruct Hpad as (s' & -> & _).
  (* the length field of [s] is the one of the encoding *)
  rewrite encode_len_field, HL in Hparsed.
  cbn [take drop] in Hl. rewrite take_0 in Hl.
  rewrite Hparsed in Hl. injection Hl as <-.
  rewrite Z.mod_small, Nat2Z.id in Hsize by lia.
  apply Hne. apply (padded_length _ _ Hpad'). lia.
Qed.

End Codec.

(** C3. For every valid identifier (cluster identifier of at most 36 bytes,
    supported version) decoding the encoded handle gives the identifier
    back; and [decode] fails with [InvalidVolumeID] on every truncated
    handle (a proper prefix of an encoding), on every handle with extra
    separators (an encoding with separator bytes inserted anywhere), and on
    every handle that carries an oversized cluster identifier (encoded from
    one, or declaring a length above 36). *)
Theorem codec_round_trip_and_rejection (supported : Z -> bool) :
  (forall id,
      valid_identifier supported id -> decode supported (encode id) = inl id) /\
  (forall id m,
      valid_identifier supported id -> (m < length (encode id))%nat ->
      decode supported (take m (encode id)) = inr InvalidVolumeID) /\
  (forall id s,
      valid_identifier supported id -> padded (encode id) s -> s <> encode id ->
      decode supported s = inr InvalidVolumeID) /\
  (forall id,
      (maxClusterIDLen < length (clusterID id))%nat ->
      decode supported (encode id) = inr InvalidVolumeID) /\
  (forall s len,
      from_hex (take 4 (drop 5 s)) = Some len -> Z.of_nat maxClusterIDLen < len ->
      decode supported s = inr InvalidVolumeID).
Proof.
  split; [|split; [|split; [|split]]].
  - apply decode_encode.
  - apply decode_truncated.
  - apply decode_padded.
  - apply decode_oversized.
  - apply decode_declared_oversized.
Qed.

Lemma sample_identifier_valid : valid_identifier version_1_only sample_identifier.
Proof.
  unfold valid_identifier. cbn. repeat split; try reflexivity; try lia.
  all: unfold maxClusterIDLen; lia.
Qed.

Lemma codec_round_trip_and_rejection_witness :
  decode version_1_only (encode sample_identifier) = inl sample_identifier /\
  decode version_1_only (take 70 (encode sample_identifier)) = inr InvalidVolumeID /\
  decode version_1_only
    (list_ascii_of_string
       "0001-0009-rook-ceph--0000000000000002-b0285c97-a0ce-11eb-8c66-0242ac110002")
  = inr InvalidVolumeID /\
  decode version_1_only (encode oversized_identifier) = inr InvalidVolumeID.
Proof.
  destruct (codec_round_trip_and_rejection version_1_only)
    as (Hround & Htrunc & Hpad & Hover & _).
  split; [|split; [|split]].
  - apply Hround, sample_identifier_valid.
  - apply Htrunc; [apply sample_identifier_valid | vm_compute; lia].
  - apply (Hpad sample_identifier); [apply sample_identifier_valid | | ].
    + vm_compute. repeat constructor.
    + vm_compute. discriminate.
  - apply Hover. vm_compute. lia.
Defined.

(** * Package util *)

(** ** [strings.Contains] *)

Lemma prefix_occurs (sub s : string) :
  String.prefix sub s = true <-> exists after, s = (sub ++ after)%string.
Proof.
  revert s. induction sub as [|a sub IH]; intros s.
  - split; [intros _; exists s; reflexivity | intros _; destruct s; reflexivity].
  - destruct s as [|c s].
    + split; [discriminate | intros (after & H); discriminate H].
    + cbn. destruct (Ascii.ascii_dec a c) as [->|Hne].
      * rewrite IH. split; intros (after & H); exists after.
        -- rewrite H. reflexivity.
        -- change (String c s = String c (sub ++ after)%string) in H. congruence.
      * split; [discriminate|]. intros (after & H).
        change (String c s = String a (sub ++ after)%string) in H. congruence.
Qed.

Lemma Contains_unfold (s sub : string) :
  util.Contains s sub
  = if String.prefix sub s then true
    else match s with
         | EmptyString => false
         | String _ rest => util.Contains rest sub
         end.
Proof. destruct s; reflexivity. Qed.

Lemma append_cons (c : ascii) (s t : string) :
  (String c s ++ t)%string = String c (s ++ t)%string.
Proof. reflexivity. Qed.

Lemma Contains_occurs (s sub : string) :
  util.Contains s sub = true <-> util.occurs_in sub s.
Proof.
  unfold util.occurs_in. induction s as [|c s IH]; rewrite Contains_unfold.
  - destruct (String.prefix sub "") eqn:E.
    + apply prefix_occurs in E. destruct E as (after & E).
      split; [intros _; exists "", after; exact E | reflexivity].
    + split; [discriminate|]. intros (before & after & H).
      destruct before as [|c before]; [|rewrite append_cons in H; discriminate H].
      assert (String.prefix sub "" = true) by (apply prefix_occurs; exists after; exact H).
      congruence.
  - destruct (String.prefix sub (String c s)) eqn:E.
    + apply prefix_occurs in E. destruct E as (after & E).
      split; [intros _; exists "", after; exact E | reflexivity].
    + rewrite IH. split.
      * intros (before & after & ->). exists (String c before), after. reflexivity.
      * intros (before & after & H). destruct before as [|c' before].
        -- assert (String.prefix sub (String c s) = true)
             by (apply prefix_occurs; exists after; exact H).
           congruence.
        -- rewrite append_cons in H. injection H as -> ->. eauto.
Qed.

Section UtilProperties.

Context {S : Type}.
Variable handle : forall c : util.Call, S -> util.Ret c * S.
Variable CephConfigPath : string.
Variable StripSecretInArgs : list string -> list string.
Variable json_Unmarshal : string -> list util.cephStoragePoolSummary * option string.

Local Abbreviation getPools := (util.getPools handle CephConfigPath StripSecretInArgs json_Unmarshal).
Local Abbreviation GetPoolID := (util.GetPoolID handle CephConfigPath StripSecretInArgs json_Unmarshal).
Local Abbreviation GetPoolName := (util.GetPoolName handle CephConfigPath StripSecretInArgs json_Unmarshal).

(** ** Pools *)

Lemma GetPoolID_range_found pools poolName id :
  util.GetPoolID_range pools poolName = (id, None) <->
  exists before p after,
    pools = before ++ p :: after /\ util.Name p = poolName /\ util.Number p = id /\
    Forall (fun q => util.Name q <> poolName) before.
Proof.
  induction pools as [|q pools IH]; cbn.
  - split; [discriminate|]. intros (before & p & after & H & _). destruct before; discriminate H.
  - destruct (String.eqb_spec poolName (util.Name q)) as [Heq|Hne].
    + split.
      * intros [= <-]. exists [], q, pools. repeat split; auto.
      * intros (before & p & after & H & Hn & Hi & Hb).
        destruct before as [|q' before]; cbn in H; injection H as -> ->.
        -- congruence.
        -- inversion Hb; subst. congruence.
    + rewrite IH. split.
      * intros (before & p & after & -> & Hn & Hi & Hb).
        exists (q :: before), p, after. repeat split; auto.
      * intros (before & p & after & H & Hn & Hi & Hb).
        destruct before as [|q' before]; cbn in H; injection H as -> ->.
        -- congruence.
        -- inversion Hb; subst. exists before, p, after. repeat split; auto.
Qed.

Lemma GetPoolID_range_missing pools poolName :
  Forall (fun q => util.Name q <> poolName) pools ->
  util.GetPoolID_range pools poolName
  = (0, Some (util.Errorf "pool (%s) not found in Ceph cluster" [util.v_string poolName])).
Proof.
  induction 1 as [|q pools Hq _ IH]; cbn; [reflexivity|].
  destruct (String.eqb_spec poolName (util.Name q)); [congruence | exact IH].
Qed.

Lemma GetPoolName_range_found pools poolID name :
  util.GetPoolName_range pools poolID = (name, None) <->
  exists before p after,
    pools = before ++ p :: after /\ util.Number p = poolID /\ util.Name p = name /\
    Forall (fun q => util.Number q <> poolID) before.
Proof.
  induction pools as [|q pools IH]; cbn.
  - split; [discriminate|]. intros (before & p & after & H & _). destruct before; discriminate H.
  - destruct (Z.eqb_spec poolID (util.Number q)) as [Heq|Hne].
    + split.
      * intros [= <-]. exists [], q, pools. repeat split; auto.
      * intros (before & p & after & H & Hn & Hi & Hb).
        destruct before as [|q' before]; cbn in H; injection H as -> ->.
        -- congruence.
        -- inversion Hb; subst. congruence.
    + rewrite IH. split.
      * intros (before & p & after & -> & Hn & Hi & Hb).
        exists (q :: before), p, after. repeat split; auto.
      * intros (before & p & after & H & Hn & Hi & Hb).
        destruct before as [|q' before]; cbn in H; injection H as -> ->.
        -- congruence.
        -- inversion Hb; subst. exists before, p, after. repeat split; auto.
Qed.

Lemma GetPoolID_value monitors cr poolName s pools :
  util.value_of (getPools monitors cr s) = (pools, None) ->
  util.value_of (GetPoolID monitors cr poolName s) = util.GetPoolID_range pools poolName.
Proof.
  unfold util.GetPoolID, util.bind, util.value_of.
  destruct (getPools monitors cr s) as [[[ps err] s1] t1]. cbn.
  intros [= -> ->]. reflexivity.
Qed.

Lemma GetPoolName_value monitors cr poolID s pools :
  util.value_of (getPools monitors cr s) = (pools, None) ->
  util.value_of (GetPoolName monitors cr poolID s) = util.GetPoolName_range pools poolID.
Proof.
  unfold util.GetPoolName, util.bind, util.value_of.
  destruct (getPools monitors cr s) as [[[ps err] s1] t1]. cbn.
  intros [= -> ->]. reflexivity.
Qed.

(** X24. [GetPoolID], given the pools that [getPools] lists, answers with
    the number of the first pool that bears the name, and only then without
    error; when no pool bears the name it answers 0 and the error that the
    pool is not found in the cluster. *)
Theorem GetPoolID_first_match (monitors : string) (cr : Credentials) (poolName : string)
    (s : S) (pools : list util.cephStoragePoolSummary) :
  util.value_of (getPools monitors cr s) = (pools, None) ->
  (forall id,
      util.value_of (GetPoolID monitors cr poolName s) = (id, None) <->
      exists before p after,
        pools = before ++ p :: after /\ util.Name p = poolName /\ util.Number p = id /\
        Forall (fun q => util.Name q <> poolName) before) /\
  (Forall (fun q => util.Name q <> poolName) pools ->
   util.value_of (GetPoolID monitors cr poolName s)
   = (0, Some (util.Errorf "pool (%s) not found in Ceph cluster" [util.v_string poolName]))).
Proof.
  intros Hpools. rewrite (GetPoolID_value _ _ _ _ _ Hpools). split.
  - intros id. apply GetPoolID_range_found.
  - apply GetPoolID_range_missing.
Qed.

Lemma NoDup_map_app_cons_inv {A K} (f : A -> K) before1 p1 after1 before2 p2 after2 :
  NoDup (map f (before1 ++ p1 :: after1)) ->
  before1 ++ p1 :: after1 = before2 ++ p2 :: after2 ->
  f p1 = f p2 -> p1 = p2.
Proof.
  revert before2. induction before1 as [|a before1 IH]; intros before2 Hnd Heq Hf; cbn in *.
  - destruct before2 as [|b before2]; cbn in Heq; injection Heq as -> ->; [reflexivity|].
    exfalso. apply NoDup_cons in Hnd. destruct Hnd as (Hnotin & _). apply Hnotin.
    rewrite Hf. apply list_elem_of_In, in_map, in_or_app. right. left. reflexivity.
  - destruct before2 as [|b before2]; cbn in Heq; injection Heq as -> Heq.
    + exfalso. apply NoDup_cons in Hnd. destruct Hnd as (Hnotin & _). apply Hnotin.
      rewrite <- Hf. subst after2. apply list_elem_of_In, in_map, in_or_app. right. left. reflexivity.
    + apply NoDup_cons in Hnd. destruct Hnd as (_ & Hnd). eapply IH; eauto.
Qed.

(** X25. [GetPoolID] and [GetPoolName] undo each other on a cluster that
    lists the same pools to both: when no two pools share a number, the
    name of the pool whose id [GetPoolID] gave for a name is that name;
    when no two pools share a name, the id of the pool whose name
    [GetPoolName] gave for an id is that id. *)
Theorem pool_name_and_id_round_trip (monitors : string) (cr : Credentials) (s s' : S)
    (pools : list util.cephStoragePoolSummary) :
  util.value_of (getPools monitors cr s) = (pools, None) ->
  util.value_of (getPools monitors cr s') = (pools, None) ->
  (NoDup (map util.Number pools) ->
   forall name id,
     util.value_of (GetPoolID monitors cr name s) = (id, None) ->
     util.value_of (GetPoolName monitors cr id s') = (name, None)) /\
  (NoDup (map util.Name pools) ->
   forall name id,
     util.value_of (GetPoolName monitors cr id s) = (name, None) ->
     util.value_of (GetPoolID monitors cr name s') = (id, None)).
Proof.
  intros Hs Hs'. split; intros Hnd name id.
  - rewrite (GetPoolID_value _ _ _ _ _ Hs), (GetPoolName_value _ _ _ _ _ Hs').
    intros Hid. apply GetPoolID_range_found in Hid.
    destruct Hid as (before & p & after & Hpools & Hname & Hnum & _).
    destruct (util.GetPoolName_range pools id) as [name' [err|] ] eqn:E.
    + exfalso. clear Hnd. subst pools. revert E. clear -Hnum.
      induction before as [|q before IH]; cbn.
      * rewrite <- Hnum, Z.eqb_refl. discriminate.
      * destruct (id =? util.Number q); [discriminate | exact IH].
    + apply GetPoolName_range_found in E.
      destruct E as (before' & p' & after' & Hpools' & Hnum' & Hname' & _).
      subst pools.
      assert (p = p') by (eapply (NoDup_map_app_cons_inv util.Number); eauto; congruence).
      subst p'. congruence.
  - rewrite (GetPoolName_value _ _ _ _ _ Hs), (GetPoolID_value _ _ _ _ _ Hs').
    intros Hid. apply GetPoolName_range_found in Hid.
    destruct Hid as (before & p & after & Hpools & Hnum & Hname & _).
    destruct (util.GetPoolID_range pools name) as [id' [err|] ] eqn:E.
    + exfalso. clear Hnd. subst pools. revert E. clear -Hname.
      induction before as [|q before IH]; cbn.
      * rewrite <- Hname, String.eqb_refl. discriminate.
      * destruct (name =? util.Name q)%string; [discriminate | exact IH].
    + apply GetPoolID_range_found in E.
      destruct E as (before' & p' & after' & Hpools' & Hname' & Hnum' & _).
      subst pools.
      assert (p = p') by (eapply (NoDup_map_app_cons_inv util.Name); eauto; congruence).
      subst p'. congruence.
Qed.

(** ** Exploring the paths of a helper *)

Ltac unfold_util :=
  unfold util.SetOMapKeyValue, util.GetOMapValue, util.RemoveOMapKey,
    util.CreateObject, util.RemoveObject, util.NewContextWithPool, util.NewConnection,
    util.NewContextWithPool', util.NewConnection',
    util.defer, util.bind, util.call, util.ret, util.value_of, util.trace_of.

Ltac answer_util_call :=
  match goal with
  | |- context [handle ?c ?s] =>
      let r := fresh "r" in
      let s' := fresh "s" in
      let E := fresh "E" in
      destruct (handle c s) as [r s'] eqn:E; cbn [util.Ret] in r;
      repeat match goal with
             | x : (_ * _)%type |- _ => destruct x
             | x : unit |- _ => destruct x
             end;
      try rewrite E in *
  end.

Ltac util_branch :=
  match goal with
  | |- context [match ?x with _ => _ end] =>
      lazymatch x with
      | context [match _ with _ => _ end] => fail
      | context [handle] => fail
      | negb ?y => destruct y eqn:?
      | _ => first [ is_var x; destruct x | destruct x eqn:? ]
      end
  end.

Ltac explore_util :=
  unfold_util; cbn -[util.Ret util.Contains];
  repeat (first [answer_util_call | util_branch]; cbn -[util.Ret util.Contains]);
  try discriminate.

Ltac use_util_observed :=
  repeat match goal with
         | H : util.observed _ _ _ |- _ => destruct H as (? & ? & ?)
         | H : In _ (_ :: _) |- _ => destruct H as [<- | H]
         | H : In _ [] |- _ => destruct H
         | H : _ (util.Ev _ _) = Some _ |- _ => cbn in H
         | H : Some _ = Some _ |- _ => injection H as ?; subst
         | H : None = Some _ |- _ => discriminate H
         | H : Some _ = None |- _ => discriminate H
         | H : (_, _) = (_, _) |- _ => injection H as ? ?; subst
         end.

Local Abbreviation NewContextWithPool := (util.NewContextWithPool handle).
Local Abbreviation SetOMapKeyValue := (util.SetOMapKeyValue handle CephConfigPath).
Local Abbreviation GetOMapValue := (util.GetOMapValue handle CephConfigPath).
Local Abbreviation RemoveOMapKey := (util.RemoveOMapKey handle CephConfigPath).
Local Abbreviation CreateObject := (util.CreateObject handle CephConfigPath).
Local Abbreviation RemoveObject := (util.RemoveObject handle CephConfigPath).

(** ** IO contexts *)

(** X26. No helper leaks an IO context. [NewContextWithPool] either
    returns the one context it opened, not destroyed, or returns an error
    and has destroyed what it opened. [SetOMapKeyValue], [GetOMapValue],
    [RemoveOMapKey], [CreateObject] and [RemoveObject] have, when they
    return, destroyed exactly the contexts they opened. *)
Theorem IOContext_destroyed :
  (forall mons id key confPath pool nameSpace s,
      let run := NewContextWithPool mons id key confPath pool nameSpace s in
      match util.value_of run with
      | util.Ok ioctx =>
          omap util.opened (util.trace_of run) = [ioctx] /\
          omap util.destroyed (util.trace_of run) = []
      | util.Err _ =>
          omap util.destroyed (util.trace_of run) = omap util.opened (util.trace_of run)
      end) /\
  (forall monitors cr poolName namespace oMapName oMapKey keyValue s,
      let run := SetOMapKeyValue monitors cr poolName namespace oMapName oMapKey keyValue s in
      omap util.destroyed (util.trace_of run) = omap util.opened (util.trace_of run)) /\
  (forall monitors cr poolName namespace oMapName oMapKey s,
      let run := GetOMapValue monitors cr poolName namespace oMapName oMapKey s in
      omap util.destroyed (util.trace_of run) = omap util.opened (util.trace_of run)) /\
  (forall monitors cr poolName namespace oMapName oMapKey s,
      let run := RemoveOMapKey monitors cr poolName namespace oMapName oMapKey s in
      omap util.destroyed (util.trace_of run) = omap util.opened (util.trace_of run)) /\
  (forall monitors cr poolName namespace objectName s,
      let run := CreateObject monitors cr poolName namespace objectName s in
      omap util.destroyed (util.trace_of run) = omap util.opened (util.trace_of run)) /\
  (forall monitors cr poolName namespace objectName s,
      let run := RemoveObject monitors cr poolName namespace objectName s in
      omap util.destroyed (util.trace_of run) = omap util.opened (util.trace_of run)).
Proof.
  repeat split; intros; subst run; explore_util; try split; reflexivity.
Qed.

(** X27. The [NewContextWithPool] that hands the connection back: when it
    succeeds it returns the connection on which [Connect] succeeded and the
    one IO context it opened, neither shut down nor destroyed, and it has
    set the namespace exactly when the namespace given is not empty; when it
    fails, every connection on which [Connect] had succeeded has been shut
    down, and no IO context is left open. *)
Theorem NewContextWithPool_connection (mons id key confPath pool nameSpace : string)
    (s : S) :
  let run := util.NewContextWithPool' handle mons id key confPath pool nameSpace s in
  match util.value_of run with
  | util.Ok (conn, ioctx) =>
      omap util.connected (util.trace_of run) = [conn] /\
      omap util.opened (util.trace_of run) = [ioctx] /\
      omap util.shut_down (util.trace_of run) = [] /\
      omap util.destroyed (util.trace_of run) = [] /\
      omap util.namespace_set (util.trace_of run)
      = (if String.eqb nameSpace "" then [] else [nameSpace])
  | util.Err _ =>
      omap util.shut_down (util.trace_of run) = omap util.connected (util.trace_of run) /\
      omap util.opened (util.trace_of run) = []
  end.
Proof.
  intros run. subst run. explore_util; repeat split; reflexivity.
Qed.

(** ** Typed errors *)

(** X28. [GetOMapValue] returns the value that [GetOmapValues] read when
    that call succeeds. When it fails, the answer is [ErrKeyNotFound] for
    the key [pool/omap/key] if the text of the error holds one of the two
    messages that name the missing key, and otherwise a plain error that
    quotes the text. Whenever [GetOMapValue] returns an error, the value it
    returns is the empty string. *)
Theorem GetOMapValue_classified (monitors : string) (cr : Credentials)
    (poolName namespace oMapName oMapKey : string) (s : S) :
  let run := GetOMapValue monitors cr poolName namespace oMapName oMapKey s in
  let key := (poolName ++ "/" ++ oMapName ++ "/" ++ oMapKey)%string in
  (forall value,
      util.observed util.GetOmapValues_of (util.trace_of run) (value, None) ->
      util.value_of run = (value, None)) /\
  (forall value text,
      util.observed util.GetOmapValues_of (util.trace_of run) (value, Some text) ->
      (util.occurs_in ("No such key: " ++ key) text \/
       util.occurs_in ("error getting omap value "
                       ++ poolName ++ "/" ++ oMapName ++ "/" ++ oMapKey
                       ++ ": (2) No such file or directory") text ->
       util.value_of run = ("", Some (util.ErrKeyNotFound key (util.external text)))) /\
      (~ util.occurs_in ("No such key: " ++ key) text ->
       ~ util.occurs_in ("error getting omap value "
                         ++ poolName ++ "/" ++ oMapName ++ "/" ++ oMapKey
                         ++ ": (2) No such file or directory") text ->
       util.value_of run
       = ("", Some (util.Errorf "error (%v) occurred" [util.v_string text])))) /\
  (forall err, snd (util.value_of run) = Some err -> fst (util.value_of run) = "").
Proof.
  intros run key. subst run key. explore_util.
  all: split; [intros value0 Hobs; use_util_observed
              | split; [intros value0 text0 Hobs; use_util_observed
                       | intros err0 Herr; try discriminate Herr; try reflexivity] ].
  all: try reflexivity.
  all: repeat match goal with
       | H : util.Contains _ _ = true |- _ => apply Contains_occurs in H
       | H : util.Contains _ _ = false |- _ =>
           apply not_true_iff_false in H; rewrite Contains_occurs in H
       end.
  all: split; [intros [Hocc|Hocc] | intros Hno1 Hno2]; try reflexivity; try contradiction.
Qed.

(** X29. [CreateObject] turns a failure of [SetOmap] into
    [ErrObjectExists] exactly when its text holds the message
    [error creating pool/object: (17) File exists]; [RemoveObject] turns a
    failure of [Delete] into [ErrObjectNotFound] exactly when its text holds
    the message [error removing pool>object: (2) No such file or directory]
    (the separator the code writes is [>]). Any other failure is passed on
    as it is. *)
Theorem object_errors_classified (monitors : string) (cr : Credentials)
    (poolName namespace objectName : string) (s : S) (text : string) :
  (let run := CreateObject monitors cr poolName namespace objectName s in
   util.observed util.failure_of (util.trace_of run) text ->
   (util.occurs_in ("error creating " ++ poolName ++ "/" ++ objectName
                    ++ ": (17) File exists") text ->
    util.value_of run = Some (util.ErrObjectExists objectName (util.external text))) /\
   (~ util.occurs_in ("error creating " ++ poolName ++ "/" ++ objectName
                      ++ ": (17) File exists") text ->
    util.value_of run = Some (util.external text))) /\
  (let run := RemoveObject monitors cr poolName namespace objectName s in
   util.observed util.failure_of (util.trace_of run) text ->
   (util.occurs_in ("error removing " ++ poolName ++ ">" ++ objectName
                    ++ ": (2) No such file or directory") text ->
    util.value_of run = Some (util.ErrObjectNotFound objectName (util.external text))) /\
   (~ util.occurs_in ("error removing " ++ poolName ++ ">" ++ objectName
                      ++ ": (2) No such file or directory") text ->
    util.value_of run = Some (util.external text))).
Proof.
  split; intros run; subst run; explore_util; intros Hobs; use_util_observed.
  all: repeat match goal with
       | H : util.Contains _ _ = true |- _ => apply Contains_occurs in H
       | H : util.Contains _ _ = false |- _ =>
           apply not_true_iff_false in H; rewrite Contains_occurs in H
       end.
  all: split; intros Hocc; try reflexivity; try contradiction.
Qed.

End UtilProperties.

(** * Concrete runs *)

(** Replace the trace of a concrete run by the list of its events. *)
Ltac run_trace :=
  match goal with
  | |- context [trace_of ?r] =>
      let t := eval vm_compute in (trace_of r) in
      change (trace_of r) with t
  end.

Ltac observed_in_run := run_trace; show_observed.

(** C1, the claim as stated fails: (1) [DeleteVolume], lookup fails with
    [VolumeNotFound], [Unreserve] fails: the request is an internal failure,
    not a success; (2) [DeleteVolume], lookup fails with [VolumeNotFound]
    while the lock of the request name is held: the request is aborted and
    [Unreserve] never runs; (3) [DeleteVolume] on a server with the
    version-1.0.0 metadata store, lookup fails with [InvalidVolID] and the
    store has no entry: the request succeeds, it is not an internal
    failure. *)
Lemma Delete_lookup_failure_counterexample :
  (let run := DeleteVolume (env (lookup_fails VolumeNotFound_error (Some omap_error) None))
                sample_DeleteVolumeRequest sample_server tt in
   observed volume_lookup_of (trace_of run)
     (dv_VolumeId sample_DeleteVolumeRequest,
      (sample_volumeOptions, sample_volumeIdentifier, Some VolumeNotFound_error)) /\
   result_of run = Err (status Internal (Error (ceph omap_error)))) /\
  (let run := DeleteVolume (env (lookup_fails VolumeNotFound_error None None))
                sample_DeleteVolumeRequest (server_with_volume_lock "pvc-1") tt in
   observed volume_lookup_of (trace_of run)
     (dv_VolumeId sample_DeleteVolumeRequest,
      (sample_volumeOptions, sample_volumeIdentifier, Some VolumeNotFound_error)) /\
   result_of run = Err (status_Errorf Aborted VolumeOperationAlreadyExistsFmt "pvc-1") /\
   calls_of (trace_of run)
   = [validateDeleteVolumeRequest;
      newVolumeOptionsFromVolID (dv_VolumeId sample_DeleteVolumeRequest) ∅]) /\
  (let run := DeleteVolume (env (lookup_fails InvalidVolID_error None
                                   (Some CacheEntryNotFound_error)))
                sample_DeleteVolumeRequest legacy_server tt in
   observed volume_lookup_of (trace_of run)
     (dv_VolumeId sample_DeleteVolumeRequest,
      (sample_volumeOptions, sample_volumeIdentifier, Some InvalidVolID_error)) /\
   result_of run = Ok Build_DeleteVolumeResponse).
Proof.
  split; [|split]; cbv zeta.
  - split; [observed_in_run | vm_compute; reflexivity].
  - split; [observed_in_run | split; vm_compute; reflexivity].
  - split; [observed_in_run | vm_compute; reflexivity].
Qed.

Lemma Delete_lookup_failure_classified_witness :
  (* the pool is gone *)
  (let run := DeleteVolume (env (lookup_fails PoolNotFound_error None None))
                sample_DeleteVolumeRequest sample_server tt in
   observed volume_lookup_of (trace_of run)
     (dv_VolumeId sample_DeleteVolumeRequest,
      (sample_volumeOptions, sample_volumeIdentifier, Some PoolNotFound_error)) /\
   result_of run = Ok Build_DeleteVolumeResponse /\
   no_call (fun c => journal_write c || backing_call c) (trace_of run)) /\
  (* the subvolume is gone, the journal entry is not *)
  (let run := DeleteVolume (env (lookup_fails VolumeNotFound_error None None))
                sample_DeleteVolumeRequest sample_server tt in
   observed volume_lookup_of (trace_of run)
     (dv_VolumeId sample_DeleteVolumeRequest,
      (sample_volumeOptions, sample_volumeIdentifier, Some VolumeNotFound_error)) /\
   (RequestName sample_volumeOptions
      ∉ {[dv_VolumeId sample_DeleteVolumeRequest]} ∪ VolumeLocks sample_server) /\
   exists r,
     In (Ev (undoVolReservation sample_volumeOptions sample_volumeIdentifier ∅) r)
        (trace_of run) /\
     result_of run = after_unreserve Build_DeleteVolumeResponse r /\
     no_call backing_call (trace_of run)) /\
  (* the snapshot is gone, the journal entry is not *)
  (let run := DeleteSnapshot (env (lookup_fails SnapNotFound_error None None))
                sample_DeleteSnapshotRequest sample_server tt in
   observed snapshot_lookup_of (trace_of run)
     (ds_SnapshotId sample_DeleteSnapshotRequest,
      (with_RequestName "snap-1" sample_volumeOptions, sample_snapshotIdentifier,
       Some SnapNotFound_error)) /\
   exists r,
     In (Ev (undoSnapReservation (with_RequestName "snap-1" sample_volumeOptions)
               sample_snapshotIdentifier ∅) r)
        (trace_of run) /\
     result_of run = after_unreserve Build_DeleteSnapshotResponse r /\
     no_call backing_call (trace_of run)).
Proof.
  split; [|split]; cbv zeta.
  - assert (Hobs : observed volume_lookup_of
                     (trace_of (DeleteVolume (env (lookup_fails PoolNotFound_error None None))
                                  sample_DeleteVolumeRequest sample_server tt))
                     (dv_VolumeId sample_DeleteVolumeRequest,
                      (sample_volumeOptions, sample_volumeIdentifier, Some PoolNotFound_error)))
      by observed_in_run.
    split; [exact Hobs|].
    exact (proj1 (Delete_lookup_failure_classified _) _ _ _ _ _ _ Hobs).
  - assert (Hobs : observed volume_lookup_of
                     (trace_of (DeleteVolume (env (lookup_fails VolumeNotFound_error None None))
                                  sample_DeleteVolumeRequest sample_server tt))
                     (dv_VolumeId sample_DeleteVolumeRequest,
                      (sample_volumeOptions, sample_volumeIdentifier, Some VolumeNotFound_error)))
      by observed_in_run.
    assert (Hfree : RequestName sample_volumeOptions
                      ∉ {[dv_VolumeId sample_DeleteVolumeRequest]} ∪ VolumeLocks sample_server)
      by (vm_compute; discriminate).
    split; [exact Hobs|]. split; [exact Hfree|].
    exact (proj2 (proj1 (Delete_lookup_failure_classified _) _ _ _ _ _ _ Hobs) Hfree).
  - assert (Hobs : observed snapshot_lookup_of
                     (trace_of (DeleteSnapshot (env (lookup_fails SnapNotFound_error None None))
                                  sample_DeleteSnapshotRequest sample_server tt))
                     (ds_SnapshotId sample_DeleteSnapshotRequest,
                      (with_RequestName "snap-1" sample_volumeOptions,
                       sample_snapshotIdentifier, Some SnapNotFound_error)))
      by observed_in_run.
    split; [exact Hobs|].
    exact (proj2 (Delete_lookup_failure_classified _) _ _ _ _ _ _ Hobs).
Defined.


(** The two cases on concrete attempts: a clone that is still in progress,
    and a plain create whose backing subvolume cannot be created. *)
Lemma CreateVolume_reservation_kept_or_undone_witness :
  (let run := CreateVolume (env clone_pending) roundUpMiB
                sample_CloneRequest sample_server tt in
   let e := ErrCloneInProgress_for (FsSubvolName sample_volumeIdentifier) in
   result_of run = Err (status Aborted (Error (ceph e))) /\
   errorType e = ErrCloneInProgress /\
   no_call is_unreserve (trace_of run)) /\
  (let run := CreateVolume (env create_fails) roundUpMiB
                sample_CreateVolumeRequest sample_server tt in
   let volOptions := with_Size 1073741824 sample_volumeOptions in
   let err := status Internal (Error (ceph (an_error errorString "quota exceeded"))) in
   observed reserveVol_of (trace_of run) (volOptions, (sample_volumeIdentifier, None)) /\
   result_of run = Err err /\
   exists r,
     last (trace_of run)
     = Some (Ev (undoVolReservation volOptions sample_volumeIdentifier ∅) r)).
Proof.
  split; cbv zeta.
  - assert (Hres : result_of (CreateVolume (env clone_pending) roundUpMiB
                                sample_CloneRequest sample_server tt)
                   = Err (status Aborted
                            (Error (ceph (ErrCloneInProgress_for
                                            (FsSubvolName sample_volumeIdentifier))))))
      by (vm_compute; reflexivity).
    split; [exact Hres|]. split; [reflexivity|].
    exact (proj1 (CreateVolume_reservation_kept_or_undone _ _ _ _ _) _ Hres eq_refl).
  - assert (Hobs : observed reserveVol_of
                     (trace_of (CreateVolume (env create_fails) roundUpMiB
                                  sample_CreateVolumeRequest sample_server tt))
                     (with_Size 1073741824 sample_volumeOptions,
                      (sample_volumeIdentifier, None)))
      by observed_in_run.
    assert (Hres : result_of (CreateVolume (env create_fails) roundUpMiB
                                sample_CreateVolumeRequest sample_server tt)
                   = Err (status Internal
                            (Error (ceph (an_error errorString "quota exceeded")))))
      by (vm_compute; reflexivity).
    split; [exact Hobs|]. split; [exact Hres|].
    refine (proj2 (CreateVolume_reservation_kept_or_undone _ _ _ _ _) _ _ _ Hobs Hres _).
    intros e He. discriminate He.
Defined.





(** C5, the rollback of clone-from-volume misses a case. [cloneSnapshot]
    fails after the temporary snapshot was created and protected: the error
    is returned, but the rollback only calls [deleteSnapshot]; the protected
    snapshot is not unprotected first and [purgeVolume] is not called for
    the clone. *)
Theorem createCloneFromSubvolume_rollback_gap :
  let run := createCloneFromSubvolume (env clone_fails) source_subvolume
               clone_subvolume sample_volumeOptions sample_credentials
               sample_server tt in
  result_of run = Some (an_error errorString "clone failed: no space left") /\
  calls_of (trace_of run)
  = [ createSnapshot sample_volumeOptions sample_credentials clone_subvolume source_subvolume;
      protectSnapshot sample_volumeOptions sample_credentials clone_subvolume source_subvolume;
      cloneSnapshot sample_volumeOptions sample_credentials source_subvolume
        clone_subvolume clone_subvolume (cloneVolOptions "csi" "myfs-metadata");
      deleteSnapshot sample_volumeOptions sample_credentials clone_subvolume source_subvolume ].
Proof.
  cbv zeta; split; vm_compute; reflexivity.
Qed.

(** When [getcloneInfo] fails in clone-from-volume, the function tests [err]
    where [cloneErr] holds the failure: the rollback runs in full (unprotect,
    delete snapshot, purge clone), and the caller is told [CloneInProgress].
    [CreateVolume] then keeps the reservation, as it does for every
    [CloneInProgress]. *)
Lemma createCloneFromSubvolume_failed_status_query :
  (let run := createCloneFromSubvolume (env cloneInfo_fails) source_subvolume
                clone_subvolume sample_volumeOptions sample_credentials
                sample_server tt in
   result_of run = Some (ErrCloneInProgress_for clone_subvolume) /\
   calls_of (trace_of run)
   = [ createSnapshot sample_volumeOptions sample_credentials clone_subvolume source_subvolume;
       protectSnapshot sample_volumeOptions sample_credentials clone_subvolume source_subvolume;
       cloneSnapshot sample_volumeOptions sample_credentials source_subvolume
         clone_subvolume clone_subvolume (cloneVolOptions "csi" "myfs-metadata");
       getcloneInfo sample_volumeOptions sample_credentials clone_subvolume;
       unprotectSnapshot sample_volumeOptions sample_credentials clone_subvolume source_subvolume;
       deleteSnapshot sample_volumeOptions sample_credentials clone_subvolume source_subvolume;
       purgeVolume clone_subvolume sample_credentials sample_volumeOptions ]) /\
  (let run := CreateVolume (env cloneInfo_fails) roundUpMiB sample_CloneRequest
                sample_server tt in
   result_of run
   = Err (status Aborted
            (Error (ceph (ErrCloneInProgress_for (FsSubvolName sample_volumeIdentifier))))) /\
   existsb is_unreserve (calls_of (trace_of run)) = false /\
   existsb (fun c => match c with purgeVolume _ _ _ => true | _ => false end)
     (calls_of (trace_of run)) = true).
Proof.
  split; cbv zeta; repeat split; vm_compute; reflexivity.
Qed.

(** C4, a final failure after the reservation leaves the reservation in
    place. The request asks for a clone of a volume; the reservation is
    taken; the temporary snapshot is created and protected and the clone is
    started; [getcloneInfo] then fails. Clone-from-volume tests [err] where
    [cloneErr] holds that failure, so it reports [CloneInProgress], while its
    rollback unprotects and deletes the snapshot and purges the clone.
    Nothing is in progress any more, yet [CreateVolume] answers [Aborted]
    and makes no [Unreserve] call. *)
Theorem CreateVolume_keeps_reservation_of_purged_clone :
  let run := CreateVolume (env cloneInfo_fails) roundUpMiB sample_CloneRequest
               sample_server tt in
  let volOptions := with_Size 1073741824 (with_RequestName "pvc-2" sample_volumeOptions) in
  let cloneID := FsSubvolName sample_volumeIdentifier in
  observed reserveVol_of (trace_of run) (volOptions, (sample_volumeIdentifier, None)) /\
  observed getcloneInfo_of (trace_of run)
    (CloneStatus_zero, Some (an_error errorString "clone status: connection lost")) /\
  observed outcome_of (trace_of run)
    (purgeVolume cloneID sample_credentials volOptions, None) /\
  result_of run = Err (status Aborted (Error (ceph (ErrCloneInProgress_for cloneID)))) /\
  no_call is_unreserve (trace_of run).
Proof.
  cbv zeta.
  split; [observed_in_run|]. split; [observed_in_run|]. split; [observed_in_run|].
  split; [vm_compute; reflexivity|].
  run_trace. unfold no_call. repeat constructor.
Qed.

(** C7, [DeleteVolume] returns with a lock it acquired still held. The
    server holds no lock; the volume is found under request name [pvc-1];
    the delete succeeds and the lock on [pvc-1] is held afterwards, so the
    next [CreateVolume] for [pvc-1] is aborted. *)
Theorem DeleteVolume_request_name_lock_stays_held :
  let run := DeleteVolume (env nominal) sample_DeleteVolumeRequest sample_server tt in
  VolumeLocks sample_server = ∅ /\
  result_of run = Ok Build_DeleteVolumeResponse /\
  VolumeLocks (server_of run) = {[ "pvc-1" ]} /\
  result_of (CreateVolume (env nominal) roundUpMiB sample_CreateVolumeRequest
               (server_of run) tt)
  = Err (status_Errorf Aborted VolumeOperationAlreadyExistsFmt "pvc-1").
Proof.
  cbv zeta. repeat split; vm_compute; reflexivity.
Qed.

(** * Concrete runs of the further properties *)

(** X1, on the sample delete: the lock on [pvc-1] is left behind. *)
Lemma DeleteVolume_keeps_name_lock_witness :
  let run := DeleteVolume (env nominal) sample_DeleteVolumeRequest sample_server tt in
  observed volume_lookup_of (trace_of run)
    (dv_VolumeId sample_DeleteVolumeRequest,
     (sample_volumeOptions, sample_volumeIdentifier, None)) /\
  (RequestName sample_volumeOptions
     ∉ {[dv_VolumeId sample_DeleteVolumeRequest]} ∪ VolumeLocks sample_server) /\
  VolumeLocks (server_of run) = {[RequestName sample_volumeOptions]} ∪ VolumeLocks sample_server.
Proof.
  cbv zeta.
  assert (Hobs : observed volume_lookup_of
                   (trace_of (DeleteVolume (env nominal) sample_DeleteVolumeRequest
                                sample_server tt))
                   (dv_VolumeId sample_DeleteVolumeRequest,
                    (sample_volumeOptions, sample_volumeIdentifier, None)))
    by observed_in_run.
  assert (Hfree : RequestName sample_volumeOptions
                    ∉ {[dv_VolumeId sample_DeleteVolumeRequest]} ∪ VolumeLocks sample_server)
    by (vm_compute; discriminate).
  split; [exact Hobs|]. split; [exact Hfree|].
  exact (DeleteVolume_keeps_name_lock (env nominal) _ _ _ _ _ Hobs Hfree).
Defined.

(** X3, with the lock held in each of the four operations. *)
Lemma lock_contention_aborts_witness :
  (let cs := server_with_volume_lock (dv_VolumeId sample_DeleteVolumeRequest) in
   let run := DeleteVolume (env nominal) sample_DeleteVolumeRequest cs tt in
   result_of run
   = Err (status_Errorf Aborted VolumeOperationAlreadyExistsFmt
            (dv_VolumeId sample_DeleteVolumeRequest)) /\
   calls_of (trace_of run) = [validateDeleteVolumeRequest] /\
   server_of run = cs) /\
  (let cs := server_with_volume_lock (ev_VolumeId sample_ExpandRequest) in
   let run := ControllerExpandVolume (env nominal) roundUpMiB sample_ExpandRequest cs tt in
   result_of run
   = Err (status_Errorf Aborted VolumeOperationAlreadyExistsFmt
            (ev_VolumeId sample_ExpandRequest)) /\
   calls_of (trace_of run) = [validateExpandVolumeRequest sample_ExpandRequest] /\
   server_of run = cs) /\
  (let cs := server_with_snapshot_lock "snap-1" in
   let run := CreateSnapshot (env nominal) sample_CreateSnapshotRequest cs tt in
   result_of run
   = Err (status_Errorf Aborted SnapshotOperationAlreadyExistsFmt "snap-1") /\
   calls_of (trace_of run) = [ValidateControllerServiceRequest RPC_CREATE_DELETE_SNAPSHOT] /\
   server_of run = cs) /\
  (let cs := server_with_snapshot_lock (ds_SnapshotId sample_DeleteSnapshotRequest) in
   let run := DeleteSnapshot (env nominal) sample_DeleteSnapshotRequest cs tt in
   result_of run
   = Err (status_Errorf Aborted SnapshotOperationAlreadyExistsFmt
            (ds_SnapshotId sample_DeleteSnapshotRequest)) /\
   calls_of (trace_of run)
   = [ ValidateControllerServiceRequest RPC_CREATE_DELETE_SNAPSHOT;
       NewAdminCredentials ∅; DeleteCredentials sample_credentials ] /\
   server_of run = cs).
Proof.
  destruct (lock_contention_aborts (env nominal) roundUpMiB) as (Hdv & Hev & Hcs & Hds).
  split; [|split; [|split] ]; cbv zeta.
  - apply Hdv; [vm_compute; reflexivity | reflexivity].
  - apply Hev; [vm_compute; reflexivity | reflexivity].
  - apply Hcs; [vm_compute; reflexivity | reflexivity].
  - apply Hds; [vm_compute; reflexivity | discriminate | reflexivity | observed_in_run].
Defined.

(** X4, on a clone that is still in progress. *)
Lemma CreateVolume_aborted_witness :
  let run := CreateVolume (env clone_pending) roundUpMiB sample_CloneRequest sample_server tt in
  let m := Error (ceph (ErrCloneInProgress_for (FsSubvolName sample_volumeIdentifier))) in
  fst (env clone_pending (validateCreateVolumeRequest sample_CloneRequest) tt) = None /\
  result_of run = Err (status Aborted m) /\
  ((Name sample_CloneRequest ∈ VolumeLocks sample_server /\
    m = Errorf VolumeOperationAlreadyExistsFmt (Name sample_CloneRequest)) \/
   (exists e : cephError, m = Error (ceph e) /\ errorType e = ErrCloneInProgress)).
Proof.
  cbv zeta.
  assert (Hres : result_of (CreateVolume (env clone_pending) roundUpMiB
                              sample_CloneRequest sample_server tt)
                 = Err (status Aborted
                          (Error (ceph (ErrCloneInProgress_for
                                          (FsSubvolName sample_volumeIdentifier))))))
    by (vm_compute; reflexivity).
  split; [reflexivity|]. split; [exact Hres|].
  exact (CreateVolume_aborted (env clone_pending) roundUpMiB _ _ _ _ eq_refl Hres).
Defined.

(** X5, on the sample request: 1 GiB is asked for and reported. *)
Lemma CreateVolume_response_witness :
  let run := CreateVolume (env nominal) roundUpMiB sample_CreateVolumeRequest sample_server tt in
  exists resp,
    result_of run = Ok resp /\
    exists vID,
      (observed checkVolExists_of (trace_of run) (Some vID, None) \/
       exists volOptions, observed reserveVol_of (trace_of run) (volOptions, (vID, None))) /\
      VolumeId (Volume_ resp) = VolumeID vID /\
      VolumeContext (Volume_ resp) !! "subvolumeName" = Some (FsSubvolName vID) /\
      (forall key, key <> "subvolumeName" ->
         VolumeContext (Volume_ resp) !! key = Parameters sample_CreateVolumeRequest !! key) /\
      ContentSource (Volume_ resp) = volume_content_source sample_CreateVolumeRequest /\
      (forall cr, capacity_range sample_CreateVolumeRequest = Some cr ->
         CapacityBytes (Volume_ resp) = roundUpMiB (RequiredBytes cr)).
Proof.
  cbv zeta.
  destruct (result_of (CreateVolume (env nominal) roundUpMiB sample_CreateVolumeRequest
                         sample_server tt)) as [resp|err] eqn:Hres;
    [|vm_compute in Hres; discriminate Hres].
  exists resp. split; [reflexivity|].
  exact (CreateVolume_response (env nominal) roundUpMiB _ _ _ resp Hres).
Defined.

(** X6, on the sample request. *)
Lemma CreateVolume_reserves_first_witness :
  let run := CreateVolume (env nominal) roundUpMiB sample_CreateVolumeRequest sample_server tt in
  let volOptions := with_Size 1073741824 sample_volumeOptions in
  let ev := Ev (createVolume volOptions sample_credentials
                  (FsSubvolName sample_volumeIdentifier) 1073741824) None in
  (exists before after,
      trace_of run = before ++ ev :: after /\
      is_call backing_call ev = true /\
      exists volOptions vID, observed reserveVol_of before (volOptions, (vID, None))) /\
  (exists resp, result_of run = Ok resp /\ no_call is_unreserve (trace_of run)).
Proof.
  cbv zeta.
  destruct (CreateVolume_reserves_first (env nominal) roundUpMiB
              sample_CreateVolumeRequest sample_server tt) as (Horder & Hkept).
  split.
  - eexists (firstn 5 (trace_of (CreateVolume (env nominal) roundUpMiB
                                   sample_CreateVolumeRequest sample_server tt))),
            (skipn 6 (trace_of (CreateVolume (env nominal) roundUpMiB
                                  sample_CreateVolumeRequest sample_server tt))).
    assert (Htrace : trace_of (CreateVolume (env nominal) roundUpMiB
                                 sample_CreateVolumeRequest sample_server tt)
                     = firstn 5 (trace_of (CreateVolume (env nominal) roundUpMiB
                                             sample_CreateVolumeRequest sample_server tt))
                       ++ Ev (createVolume (with_Size 1073741824 sample_volumeOptions)
                                sample_credentials (FsSubvolName sample_volumeIdentifier)
                                1073741824) None
                       :: skipn 6 (trace_of (CreateVolume (env nominal) roundUpMiB
                                               sample_CreateVolumeRequest sample_server tt)))
      by (vm_compute; reflexivity).
    split; [exact Htrace|]. split; [reflexivity|].
    exact (Horder _ _ _ Htrace eq_refl).
  - destruct (result_of (CreateVolume (env nominal) roundUpMiB sample_CreateVolumeRequest
                           sample_server tt)) as [resp|err] eqn:Hres;
      [|vm_compute in Hres; discriminate Hres].
    exists resp. split; [reflexivity|]. exact (Hkept resp eq_refl).
Defined.


(** X8, cloning from a volume whose subvolume is gone: the answer is
    [Internal]. *)
Lemma createBackingVolume_source_lookup_failure_witness :
  let run := createBackingVolume (env (lookup_fails VolumeNotFound_error None None))
               sample_CloneRequest sample_volumeOptions sample_volumeIdentifier ∅
               sample_server tt in
  observed volume_lookup_of (trace_of run)
    ("0001-0009-rook-ceph-0000000000000002-b0285c97-a0ce-11eb-8c66-0242ac110002",
     (sample_volumeOptions, sample_volumeIdentifier, Some VolumeNotFound_error)) /\
  result_of run = Some (status Internal (Error (ceph VolumeNotFound_error))) /\
  no_call backing_call (trace_of run).
Proof.
  cbv zeta.
  assert (Hobs : observed volume_lookup_of
                   (trace_of (createBackingVolume
                                (env (lookup_fails VolumeNotFound_error None None))
                                sample_CloneRequest sample_volumeOptions
                                sample_volumeIdentifier ∅ sample_server tt))
                   ("0001-0009-rook-ceph-0000000000000002-b0285c97-a0ce-11eb-8c66-0242ac110002",
                    (sample_volumeOptions, sample_volumeIdentifier,
                     Some VolumeNotFound_error)))
    by observed_in_run.
  split; [exact Hobs|].
  exact (proj2 (createBackingVolume_source_lookup_failure
                  (env (lookup_fails VolumeNotFound_error None None))
                  _ _ _ _ _ _) _ _ _ _ Hobs).
Defined.

(** X9, a volume of version 1.0.0 whose metadata is found: the delete is
    aborted on the lock that [DeleteVolume] itself holds. *)
Lemma DeleteVolume_never_deletes_deprecated_witness :
  let run := DeleteVolume (env (lookup_fails InvalidVolID_error None None))
               sample_DeleteVolumeRequest legacy_server tt in
  let ce := {| VolOptions := sample_volumeOptions; cacheVolumeID := "" |} in
  observed MetadataStore_Get_of (trace_of run) (ce, None) /\
  ProvisionVolume (VolOptions ce) = true /\
  observed NewAdminCredentials_of (trace_of run) (sample_credentials, None) /\
  no_call deprecated_delete (trace_of run) /\
  result_of run
  = Err (status_Errorf Aborted VolumeOperationAlreadyExistsFmt
           (dv_VolumeId sample_DeleteVolumeRequest)).
Proof.
  cbv zeta.
  assert (Hget : observed MetadataStore_Get_of
                   (trace_of (DeleteVolume (env (lookup_fails InvalidVolID_error None None))
                                sample_DeleteVolumeRequest legacy_server tt))
                   ({| VolOptions := sample_volumeOptions; cacheVolumeID := "" |}, None))
    by observed_in_run.
  assert (Hcred : observed NewAdminCredentials_of
                    (trace_of (DeleteVolume (env (lookup_fails InvalidVolID_error None None))
                                 sample_DeleteVolumeRequest legacy_server tt))
                    (sample_credentials, None))
    by observed_in_run.
  destruct (DeleteVolume_never_deletes_deprecated
              (env (lookup_fails InvalidVolID_error None None))
              sample_DeleteVolumeRequest legacy_server tt) as (Hnever & Haborted).
  split; [exact Hget|]. split; [reflexivity|]. split; [exact Hcred|].
  split; [exact Hnever|]. exact (Haborted _ _ Hget eq_refl Hcred).
Defined.

(** X10, on the sample delete. *)
Lemma DeleteVolume_found_volume_witness :
  let run := DeleteVolume (env nominal) sample_DeleteVolumeRequest sample_server tt in
  observed volume_lookup_of (trace_of run)
    (dv_VolumeId sample_DeleteVolumeRequest,
     (sample_volumeOptions, sample_volumeIdentifier, None)) /\
  result_of run = Ok Build_DeleteVolumeResponse /\
  exists cr p,
    match p with
    | None => True
    | Some e => errorType e = ErrVolumeNotFound
    end /\
    trace_of run
    = [ Ev validateDeleteVolumeRequest None;
        Ev (newVolumeOptionsFromVolID (dv_VolumeId sample_DeleteVolumeRequest) ∅)
           (sample_volumeOptions, sample_volumeIdentifier, None);
        Ev (NewAdminCredentials ∅) (cr, None);
        Ev (purgeVolume (FsSubvolName sample_volumeIdentifier) cr sample_volumeOptions) p;
        Ev (undoVolReservation sample_volumeOptions sample_volumeIdentifier ∅) None;
        Ev (DeleteCredentials cr) tt ].
Proof.
  cbv zeta.
  assert (Hobs : observed volume_lookup_of
                   (trace_of (DeleteVolume (env nominal) sample_DeleteVolumeRequest
                                sample_server tt))
                   (dv_VolumeId sample_DeleteVolumeRequest,
                    (sample_volumeOptions, sample_volumeIdentifier, None)))
    by observed_in_run.
  assert (Hres : result_of (DeleteVolume (env nominal) sample_DeleteVolumeRequest
                              sample_server tt) = Ok Build_DeleteVolumeResponse)
    by (vm_compute; reflexivity).
  split; [exact Hobs|]. split; [exact Hres|].
  exact (proj1 (DeleteVolume_found_volume (env nominal) _ _ _ _ _ Hobs) Hres).
Defined.

(** X11, a provisioned volume of version 1.0.0, deleted while no lock is
    held. *)
Lemma deleteVolumeDeprecated_outcomes_witness :
  let run := deleteVolumeDeprecated (env nominal) sample_DeleteVolumeRequest
               legacy_server tt in
  let ce := {| VolOptions := sample_volumeOptions; cacheVolumeID := "" |} in
  let volID := dv_VolumeId sample_DeleteVolumeRequest in
  observed MetadataStore_Get_of (trace_of run) (ce, None) /\
  result_of run = Ok Build_DeleteVolumeResponse /\
  ProvisionVolume (VolOptions ce) = true /\
  (exists cr mon secretsErr volOptions,
      observed GetMonValFromSecret_of (trace_of run) (mon, secretsErr) /\
      (secretsErr = None -> mon <> "" -> volOptions = with_Monitors mon (VolOptions ce)) /\
      (secretsErr <> None \/ mon = "" -> volOptions = VolOptions ce) /\
      List.filter deprecated_delete (calls_of (trace_of run))
      = [ purgeVolumeDeprecated volID cr volOptions;
          deleteCephUserDeprecated volOptions cr volID;
          MetadataStore_Delete volID ]) /\
  locks_restored legacy_server (server_of run).
Proof.
  cbv zeta.
  assert (Hget : observed MetadataStore_Get_of
                   (trace_of (deleteVolumeDeprecated (env nominal) sample_DeleteVolumeRequest
                                legacy_server tt))
                   ({| VolOptions := sample_volumeOptions; cacheVolumeID := "" |}, None))
    by observed_in_run.
  assert (Hres : result_of (deleteVolumeDeprecated (env nominal) sample_DeleteVolumeRequest
                              legacy_server tt) = Ok Build_DeleteVolumeResponse)
    by (vm_compute; reflexivity).
  destruct (deleteVolumeDeprecated_outcomes (env nominal) sample_DeleteVolumeRequest
              legacy_server tt) as (_ & _ & Hfull & _ & Hlocks).
  split; [exact Hget|]. split; [exact Hres|]. split; [reflexivity|].
  split; [exact (Hfull _ Hget Hres eq_refl) | exact Hlocks].
Defined.

(** X12, expanding a volume whose pool is gone, and expanding one that is
    found: the first fails as [InvalidArgument] and touches nothing, neither
    writes to the journal. *)
Lemma ControllerExpandVolume_failure_witness :
  (let run := ControllerExpandVolume (env (lookup_fails PoolNotFound_error None None))
                roundUpMiB sample_ExpandRequest sample_server tt in
   observed volume_lookup_of (trace_of run)
     (ev_VolumeId sample_ExpandRequest,
      (sample_volumeOptions, sample_volumeIdentifier, Some PoolNotFound_error)) /\
   result_of run = Err (status InvalidArgument (Error (ceph PoolNotFound_error))) /\
   (forall volID size, ~ observed resizeVolume_of (trace_of run) (volID, size, None)) /\
   no_call backing_call (trace_of run) /\
   no_call journal_write (trace_of run)) /\
  (let run := ControllerExpandVolume (env nominal) roundUpMiB sample_ExpandRequest
                sample_server tt in
   (exists resp, result_of run = Ok resp) /\
   no_call journal_write (trace_of run)).
Proof.
  split; cbv zeta.
  - assert (Hobs : observed volume_lookup_of
                     (trace_of (ControllerExpandVolume
                                  (env (lookup_fails PoolNotFound_error None None))
                                  roundUpMiB sample_ExpandRequest sample_server tt))
                     (ev_VolumeId sample_ExpandRequest,
                      (sample_volumeOptions, sample_volumeIdentifier,
                       Some PoolNotFound_error)))
      by observed_in_run.
    destruct (ControllerExpandVolume_failure
                (env (lookup_fails PoolNotFound_error None None)) roundUpMiB
                sample_ExpandRequest sample_server tt) as (Hkept & Hlookup & Hjournal).
    destruct (Hlookup _ _ _ Hobs) as (Hres & Hbacking).
    split; [exact Hobs|]. split; [exact Hres|].
    split; [exact (Hkept _ Hres)|]. split; [exact Hbacking | exact Hjournal].
  - split; [eexists; vm_compute; reflexivity|].
    exact (proj2 (proj2 (ControllerExpandVolume_failure (env nominal) roundUpMiB
                           sample_ExpandRequest sample_server tt))).
Defined.

(** X13, a snapshot request without a name. *)
Lemma CreateSnapshot_empty_fields_witness :
  let run := CreateSnapshot (env nominal) unnamed_CreateSnapshotRequest sample_server tt in
  (cs_Name unnamed_CreateSnapshotRequest = ""
   \/ SourceVolumeId unnamed_CreateSnapshotRequest = "") /\
  result_of run
  = Err (status InvalidArgument (Text "snapshot Name cannot be empty")) /\
  calls_of (trace_of run) = [ValidateControllerServiceRequest RPC_CREATE_DELETE_SNAPSHOT] /\
  server_of run = sample_server.
Proof.
  cbv zeta. split; [left; reflexivity|].
  exact (CreateSnapshot_empty_fields (env nominal) unnamed_CreateSnapshotRequest
           sample_server tt eq_refl (or_introl eq_refl)).
Defined.

(** X14, a snapshot that cannot be protected: the backing snapshot is
    deleted and the reservation given up. *)
Lemma CreateSnapshot_rollback_witness :
  let run := CreateSnapshot (env protect_fails) sample_CreateSnapshotRequest sample_server tt in
  let volOptions := with_RequestName "snap-1" sample_volumeOptions in
  let subvol := FsSubvolName sample_volumeIdentifier in
  let snap := FsSnapshotName sample_snapshotIdentifier in
  (exists err, result_of run = Err err) /\
  observed reserveSnap_of (trace_of run) (volOptions, subvol, (sample_snapshotIdentifier, None)) /\
  (exists r,
      observed outcome_of (trace_of run)
        (undoSnapReservation volOptions sample_snapshotIdentifier ∅, r)) /\
  observed outcome_of (trace_of run)
    (createSnapshot volOptions sample_credentials snap subvol, None) /\
  (exists r,
      observed outcome_of (trace_of run)
        (deleteSnapshot volOptions sample_credentials snap subvol, r)).
Proof.
  cbv zeta.
  destruct (result_of (CreateSnapshot (env protect_fails) sample_CreateSnapshotRequest
                         sample_server tt)) as [resp|err] eqn:Hres;
    [vm_compute in Hres; discriminate Hres|].
  assert (Hreserve : observed reserveSnap_of
                       (trace_of (CreateSnapshot (env protect_fails)
                                    sample_CreateSnapshotRequest sample_server tt))
                       (with_RequestName "snap-1" sample_volumeOptions,
                        FsSubvolName sample_volumeIdentifier,
                        (sample_snapshotIdentifier, None)))
    by observed_in_run.
  assert (Hcreate : observed outcome_of
                      (trace_of (CreateSnapshot (env protect_fails)
                                   sample_CreateSnapshotRequest sample_server tt))
                      (createSnapshot (with_RequestName "snap-1" sample_volumeOptions)
                         sample_credentials (FsSnapshotName sample_snapshotIdentifier)
                         (FsSubvolName sample_volumeIdentifier), None))
    by observed_in_run.
  destruct (CreateSnapshot_rollback (env protect_fails) sample_CreateSnapshotRequest
              sample_server tt err Hres) as (Hundo & Hdelete).
  split; [exists err; reflexivity|]. split; [exact Hreserve|].
  split; [exact (Hundo _ _ _ Hreserve)|]. split; [exact Hcreate|].
  exact (Hdelete _ _ _ _ Hcreate).
Defined.

(** X15, on the sample snapshot request. *)
Lemma CreateSnapshot_fresh_snapshot_witness :
  let run := CreateSnapshot (env nominal) sample_CreateSnapshotRequest sample_server tt in
  observed checkSnapExists_of (trace_of run) (None, None) /\
  exists resp,
    result_of run = Ok resp /\
    exists parentVolOptions vid sID cr,
      let volOptions := with_RequestName (cs_Name sample_CreateSnapshotRequest)
                          parentVolOptions in
      observed volume_lookup_of (trace_of run)
        (SourceVolumeId sample_CreateSnapshotRequest, (parentVolOptions, vid, None)) /\
      observed reserveSnap_of (trace_of run) (volOptions, FsSubvolName vid, (sID, None)) /\
      observed outcome_of (trace_of run)
        (createSnapshot volOptions cr (FsSnapshotName sID) (FsSubvolName vid), None) /\
      observed outcome_of (trace_of run)
        (protectSnapshot volOptions cr (FsSnapshotName sID) (FsSubvolName vid), None) /\
      no_call snapshot_undo (trace_of run) /\
      SnapshotId (Snapshot_ resp) = SnapshotID sID /\
      snap_SourceVolumeId (Snapshot_ resp) = SourceVolumeId sample_CreateSnapshotRequest.
Proof.
  cbv zeta.
  assert (Hnone : observed checkSnapExists_of
                    (trace_of (CreateSnapshot (env nominal) sample_CreateSnapshotRequest
                                 sample_server tt))
                    (None, None))
    by observed_in_run.
  split; [exact Hnone|].
  destruct (result_of (CreateSnapshot (env nominal) sample_CreateSnapshotRequest
                         sample_server tt)) as [resp|err] eqn:Hres;
    [|vm_compute in Hres; discriminate Hres].
  exists resp. split; [reflexivity|].
  exact (CreateSnapshot_fresh_snapshot (env nominal) _ _ _ resp Hres Hnone).
Defined.


(** X17, a delete without a snapshot id. *)
Lemma DeleteSnapshot_empty_id_witness :
  let run := DeleteSnapshot (env nominal) empty_DeleteSnapshotRequest sample_server tt in
  ds_SnapshotId empty_DeleteSnapshotRequest = "" /\
  observed NewAdminCredentials_of (trace_of run) (sample_credentials, None) /\
  result_of run = Err (status InvalidArgument (Text "snapshot ID cannot be empty")) /\
  calls_of (trace_of run)
  = [ ValidateControllerServiceRequest RPC_CREATE_DELETE_SNAPSHOT;
      NewAdminCredentials ∅; DeleteCredentials sample_credentials ] /\
  server_of run = sample_server.
Proof.
  cbv zeta.
  assert (Hcred : observed NewAdminCredentials_of
                    (trace_of (DeleteSnapshot (env nominal) empty_DeleteSnapshotRequest
                                 sample_server tt))
                    (sample_credentials, None))
    by observed_in_run.
  destruct (DeleteSnapshot_empty_id (env nominal) empty_DeleteSnapshotRequest
              sample_server tt eq_refl) as (_ & Hresult & _ & Hserver).
  split; [reflexivity|]. split; [exact Hcred|].
  split; [exact (proj1 (Hresult _ Hcred))|].
  split; [exact (proj2 (Hresult _ Hcred)) | exact Hserver].
Defined.

(** X18, on the sample delete of a snapshot. *)
Lemma DeleteSnapshot_found_snapshot_witness :
  let run := DeleteSnapshot (env nominal) sample_DeleteSnapshotRequest sample_server tt in
  let volOpt := with_RequestName "snap-1" sample_volumeOptions in
  observed snapshot_lookup_of (trace_of run)
    (ds_SnapshotId sample_DeleteSnapshotRequest, (volOpt, sample_snapshotIdentifier, None)) /\
  result_of run = Ok Build_DeleteSnapshotResponse /\
  observed unreserve_of (trace_of run) None /\
  exists cr,
    observed outcome_of (trace_of run)
      (deleteSnapshot volOpt cr (FsSnapshotName sample_snapshotIdentifier)
         (FsSubVolumeName sample_snapshotIdentifier), None).
Proof.
  cbv zeta.
  assert (Hobs : observed snapshot_lookup_of
                   (trace_of (DeleteSnapshot (env nominal) sample_DeleteSnapshotRequest
                                sample_server tt))
                   (ds_SnapshotId sample_DeleteSnapshotRequest,
                    (with_RequestName "snap-1" sample_volumeOptions,
                     sample_snapshotIdentifier, None)))
    by observed_in_run.
  assert (Hres : result_of (DeleteSnapshot (env nominal) sample_DeleteSnapshotRequest
                              sample_server tt) = Ok Build_DeleteSnapshotResponse)
    by (vm_compute; reflexivity).
  destruct (DeleteSnapshot_found_snapshot (env nominal) _ _ _ _ _ Hobs)
    as (Hunreserve & _ & Hok).
  split; [exact Hobs|]. split; [exact Hres|].
  split; [exact (Hok Hres)|]. exact (proj2 (Hunreserve _ (Hok Hres))).
Defined.

(** X20, a clone that completes at once, and one that is still in
    progress. *)
Lemma createCloneFromSubvolume_outcomes_witness :
  (let run := createCloneFromSubvolume (env nominal) source_subvolume clone_subvolume
                sample_volumeOptions sample_credentials sample_server tt in
   result_of run = None /\
   calls_of (trace_of run)
   = [ createSnapshot sample_volumeOptions sample_credentials clone_subvolume source_subvolume;
       protectSnapshot sample_volumeOptions sample_credentials clone_subvolume source_subvolume;
       cloneSnapshot sample_volumeOptions sample_credentials source_subvolume
         clone_subvolume clone_subvolume (cloneVolOptions "csi" "myfs-metadata");
       getcloneInfo sample_volumeOptions sample_credentials clone_subvolume;
       resizeVolume sample_volumeOptions sample_credentials clone_subvolume 1073741824;
       unprotectSnapshot sample_volumeOptions sample_credentials clone_subvolume source_subvolume;
       deleteSnapshot sample_volumeOptions sample_credentials clone_subvolume source_subvolume ]) /\
  (let run := createCloneFromSubvolume (env clone_pending) source_subvolume clone_subvolume
                sample_volumeOptions sample_credentials sample_server tt in
   observed getcloneInfo_of (trace_of run) (pending_clone, None) /\
   State (Status pending_clone) <> "complete" /\
   result_of run = Some (ErrCloneInProgress_for clone_subvolume) /\
   calls_of (trace_of run)
   = [ createSnapshot sample_volumeOptions sample_credentials clone_subvolume source_subvolume;
       protectSnapshot sample_volumeOptions sample_credentials clone_subvolume source_subvolume;
       cloneSnapshot sample_volumeOptions sample_credentials source_subvolume
         clone_subvolume clone_subvolume (cloneVolOptions "csi" "myfs-metadata");
       getcloneInfo sample_volumeOptions sample_credentials clone_subvolume ]).
Proof.
  split; cbv zeta.
  - assert (Hres : result_of (createCloneFromSubvolume (env nominal) source_subvolume
                                clone_subvolume sample_volumeOptions sample_credentials
                                sample_server tt) = None)
      by (vm_compute; reflexivity).
    split; [exact Hres|].
    exact (proj1 (createCloneFromSubvolume_outcomes (env nominal) source_subvolume
                    clone_subvolume sample_volumeOptions sample_credentials
                    sample_server tt) Hres).
  - assert (Hobs : observed getcloneInfo_of
                     (trace_of (createCloneFromSubvolume (env clone_pending) source_subvolume
                                  clone_subvolume sample_volumeOptions sample_credentials
                                  sample_server tt))
                     (pending_clone, None))
      by observed_in_run.
    assert (Hstate : State (Status pending_clone) <> "complete") by discriminate.
    split; [exact Hobs|]. split; [exact Hstate|].
    exact (proj2 (createCloneFromSubvolume_outcomes (env clone_pending) source_subvolume
                    clone_subvolume sample_volumeOptions sample_credentials
                    sample_server tt) _ Hobs Hstate).
Defined.

(** X21, a snapshot that cannot be protected, and a complete clone that
    cannot be resized. *)
Lemma createCloneFromSubvolume_rollback_witness :
  (let run := createCloneFromSubvolume (env protect_fails) source_subvolume clone_subvolume
                sample_volumeOptions sample_credentials sample_server tt in
   let e := an_error errorString "snapshot protect: permission denied" in
   observed outcome_of (trace_of run)
     (protectSnapshot sample_volumeOptions sample_credentials clone_subvolume
        source_subvolume, Some e) /\
   result_of run = Some e /\
   calls_of (trace_of run)
   = [ createSnapshot sample_volumeOptions sample_credentials clone_subvolume source_subvolume;
       protectSnapshot sample_volumeOptions sample_credentials clone_subvolume source_subvolume;
       deleteSnapshot sample_volumeOptions sample_credentials clone_subvolume source_subvolume ]) /\
  (let run := createCloneFromSubvolume (env resize_fails) source_subvolume clone_subvolume
                sample_volumeOptions sample_credentials sample_server tt in
   observed getcloneInfo_of (trace_of run) (complete_clone, None) /\
   result_of run = Some (an_error errorString "resize: quota exceeded") /\
   exists before,
     calls_of (trace_of run)
     = before
       ++ [ unprotectSnapshot sample_volumeOptions sample_credentials clone_subvolume
              source_subvolume;
            deleteSnapshot sample_volumeOptions sample_credentials clone_subvolume
              source_subvolume;
            purgeVolume clone_subvolume sample_credentials sample_volumeOptions ]).
Proof.
  split; cbv zeta.
  - assert (Hobs : observed outcome_of
                     (trace_of (createCloneFromSubvolume (env protect_fails) source_subvolume
                                  clone_subvolume sample_volumeOptions sample_credentials
                                  sample_server tt))
                     (protectSnapshot sample_volumeOptions sample_credentials clone_subvolume
                        source_subvolume,
                      Some (an_error errorString "snapshot protect: permission denied")))
      by observed_in_run.
    split; [exact Hobs|].
    exact (proj1 (createCloneFromSubvolume_rollback (env protect_fails) source_subvolume
                    clone_subvolume sample_volumeOptions sample_credentials
                    sample_server tt) _ Hobs).
  - assert (Hobs : observed getcloneInfo_of
                     (trace_of (createCloneFromSubvolume (env resize_fails) source_subvolume
                                  clone_subvolume sample_volumeOptions sample_credentials
                                  sample_server tt))
                     (complete_clone, None))
      by observed_in_run.
    assert (Hres : result_of (createCloneFromSubvolume (env resize_fails) source_subvolume
                                clone_subvolume sample_volumeOptions sample_credentials
                                sample_server tt)
                   = Some (an_error errorString "resize: quota exceeded"))
      by (vm_compute; reflexivity).
    split; [exact Hobs|]. split; [exact Hres|].
    exact (proj2 (createCloneFromSubvolume_rollback (env resize_fails) source_subvolume
                    clone_subvolume sample_volumeOptions sample_credentials
                    sample_server tt) _ _ _ Hobs eq_refl Hres).
Defined.


(** X23, the clone completes between the two runs. *)
Lemma clone_finished_by_check_witness :
  let started := createCloneFromSubvolume env_by_state source_subvolume clone_subvolume
                   sample_volumeOptions sample_credentials sample_server false in
  let resumed := checkCloneFromSubvolumeExists env_by_state sample_getVolumeRootPathCeph
                   source_subvolume clone_subvolume sample_volumeOptions sample_credentials
                   sample_server true in
  observed getcloneInfo_of (trace_of started) (pending_clone, None) /\
  State (Status pending_clone) <> "complete" /\
  result_of started = Some (ErrCloneInProgress_for clone_subvolume) /\
  result_of resumed = None /\
  observed getSnapshotInfo_of (trace_of resumed) None /\
  List.filter (fun c => negb (is_query c)) (calls_of (trace_of started ++ trace_of resumed))
  = [ createSnapshot sample_volumeOptions sample_credentials clone_subvolume source_subvolume;
      protectSnapshot sample_volumeOptions sample_credentials clone_subvolume source_subvolume;
      cloneSnapshot sample_volumeOptions sample_credentials source_subvolume
        clone_subvolume clone_subvolume (cloneVolOptions "csi" "myfs-metadata");
      resizeVolume sample_volumeOptions sample_credentials clone_subvolume 1073741824;
      unprotectSnapshot sample_volumeOptions sample_credentials clone_subvolume source_subvolume;
      deleteSnapshot sample_volumeOptions sample_credentials clone_subvolume source_subvolume ].
Proof.
  cbv zeta.
  assert (Hpending : observed getcloneInfo_of
                       (trace_of (createCloneFromSubvolume env_by_state source_subvolume
                                    clone_subvolume sample_volumeOptions sample_credentials
                                    sample_server false))
                       (pending_clone, None))
    by observed_in_run.
  assert (Hstate : State (Status pending_clone) <> "complete") by discriminate.
  assert (Hres : result_of (checkCloneFromSubvolumeExists env_by_state
                              sample_getVolumeRootPathCeph source_subvolume clone_subvolume
                              sample_volumeOptions sample_credentials sample_server true)
                 = None)
    by (vm_compute; reflexivity).
  assert (Hsnap : observed getSnapshotInfo_of
                    (trace_of (checkCloneFromSubvolumeExists env_by_state
                                 sample_getVolumeRootPathCeph source_subvolume clone_subvolume
                                 sample_volumeOptions sample_credentials sample_server true))
                    None)
    by observed_in_run.
  split; [exact Hpending|]. split; [exact Hstate|].
  split; [vm_compute; reflexivity|]. split; [exact Hres|]. split; [exact Hsnap|].
  exact (clone_finished_by_check env_by_state sample_getVolumeRootPathCeph
           source_subvolume clone_subvolume sample_volumeOptions sample_credentials
           sample_server sample_server false true pending_clone
           Hpending Hstate Hres Hsnap).
Defined.

(** Replace the trace of a concrete run of a [util] helper by the list of
    its events, and find the observed event in it. *)
Ltac observed_in_util_run :=
  match goal with
  | |- context [util.trace_of ?r] =>
      let t := eval vm_compute in (util.trace_of r) in
      change (util.trace_of r) with t
  end;
  unfold util.observed;
  match goal with
  | |- exists ev, In ev ?tr /\ _ = _ =>
      let rec go l :=
        lazymatch l with
        | ?x :: ?rest => first [ exists x; split; [in_trace | reflexivity] | go rest ]
        end in
      go tr
  end.

(** X24, on the sample cluster: [myfs-metadata] is pool 2, and there is no
    pool [rbd]. *)
Lemma GetPoolID_first_match_witness :
  let getPools := util.getPools (util_env None) sample_CephConfigPath
                    sample_StripSecretInArgs sample_json_Unmarshal in
  let GetPoolID := util.GetPoolID (util_env None) sample_CephConfigPath
                     sample_StripSecretInArgs sample_json_Unmarshal in
  util.value_of (getPools "192.168.39.82:6789" sample_credentials tt) = (sample_pools, None) /\
  (exists before p after,
      sample_pools = before ++ p :: after /\
      util.Name p = "myfs-metadata" /\ util.Number p = 2 /\
      Forall (fun q => util.Name q <> "myfs-metadata") before) /\
  Forall (fun q => util.Name q <> "rbd") sample_pools /\
  util.value_of (GetPoolID "192.168.39.82:6789" sample_credentials "rbd" tt)
  = (0, Some (util.Errorf "pool (%s) not found in Ceph cluster" [util.v_string "rbd"])).
Proof.
  cbv zeta.
  assert (Hpools : util.value_of
                     (util.getPools (util_env None) sample_CephConfigPath
                        sample_StripSecretInArgs sample_json_Unmarshal
                        "192.168.39.82:6789" sample_credentials tt)
                   = (sample_pools, None))
    by (vm_compute; reflexivity).
  assert (Hnone : Forall (fun q => util.Name q <> "rbd") sample_pools)
    by (repeat constructor; discriminate).
  split; [exact Hpools|].
  split.
  - apply (proj1 (GetPoolID_first_match (util_env None) sample_CephConfigPath
                    sample_StripSecretInArgs sample_json_Unmarshal
                    "192.168.39.82:6789" sample_credentials "myfs-metadata" tt
                    sample_pools Hpools)).
    vm_compute. reflexivity.
  - split; [exact Hnone|].
    exact (proj2 (GetPoolID_first_match (util_env None) sample_CephConfigPath
                    sample_StripSecretInArgs sample_json_Unmarshal
                    "192.168.39.82:6789" sample_credentials "rbd" tt
                    sample_pools Hpools) Hnone).
Defined.

(** X25, on the sample cluster, whose pools differ in name and in
    number. *)
Lemma pool_name_and_id_round_trip_witness :
  let getPools := util.getPools (util_env None) sample_CephConfigPath
                    sample_StripSecretInArgs sample_json_Unmarshal in
  let GetPoolID := util.GetPoolID (util_env None) sample_CephConfigPath
                     sample_StripSecretInArgs sample_json_Unmarshal in
  let GetPoolName := util.GetPoolName (util_env None) sample_CephConfigPath
                       sample_StripSecretInArgs sample_json_Unmarshal in
  util.value_of (getPools "192.168.39.82:6789" sample_credentials tt) = (sample_pools, None) /\
  NoDup (map util.Number sample_pools) /\
  NoDup (map util.Name sample_pools) /\
  util.value_of (GetPoolID "192.168.39.82:6789" sample_credentials "myfs-data0" tt)
  = (3, None) /\
  util.value_of (GetPoolName "192.168.39.82:6789" sample_credentials 3 tt)
  = ("myfs-data0", None) /\
  util.value_of (GetPoolID "192.168.39.82:6789" sample_credentials "myfs-data0" tt)
  = (3, None).
Proof.
  cbv zeta.
  assert (Hpools : util.value_of
                     (util.getPools (util_env None) sample_CephConfigPath
                        sample_StripSecretInArgs sample_json_Unmarshal
                        "192.168.39.82:6789" sample_credentials tt)
                   = (sample_pools, None))
    by (vm_compute; reflexivity).
  assert (Hnumbers : NoDup (map util.Number sample_pools))
    by (apply NoDup_ListNoDup; repeat constructor; cbn; intuition discriminate).
  assert (Hnames : NoDup (map util.Name sample_pools))
    by (apply NoDup_ListNoDup; repeat constructor; cbn; intuition discriminate).
  assert (Hid : util.value_of
                  (util.GetPoolID (util_env None) sample_CephConfigPath
                     sample_StripSecretInArgs sample_json_Unmarshal
                     "192.168.39.82:6789" sample_credentials "myfs-data0" tt)
                = (3, None))
    by (vm_compute; reflexivity).
  destruct (pool_name_and_id_round_trip (util_env None) sample_CephConfigPath
              sample_StripSecretInArgs sample_json_Unmarshal
              "192.168.39.82:6789" sample_credentials tt tt sample_pools Hpools Hpools)
    as (Hname_of_id & Hid_of_name).
  split; [exact Hpools|]. split; [exact Hnumbers|]. split; [exact Hnames|].
  split; [exact Hid|].
  split; [exact (Hname_of_id Hnumbers _ _ Hid)|].
  exact (Hid_of_name Hnames _ _ (Hname_of_id Hnumbers _ _ Hid)).
Defined.

(** X28, a key that the omap does not hold. *)
Lemma GetOMapValue_classified_witness :
  let text := "rados: No such key: myfs-metadata/csi.volumes.default/csi.volume.pvc-1" in
  let run := util.GetOMapValue (util_env (Some text)) sample_CephConfigPath
               "192.168.39.82:6789" sample_credentials "myfs-metadata" ""
               "csi.volumes.default" "csi.volume.pvc-1" tt in
  util.observed util.GetOmapValues_of (util.trace_of run) ("", Some text) /\
  util.occurs_in "No such key: myfs-metadata/csi.volumes.default/csi.volume.pvc-1" text /\
  util.value_of run
  = ("", Some (util.ErrKeyNotFound "myfs-metadata/csi.volumes.default/csi.volume.pvc-1"
                 (util.external text))).
Proof.
  cbv zeta.
  assert (Hobs : util.observed util.GetOmapValues_of
                   (util.trace_of
                      (util.GetOMapValue
                         (util_env (Some "rados: No such key: myfs-metadata/csi.volumes.default/csi.volume.pvc-1"))
                         sample_CephConfigPath "192.168.39.82:6789" sample_credentials
                         "myfs-metadata" "" "csi.volumes.default" "csi.volume.pvc-1" tt))
                   ("", Some "rados: No such key: myfs-metadata/csi.volumes.default/csi.volume.pvc-1"))
    by observed_in_util_run.
  assert (Hocc : util.occurs_in
                   "No such key: myfs-metadata/csi.volumes.default/csi.volume.pvc-1"
                   "rados: No such key: myfs-metadata/csi.volumes.default/csi.volume.pvc-1")
    by (exists "rados: ", ""; reflexivity).
  split; [exact Hobs|]. split; [exact Hocc|].
  exact (proj1 (proj1 (proj2 (GetOMapValue_classified
                                (util_env (Some "rados: No such key: myfs-metadata/csi.volumes.default/csi.volume.pvc-1"))
                                sample_CephConfigPath "192.168.39.82:6789" sample_credentials
                                "myfs-metadata" "" "csi.volumes.default" "csi.volume.pvc-1" tt))
                  _ _ Hobs) (or_introl Hocc)).
Defined.

(** X29, an object that exists already. *)
Lemma object_errors_classified_witness :
  let text := "error creating myfs-metadata/csi.volume.pvc-1: (17) File exists" in
  let run := util.CreateObject (util_env (Some text)) sample_CephConfigPath
               "192.168.39.82:6789" sample_credentials "myfs-metadata" ""
               "csi.volume.pvc-1" tt in
  util.observed util.failure_of (util.trace_of run) text /\
  util.occurs_in "error creating myfs-metadata/csi.volume.pvc-1: (17) File exists" text /\
  util.value_of run = Some (util.ErrObjectExists "csi.volume.pvc-1" (util.external text)).
Proof.
  cbv zeta.
  assert (Hobs : util.observed util.failure_of
                   (util.trace_of
                      (util.CreateObject
                         (util_env (Some "error creating myfs-metadata/csi.volume.pvc-1: (17) File exists"))
                         sample_CephConfigPath "192.168.39.82:6789" sample_credentials
                         "myfs-metadata" "" "csi.volume.pvc-1" tt))
                   "error creating myfs-metadata/csi.volume.pvc-1: (17) File exists")
    by observed_in_util_run.
  assert (Hocc : util.occurs_in
                   "error creating myfs-metadata/csi.volume.pvc-1: (17) File exists"
                   "error creating myfs-metadata/csi.volume.pvc-1: (17) File exists")
    by (exists "", ""; reflexivity).
  split; [exact Hobs|]. split; [exact Hocc|].
  exact (proj1 (proj1 (object_errors_classified
                         (util_env (Some "error creating myfs-metadata/csi.volume.pvc-1: (17) File exists"))
                         sample_CephConfigPath "192.168.39.82:6789" sample_credentials
                         "myfs-metadata" "" "csi.volume.pvc-1" tt _) Hobs) Hocc).
Defined.
